(** * The referral reconciliation pipeline of [process_referrals.py]

    A shallow embedding of the script: the table loader ([read_csv]), the
    profiler ([profile_df]), the value-level normalisers ([safe_initcap],
    [utc_to_local]), the data cleaning block, the four left joins that build
    the reconciled frame, the business-validity predicate ([check_valid])
    and the projection of the final report.

    Modelling conventions.
    - A cell of a DataFrame is a [value]: missing ([NaN], [None], [NaT] are
      one [VNull]), a number, a text, or a timestamp.  Numbers are rationals:
      the script uses their order and equality, and their string form.
    - Text is a [string] of bytes.  [lower], [upper] and [title] change the
      ASCII letters and leave every other byte alone; [str.title] itself,
      which follows Unicode, is a function of the runtime ([str_title]) that
      is [title] on ASCII text.
    - A timestamp is a wall clock reading in nanoseconds since
      1970-01-01T00:00:00 with an optional UTC offset ([tzinfo]).  The
      arithmetic of [astimezone] stays within the years 1 to 9999 of
      Python's [datetime] and raises [OverflowError] outside.
    - A raised Python exception is the [Raise] case of [result].
    - What the script takes from its libraries and the model cannot compute
      (text of a number and of a timestamp, title case beyond ASCII, parsing
      of numbers and of timestamps, the zone database) is the interface
      [PyEnv]; [iso_env] is one instance, used for the concrete records.
    - A column carries one kind of value, as [pd.read_csv] reads it, and its
      dtype is read off its cells ([column_dtype]): numbers and missing
      cells are a numeric column, a column with a text is an [object]
      column.  [merge] checks the dtypes of its two key columns and the
      labels its suffixes make ([merge_left]).
    - [sort_values] is a stable sort; the statements about it hold of any
      sort. *)

From Stdlib Require Import List String Ascii ZArith QArith Qround Bool Lia.
From Stdlib Require Import DecimalString Permutation Sorted.
Import ListNotations.
Local Open Scope bool_scope.
Local Open Scope list_scope.

(* ------------------------------------------------------------------ *)
(** ** Exceptions *)

Inductive exn : Type :=
| KeyError (key : string)
| TypeError
| ValueError
| OverflowError
| MergeError
| ParserError.

Inductive result (A : Type) : Type :=
| Ok (a : A)
| Raise (e : exn).
Arguments Ok {A} a.
Arguments Raise {A} e.

Definition bind {A B : Type} (c : result A) (k : A -> result B) : result B :=
  match c with
  | Ok a => k a
  | Raise e => Raise e
  end.

Notation "x <- c ;; k" := (bind c (fun x => k))
  (at level 61, c at next level, right associativity).

(** Python's short-circuit [a and b] when evaluating an operand may raise. *)
Definition and_then (a b : result bool) : result bool :=
  match a with
  | Ok true => b
  | Ok false => Ok false
  | Raise e => Raise e
  end.

Infix "&>" := and_then (at level 41, right associativity).

(* ------------------------------------------------------------------ *)
(** ** Text *)

Definition is_upper (c : ascii) : bool :=
  let n := nat_of_ascii c in (65 <=? n)%nat && (n <=? 90)%nat.

Definition is_lower (c : ascii) : bool :=
  let n := nat_of_ascii c in (97 <=? n)%nat && (n <=? 122)%nat.

Definition is_cased (c : ascii) : bool := is_upper c || is_lower c.

Definition to_lower (c : ascii) : ascii :=
  if is_upper c then ascii_of_nat (nat_of_ascii c + 32) else c.

Definition to_upper (c : ascii) : ascii :=
  if is_lower c then ascii_of_nat (nat_of_ascii c - 32) else c.

(** [s.lower()], on the ASCII letters *)
Fixpoint lower (s : string) : string :=
  match s with
  | EmptyString => EmptyString
  | String c s' => String (to_lower c) (lower s')
  end.

(** [s.upper()], on the ASCII letters *)
Fixpoint upper (s : string) : string :=
  match s with
  | EmptyString => EmptyString
  | String c s' => String (to_upper c) (upper s')
  end.

(** [s.title()] on ASCII text: a letter that follows a letter is
    lower-cased, any other letter is upper-cased. *)
Fixpoint title_from (previous_is_cased : bool) (s : string) : string :=
  match s with
  | EmptyString => EmptyString
  | String c s' =>
      String (if previous_is_cased then to_lower c else to_upper c)
             (title_from (is_cased c) s')
  end.

Definition title (s : string) : string := title_from false s.

(** A text of ASCII characters. *)
Definition is_ascii (c : ascii) : bool := (nat_of_ascii c <? 128)%nat.

Fixpoint ascii_text (s : string) : bool :=
  match s with
  | EmptyString => true
  | String c s' => is_ascii c && ascii_text s'
  end.

(** [sub in s] on text. *)
Fixpoint contains (sub s : string) : bool :=
  prefix sub s ||
  match s with
  | EmptyString => false
  | String _ s' => contains sub s'
  end.

(** [x in l] on a list of texts. *)
Definition mem (x : string) (l : list string) : bool :=
  existsb (String.eqb x) l.

(* ------------------------------------------------------------------ *)
(** ** Timestamps and cell values *)

Record datetime : Type := { wall : Z; tzinfo : option Z }.

Definition naive (w : Z) : datetime := {| wall := w; tzinfo := None |}.

(** The UTC instant of an aware timestamp; a naive one has none, and the
    wall clock is returned. *)
Definition instant (d : datetime) : Z :=
  match tzinfo d with
  | Some off => (wall d - off)%Z
  | None => wall d
  end.

Inductive value : Type :=
| VNull
| VNum (q : Q)
| VStr (s : string)
| VTime (t : datetime).

(** [pd.isnull] and [pd.notnull] on a scalar. *)
Definition isnull (v : value) : bool :=
  match v with
  | VNull => true
  | _ => false
  end.

Definition notnull (v : value) : bool := negb (isnull v).

Definition datetime_eqb (a b : datetime) : bool :=
  (wall a =? wall b)%Z &&
  match tzinfo a, tzinfo b with
  | None, None => true
  | Some x, Some y => (x =? y)%Z
  | _, _ => false
  end.

(** Equality of join and group keys: missing keys are equal to each other. *)
Definition value_eqb (a b : value) : bool :=
  match a, b with
  | VNull, VNull => true
  | VNum p, VNum q => Qeq_bool p q
  | VStr s, VStr t => String.eqb s t
  | VTime s, VTime t => datetime_eqb s t
  | _, _ => false
  end.

(** [a >= b] on two timestamps: defined between two naive or two aware
    ones, a [TypeError] between a naive and an aware one. *)
Definition ts_ge (a b : datetime) : result bool :=
  match tzinfo a, tzinfo b with
  | None, None => Ok (wall b <=? wall a)%Z
  | Some _, Some _ => Ok (instant b <=? instant a)%Z
  | _, _ => Raise TypeError
  end.

(** [v > 0] on a cell. *)
Definition gt_zero (v : value) : result bool :=
  match v with
  | VNum q => Ok (negb (Qle_bool q 0))
  | VNull => Ok false
  | VStr _ => Raise TypeError
  | VTime _ => Raise TypeError
  end.

(** A row handed to a function by [DataFrame.apply(axis=1)]: the column
    labels with the row's cells. *)
Definition Series : Type := list (string * value).

(** [row.get(key, default)] *)
Fixpoint get (row : Series) (key : string) (default : value) : value :=
  match row with
  | [] => default
  | (k, v) :: row' => if String.eqb k key then v else get row' key default
  end.

(* ------------------------------------------------------------------ *)
(** ** What the libraries provide *)

Class PyEnv : Type := {
  (** [str(x)] of a number and of a timestamp *)
  str_num : Q -> result string;
  str_time : datetime -> result string;
  (** [s.title()], which follows Unicode; on ASCII text it is [title] *)
  str_title : string -> string;
  str_title_ascii : forall s, ascii_text s = true -> str_title s = title s;
  (** [pd.to_numeric(s, errors='coerce')] of a text; [None] is NaN *)
  to_numeric_str : string -> option Q;
  (** [pd.to_datetime(x, errors='coerce')] of a text and of a number;
      [None] is NaT *)
  to_datetime_str : string -> option datetime;
  to_datetime_num : Q -> option datetime;
  (** [dateutil.parser.parse] *)
  dateutil_parse : string -> result datetime;
  (** [pytz.all_timezones], and the UTC offset of a zone at a UTC instant *)
  all_timezones : list string;
  utcoffset : string -> Z -> Z
}.

Section Values.
Context {E : PyEnv}.

(** [str(v)] *)
Definition py_str (v : value) : result string :=
  match v with
  | VStr s => Ok s
  | VNull => Ok "nan"%string
  | VNum q => str_num q
  | VTime t => str_time t
  end.

(** [pd.to_datetime(v, errors='coerce')] *)
Definition to_datetime (v : value) : option datetime :=
  match v with
  | VNull => None
  | VStr s => to_datetime_str s
  | VNum q => to_datetime_num q
  | VTime t => Some t
  end.

(** [pd.to_numeric(v, errors='coerce')] on one cell. *)
Definition to_numeric (v : value) : value :=
  match v with
  | VNull => VNull
  | VNum q => VNum q
  | VStr s => match to_numeric_str s with
              | Some q => VNum q
              | None => VNull
              end
  | VTime _ => VNull
  end.

(* ---------------------------------------------------------------- *)
(** ** Value-level normalisers *)

(** [safe_initcap] *)
Definition safe_initcap (val : value) : value :=
  if isnull val then val
  else match py_str val with
       | Ok s => VStr (str_title s)
       | Raise _ => val
       end.

(** [pytz.UTC.localize(dt)] *)
Definition localize_utc (dt : datetime) : datetime :=
  {| wall := wall dt; tzinfo := Some 0%Z |}.

(** The wall clock readings of [datetime.min], 0001-01-01T00:00:00, and of
    [datetime.max], 9999-12-31T23:59:59.999999. *)
Definition datetime_min : Z := (-62135596800 * 1000000000)%Z.
Definition datetime_max : Z := (253402300800 * 1000000000 - 1000)%Z.

Definition in_range (w : Z) : bool :=
  (datetime_min <=? w)%Z && (w <=? datetime_max)%Z.

(** [dt.astimezone(pytz.timezone(zone))] on an aware [dt]: [dt] less its
    offset is the UTC reading, which the zone turns into its local reading;
    either step raises [OverflowError] when it leaves the years 1 to 9999. *)
Definition astimezone (dt : datetime) (zone : string) : result datetime :=
  let u := instant dt in
  if in_range u && in_range (u + utcoffset zone u)
  then Ok {| wall := (u + utcoffset zone u)%Z;
             tzinfo := Some (utcoffset zone u) |}
  else Raise OverflowError.

(** [dt.replace(tzinfo=None)] *)
Definition drop_tzinfo (dt : datetime) : datetime := naive (wall dt).

(** [tz_name and tz_name in pytz.all_timezones]: a non-empty text of the
    list; a missing zone (NaN) is truthy and in no list. *)
Definition recognized (tz_name : value) : option string :=
  match tz_name with
  | VStr s => if negb (String.eqb s "") && mem s all_timezones
              then Some s else None
  | _ => None
  end.

(** [if dt.tzinfo is None: dt = pytz.UTC.localize(dt)] *)
Definition assume_utc (dt : datetime) : datetime :=
  match tzinfo dt with
  | None => localize_utc dt
  | Some _ => dt
  end.

(** What [utc_to_local] computes inside its [try]. *)
Definition utc_to_local_body (ts tz_name : value) : result datetime :=
  s <- py_str ts ;;
  dt <- dateutil_parse s ;;
  let dt := assume_utc dt in
  match recognized tz_name with
  | Some zone => local <- astimezone dt zone ;; Ok (drop_tzinfo local)
  | None => Ok dt
  end.

(** [utc_to_local] *)
Definition utc_to_local (ts tz_name : value) : value :=
  if isnull ts then VNull
  else match utc_to_local_body ts tz_name with
       | Ok dt => VTime dt
       | Raise _ => VNull
       end.

(* ---------------------------------------------------------------- *)
(** ** The validator *)

(** The local variables [check_valid] computes before it tests anything. *)
Record locals : Type := {
  reward_val : value;
  status : string;
  tx_status : string;
  tx_type : string;
  tx_id : value;
  ref_time : option datetime;
  tx_time : option datetime;
  reward_granted : bool
}.

Definition read_locals (row : Series) : result locals :=
  let reward_val := get row "reward_value" VNull in
  s <- py_str (get row "description" (VStr "")) ;;
  ts <- py_str (get row "transaction_status" (VStr "")) ;;
  tt <- py_str (get row "transaction_type" (VStr "")) ;;
  Ok {| reward_val := reward_val;
        status := lower s;
        tx_status := upper ts;
        tx_type := upper tt;
        tx_id := get row "transaction_id" VNull;
        ref_time := to_datetime (get row "referral_at" VNull);
        tx_time := to_datetime (get row "transaction_at" VNull);
        reward_granted := notnull (get row "reward_granted_at" VNull) |}.

Definition is_some {A : Type} (o : option A) : bool :=
  match o with
  | Some _ => true
  | None => false
  end.

(** [tx_time >= ref_time]; a comparison with NaT is false. *)
Definition time_ge (a b : option datetime) : result bool :=
  match a, b with
  | Some x, Some y => ts_ge x y
  | _, _ => Ok false
  end.

(** The condition under [# Valid 1]. *)
Definition valid_1 (l : locals) : result bool :=
  Ok (notnull (reward_val l)) &> gt_zero (reward_val l) &>
  Ok (String.eqb (status l) "berhasil") &>
  Ok (notnull (tx_id l)) &>
  Ok (String.eqb (tx_status l) "PAID") &>
  Ok (String.eqb (tx_type l) "NEW") &>
  Ok (is_some (tx_time l)) &> Ok (is_some (ref_time l)) &>
  time_ge (tx_time l) (ref_time l) &>
  Ok (reward_granted l).

(** The condition under [# Valid 2]. *)
Definition valid_2 (l : locals) : bool :=
  mem (status l) ["menunggu"; "tidak berhasil"]%string && isnull (reward_val l).

(** [check_valid] *)
Definition check_valid (row : Series) : result bool :=
  l <- read_locals row ;;
  v1 <- valid_1 l ;;
  if v1 then Ok true
  else if valid_2 l then Ok true
  else Ok false.

(** The validator with its two tests tried in the other order. *)
Definition check_valid_swapped (row : Series) : result bool :=
  l <- read_locals row ;;
  if valid_2 l then Ok true
  else v1 <- valid_1 l ;;
       if v1 then Ok true else Ok false.

End Values.

(* ------------------------------------------------------------------ *)
(** ** DataFrames *)

(** A frame: its column labels, and its rows in order, each a list of cells
    in the order of the labels. *)
Record DataFrame : Type := { columns : list string; rows : list (list value) }.

(** [pd.DataFrame()] *)
Definition empty_frame : DataFrame := {| columns := []; rows := [] |}.

(** [df.empty]: no column or no row. *)
Definition df_empty (df : DataFrame) : bool :=
  match columns df, rows df with
  | _ :: _, _ :: _ => false
  | _, _ => true
  end.

(** [col in df.columns] *)
Definition has_column (col : string) (df : DataFrame) : bool :=
  mem col (columns df).

Fixpoint index_of (col : string) (cols : list string) : option nat :=
  match cols with
  | [] => None
  | c :: cols' =>
      if String.eqb c col then Some O
      else match index_of col cols' with
           | Some i => Some (S i)
           | None => None
           end
  end.

Definition cell (r : list value) (i : nat) : value := nth i r VNull.

Fixpoint remove_nth {A : Type} (i : nat) (l : list A) : list A :=
  match l, i with
  | [], _ => []
  | _ :: l', O => l'
  | x :: l', S i' => x :: remove_nth i' l'
  end.

Fixpoint replace_nth {A : Type} (i : nat) (x : A) (l : list A) : list A :=
  match l, i with
  | [], _ => []
  | _ :: l', O => x :: l'
  | y :: l', S i' => y :: replace_nth i' x l'
  end.

(** The row [r] of a frame with labels [cols], as [apply(axis=1)] hands it
    over. *)
Definition as_series (cols : list string) (r : list value) : Series :=
  combine cols r.

(** [df[col] = df[col].apply(f)] on one row: [f] on the cells under the
    label [col]. *)
Fixpoint apply_in_row (f : value -> value) (col : string)
    (cols : list string) (r : list value) : list value :=
  match cols, r with
  | c :: cols', v :: r' =>
      (if String.eqb c col then f v else v) :: apply_in_row f col cols' r'
  | _, _ => r
  end.

Definition apply_column (f : value -> value) (col : string) (df : DataFrame)
    : DataFrame :=
  {| columns := columns df;
     rows := map (apply_in_row f col (columns df)) (rows df) |}.

(** [df[col] = df.apply(f, axis=1)]: the column is overwritten where it
    exists and appended where it does not. *)
Definition assign (col : string) (f : Series -> value) (df : DataFrame)
    : DataFrame :=
  match index_of col (columns df) with
  | Some i =>
      {| columns := columns df;
         rows := map (fun r => replace_nth i (f (as_series (columns df) r)) r)
                     (rows df) |}
  | None =>
      {| columns := columns df ++ [col];
         rows := map (fun r => r ++ [f (as_series (columns df) r)]) (rows df) |}
  end.

(** [df.rename(columns=renames)] *)
Fixpoint rename_label (renames : list (string * string)) (c : string) : string :=
  match renames with
  | [] => c
  | (old, new) :: renames' =>
      if String.eqb c old then new else rename_label renames' c
  end.

Definition rename (renames : list (string * string)) (df : DataFrame) : DataFrame :=
  {| columns := map (rename_label renames) (columns df); rows := rows df |}.

(** [df[[c1, ..., cn]]]: a [KeyError] on the first label that is no column. *)
Fixpoint indices_of (cols : list string) (wanted : list string)
    : result (list nat) :=
  match wanted with
  | [] => Ok []
  | c :: wanted' =>
      match index_of c cols with
      | None => Raise (KeyError c)
      | Some i => rest <- indices_of cols wanted' ;; Ok (i :: rest)
      end
  end.

Definition select (wanted : list string) (df : DataFrame) : result DataFrame :=
  idx <- indices_of (columns df) wanted ;;
  Ok {| columns := wanted;
        rows := map (fun r => map (cell r) idx) (rows df) |}.

(* ------------------------------------------------------------------ *)
(** ** The table loader *)

(** The data directory: for a file name, nothing when no such file exists,
    and otherwise what [pd.read_csv] makes of the file. *)
Definition directory : Type := string -> option (result DataFrame).

(** [read_csv]: the line it prints and what it returns. *)
Definition read_csv (data_dir : directory) (name : string)
    : string * result DataFrame :=
  match data_dir name with
  | None => (("⚠️ Missing: " ++ name)%string, Ok empty_frame)
  | Some parsed => (("✅ Reading " ++ name)%string, parsed)
  end.

(** The seven loads of the script, in order. *)
Definition table_names : list string :=
  ["lead_log.csv"; "paid_transactions.csv"; "referral_rewards.csv";
   "user_logs.csv"; "user_referral_logs.csv"; "user_referral_statuses.csv";
   "user_referrals.csv"]%string.

(** Loading a list of tables one after the other: the printed lines and the
    loaded frames; a load that raises ends the run. *)
Fixpoint load_tables (data_dir : directory) (names : list string)
    : list string * result (list DataFrame) :=
  match names with
  | [] => ([], Ok [])
  | name :: names' =>
      let (line, r) := read_csv data_dir name in
      match r with
      | Raise e => ([line], Raise e)
      | Ok df =>
          let (lines, rs) := load_tables data_dir names' in
          (line :: lines,
           match rs with
           | Ok dfs => Ok (df :: dfs)
           | Raise e => Raise e
           end)
      end
  end.

(** The loaded tables the pipeline goes on to use. *)
Record Tables : Type := {
  paid_transactions : DataFrame;
  referral_rewards : DataFrame;
  user_logs : DataFrame;
  user_referral_logs : DataFrame;
  user_referrals : DataFrame
}.

(* ------------------------------------------------------------------ *)
(** ** Data cleaning *)

(** ["name" in col and "homeclub" not in col] *)
Definition is_name_column (col : string) : bool :=
  contains "name" col && negb (contains "homeclub" col).

Section Cleaning.
Context {E : PyEnv}.

(** One turn of the inner loop of the initcap block, on the frame and on
    one row of it. *)
Definition initcap_step (df : DataFrame) (col : string) : DataFrame :=
  if is_name_column col then apply_column safe_initcap col df else df.

Definition initcap_row_step (cols : list string) (r : list value)
    (col : string) : list value :=
  if is_name_column col then apply_in_row safe_initcap col cols r else r.

(** The inner loop over [df.columns] of the initcap block. *)
Definition initcap_names (df : DataFrame) : DataFrame :=
  fold_left initcap_step (columns df) df.

(** The initcap block: [for df in [user_referrals, user_logs]]. *)
Definition clean_names (t : Tables) : Tables :=
  {| paid_transactions := paid_transactions t;
     referral_rewards := referral_rewards t;
     user_logs := initcap_names (user_logs t);
     user_referral_logs := user_referral_logs t;
     user_referrals := initcap_names (user_referrals t) |}.

(** Reward values to numbers. *)
Definition coerce_rewards (df : DataFrame) : DataFrame :=
  if has_column "reward_value" df
  then apply_column to_numeric "reward_value" df
  else df.

Definition clean_rewards (t : Tables) : Tables :=
  {| paid_transactions := paid_transactions t;
     referral_rewards := coerce_rewards (referral_rewards t);
     user_logs := user_logs t;
     user_referral_logs := user_referral_logs t;
     user_referrals := user_referrals t |}.

(** The local time of the transactions. *)
Definition localize_transactions (df : DataFrame) : DataFrame :=
  if has_column "transaction_at" df && has_column "timezone_transaction" df
  then assign "transaction_at_local"
         (fun r => utc_to_local (get r "transaction_at" VNull)
                                (get r "timezone_transaction" VNull))
         df
  else df.

Definition clean_transactions (t : Tables) : Tables :=
  {| paid_transactions := localize_transactions (paid_transactions t);
     referral_rewards := referral_rewards t;
     user_logs := user_logs t;
     user_referral_logs := user_referral_logs t;
     user_referrals := user_referrals t |}.

(** The data cleaning block, in the order of the script. *)
Definition data_cleaning (t : Tables) : Tables :=
  clean_transactions (clean_rewards (clean_names t)).

End Cleaning.

(* ------------------------------------------------------------------ *)
(** ** Sorting, grouping, joining *)

Definition datetime_leb (a b : datetime) : bool := (instant a <=? instant b)%Z.

(** The order [sort_values] and [groupby] put cells in: missing cells last;
    a column holds one kind of cell, and kinds are ordered number, text,
    timestamp to make the order total. *)
Definition value_leb (a b : value) : bool :=
  match a, b with
  | _, VNull => true
  | VNull, _ => false
  | VNum p, VNum q => Qle_bool p q
  | VNum _, _ => true
  | VStr _, VNum _ => false
  | VStr s, VStr t => String.leb s t
  | VStr _, VTime _ => true
  | VTime s, VTime t => datetime_leb s t
  | VTime _, _ => false
  end.

(** Insertion that keeps [x] ahead of the cells it is equal to. *)
Fixpoint insert_by {A : Type} (key : A -> value) (x : A) (l : list A) : list A :=
  match l with
  | [] => [x]
  | y :: l' =>
      if value_leb (key x) (key y) then x :: l else y :: insert_by key x l'
  end.

(** A sort by [key] that keeps the input order of equal keys. *)
Definition sort_by {A : Type} (key : A -> value) (l : list A) : list A :=
  fold_right (insert_by key) [] l.

(** [df.sort_values(col)] *)
Definition sort_values (col : string) (df : DataFrame) : result DataFrame :=
  match index_of col (columns df) with
  | None => Raise (KeyError col)
  | Some i =>
      Ok {| columns := columns df;
            rows := sort_by (fun r => cell r i) (rows df) |}
  end.

(** The distinct keys of a column, first occurrences. *)
Fixpoint distinct (l : list value) : list value :=
  match l with
  | [] => []
  | k :: l' => k :: filter (fun k' => negb (value_eqb k k')) (distinct l')
  end.

(** The last cell of column [j] in [group] that is not missing, as
    [GroupBy.last] takes it. *)
Definition last_valid (j : nat) (group : list (list value)) : value :=
  fold_left (fun acc r => if isnull (cell r j) then acc else cell r j)
            group VNull.

(** [df.groupby(key).last().reset_index()]: one row per key that is not
    missing, keys in order; the key first, then every other column with its
    last cell that is not missing. *)
Definition groupby_last (key : string) (df : DataFrame) : result DataFrame :=
  match index_of key (columns df) with
  | None => Raise (KeyError key)
  | Some i =>
      let keys :=
        sort_by (fun k => k)
                (distinct (filter notnull (map (fun r => cell r i) (rows df)))) in
      let others := remove_nth i (seq 0 (List.length (columns df))) in
      Ok {| columns := key :: remove_nth i (columns df);
            rows :=
              map (fun k =>
                     let group :=
                       filter (fun r => value_eqb (cell r i) k) (rows df) in
                     k :: map (fun j => last_valid j group) others)
                  keys |}
  end.

(** The dtype pandas gives a column, read off its cells: numbers and
    missing cells make a numeric column (of integers or of floats; a column
    of missing cells is a float column), timestamps of one zone a timestamp
    column, and any other column, a column with a text above all, is an
    [object] column. *)
Inductive dtype : Type :=
| numeric
| datetime64 (tz : option Z)
| object.

Definition dtype_eqb (a b : dtype) : bool :=
  match a, b with
  | numeric, numeric => true
  | object, object => true
  | datetime64 None, datetime64 None => true
  | datetime64 (Some x), datetime64 (Some y) => (x =? y)%Z
  | _, _ => false
  end.

Definition cell_dtype (v : value) : list dtype :=
  match v with
  | VNull => []
  | VNum _ => [numeric]
  | VStr _ => [object]
  | VTime t => [datetime64 (tzinfo t)]
  end.

Definition column_dtype (cells : list value) : dtype :=
  match flat_map cell_dtype cells with
  | [] => numeric
  | d :: ds => if forallb (dtype_eqb d) ds then d else object
  end.

(** The check [merge] makes of the two key columns before it joins: a
    column of texts does not go with a column of numbers, nor a column of
    timestamps with another column or with timestamps that differ in
    carrying a zone.  Nothing is checked when one side only has no row. *)
Definition key_clash (lk rk : list value) : bool :=
  match lk, rk with
  | [], _ :: _ => false
  | _ :: _, [] => false
  | _, _ =>
      match column_dtype lk, column_dtype rk with
      | numeric, numeric => false
      | object, object => false
      | datetime64 a, datetime64 b => xorb (is_some a) (is_some b)
      | _, _ => true
      end
  end.

(** A column of numbers has a row, and numbers or missing cells only; a
    column of texts has a text, and texts or missing cells only. *)
Definition is_number (v : value) : bool :=
  match v with
  | VNull | VNum _ => true
  | _ => false
  end.

Definition is_text (v : value) : bool :=
  match v with
  | VStr _ => true
  | _ => false
  end.

Definition numbers (cells : list value) : bool :=
  match cells with
  | [] => false
  | _ :: _ => forallb is_number cells
  end.

Definition texts (cells : list value) : bool :=
  forallb (fun v => isnull v || is_text v) cells && existsb is_text cells.

(** The label of a left column in a merge: suffixed when a right column
    other than the key has the same label. *)
Definition left_label (rcols : list string) (on lsuffix : string) (c : string)
    : string :=
  if mem c rcols && negb (String.eqb c on) then (c ++ lsuffix)%string else c.

(** The label of a right column in a merge. *)
Definition right_label (lcols : list string) (rsuffix : string) (c : string)
    : string :=
  if mem c lcols then (c ++ rsuffix)%string else c.

(** Suffixing made a label of one side equal to an earlier label of that
    side: [new[new.duplicated() & ~old.duplicated()]] is not empty. *)
Fixpoint suffix_duplicates (seen_old seen_new old new : list string) : bool :=
  match old, new with
  | o :: old', n :: new' =>
      (mem n seen_new && negb (mem o seen_old)) ||
      suffix_duplicates (o :: seen_old) (n :: seen_new) old' new'
  | _, _ => false
  end.

(** The rows a left row [l] with its key in column [i] gives in a left
    merge: [l] with the cells of each right row that has an equal key in
    column [j], or [l] with [n] missing cells when there is none. *)
Definition join_row (i j n : nat) (right_rows : list (list value))
    (l : list value) : list (list value) :=
  match filter (fun r => value_eqb (cell l i) (cell r j)) right_rows with
  | [] => [l ++ repeat VNull n]
  | matches => map (fun r => l ++ remove_nth j r) matches
  end.

(** [left.merge(right, how='left', on=on, suffixes=(lsuffix, rsuffix))]: a
    [KeyError] when a side lacks the key, a [ValueError] when the key
    columns clash, a [MergeError] when the suffixes make two labels of one
    side equal. *)
Definition merge_left (left right : DataFrame) (on : string)
    (lsuffix rsuffix : string) : result DataFrame :=
  match index_of on (columns left), index_of on (columns right) with
  | Some i, Some j =>
      let rcols := remove_nth j (columns right) in
      let llabels := map (left_label rcols on lsuffix) (columns left) in
      let rlabels := map (right_label (columns left) rsuffix) rcols in
      if key_clash (map (fun l => cell l i) (rows left))
                   (map (fun r => cell r j) (rows right))
      then Raise ValueError
      else if suffix_duplicates [] [] (columns left) llabels ||
              suffix_duplicates [] [] rcols rlabels
      then Raise MergeError
      else
        Ok {| columns := llabels ++ rlabels;
              rows := flat_map (join_row i j (List.length rcols) (rows right))
                               (rows left) |}
  | _, _ => Raise (KeyError on)
  end.

(* ------------------------------------------------------------------ *)
(** ** The reconciler *)

(** The guard of a join: [not right.empty and key in right.columns]. *)
Definition joins (right : DataFrame) (key : string) : bool :=
  negb (df_empty right) && has_column key right.

(** [latest_logs] *)
Definition latest_logs (logs : DataFrame) : result DataFrame :=
  sorted <- sort_values "created_at" logs ;;
  groupby_last "user_referral_id" sorted.

Definition join_logs (df logs : DataFrame) : result DataFrame :=
  if joins logs "user_referral_id" then
    latest <- latest_logs logs ;;
    merge_left df (rename [("user_referral_id", "referral_id")]%string latest)
               "referral_id" "_x" "_y"
  else Ok df.

Definition join_rewards (df rewards : DataFrame) : result DataFrame :=
  if joins rewards "id" then
    merge_left df (rename [("id", "referral_reward_id")]%string rewards)
               "referral_reward_id" "_x" "_y"
  else Ok df.

Definition join_transactions (df transactions : DataFrame) : result DataFrame :=
  if joins transactions "transaction_id"
  then merge_left df transactions "transaction_id" "" "_trans"
  else Ok df.

Definition referrer_columns : list string :=
  ["referrer_id"; "referrer_name"; "referrer_phone_number";
   "referrer_homeclub"]%string.

Definition referrer_renames : list (string * string) :=
  [("user_id", "referrer_id"); ("name", "referrer_name");
   ("phone_number", "referrer_phone_number");
   ("homeclub", "referrer_homeclub")]%string.

Definition join_referrer (df users : DataFrame) : result DataFrame :=
  if joins users "user_id" then
    ref <- select referrer_columns (rename referrer_renames users) ;;
    merge_left df ref "referrer_id" "_x" "_y"
  else Ok df.

(** The join block: the referrals, then the four left joins. *)
Definition reconcile (t : Tables) : result DataFrame :=
  let df := user_referrals t in
  df <- join_logs df (user_referral_logs t) ;;
  df <- join_rewards df (referral_rewards t) ;;
  df <- join_transactions df (paid_transactions t) ;;
  join_referrer df (user_logs t).

(* ------------------------------------------------------------------ *)
(** ** The declared tables *)

(** Every row has one cell per column. *)
Definition rectangular (df : DataFrame) : Prop :=
  forall r, In r (rows df) -> List.length r = List.length (columns df).

(** The column labels the joins rely on, as the data model declares them:
    the referral table has its four keys; a log table that is joined has
    [created_at], and a user table that is joined has the three columns of
    the referrer; the log and reward tables have no column labelled like a
    key of a later join. *)
Definition declared_schema (t : Tables) : bool :=
  forallb (fun k => has_column k (user_referrals t))
          ["referral_id"; "referral_reward_id"; "transaction_id";
           "referrer_id"]%string &&
  implb (joins (user_referral_logs t) "user_referral_id")
        (has_column "created_at" (user_referral_logs t)) &&
  forallb (fun k => negb (has_column k (user_referral_logs t)))
          ["referral_reward_id"; "transaction_id"; "referrer_id"]%string &&
  forallb (fun k => negb (has_column k (referral_rewards t)))
          ["transaction_id"; "referrer_id"]%string &&
  implb (joins (user_logs t) "user_id")
        (forallb (fun k => has_column k (user_logs t))
                 ["name"; "phone_number"; "homeclub"]%string).

(** Every row of [df] is the beginning of a row of [out]. *)
Definition keeps_rows (df out : DataFrame) : Prop :=
  forall l, In l (rows df) -> exists rest, In (l ++ rest) (rows out).

(** The row [l], with its key in column [i], has no partner in [right],
    whose key is in column [j]. *)
Definition unmatched (i j : nat) (right : DataFrame) (l : list value) : Prop :=
  forall r, In r (rows right) -> value_eqb (cell l i) (cell r j) = false.

(** The cells of a list are pairwise different. *)
Fixpoint all_distinct (l : list value) : bool :=
  match l with
  | [] => true
  | k :: l' =>
      forallb (fun k' => negb (value_eqb k k')) l' && all_distinct l'
  end.

(** The keys of column [j] are pairwise different. *)
Definition unique_keys (j : nat) (rs : list (list value)) : bool :=
  all_distinct (map (fun r => cell r j) rs).

(** The column [key] of a table, where the table has it, holds pairwise
    different keys. *)
Definition unique_on (key : string) (df : DataFrame) : bool :=
  match index_of key (columns df) with
  | Some j => unique_keys j (rows df)
  | None => true
  end.

(* ------------------------------------------------------------------ *)
(** ** A runtime for the concrete records

    Timestamps in the ISO-8601 form ([YYYY-MM-DD], then optionally [T] or a
    blank with [HH:MM] or [HH:MM:SS] and up to nine decimals of a second,
    then optionally [Z] or [+HH:MM] / [-HH:MM]), decimal numerals, ASCII
    text and two zones.  Both [pd.to_datetime] and [dateutil.parser.parse]
    read these timestamps this way: a text with a zone gives an aware
    timestamp, a text without one a naive timestamp, and [dateutil] keeps
    six decimals of a second.  A number prints as the float nearest to it
    does, in the shortest decimal that reads back as that float, and a
    timestamp prints in the ISO form with a blank. *)

Module Iso.

Definition digit (c : ascii) : option Z :=
  let n := nat_of_ascii c in
  if (48 <=? n)%nat && (n <=? 57)%nat then Some (Z.of_nat (n - 48)) else None.

Fixpoint digits (cs : list ascii) (acc : Z) : option Z :=
  match cs with
  | [] => Some acc
  | c :: cs' =>
      match digit c with
      | Some d => digits cs' (10 * acc + d)%Z
      | None => None
      end
  end.

Definition number (cs : list ascii) : option Z :=
  match cs with
  | [] => None
  | _ :: _ => digits cs 0%Z
  end.

(** Days from 1970-01-01 to the civil date [y]-[m]-[d]. *)
Definition days_from_civil (y m d : Z) : Z :=
  let y' := (if m <=? 2 then y - 1 else y)%Z in
  let era := (y' / 400)%Z in
  let yoe := (y' - era * 400)%Z in
  let mp := (if 2 <? m then m - 3 else m + 9)%Z in
  let doy := ((153 * mp + 2) / 5 + d - 1)%Z in
  let doe := (yoe * 365 + yoe / 4 - yoe / 100 + doy)%Z in
  (era * 146097 + doe - 719468)%Z.

(** The civil date [(y, m, d)] that is [z] days from 1970-01-01. *)
Definition civil_from_days (z : Z) : Z * Z * Z :=
  let z' := (z + 719468)%Z in
  let era := (z' / 146097)%Z in
  let doe := (z' - era * 146097)%Z in
  let yoe := ((doe - doe / 1460 + doe / 36524 - doe / 146096) / 365)%Z in
  let doy := (doe - (365 * yoe + yoe / 4 - yoe / 100))%Z in
  let mp := ((5 * doy + 2) / 153)%Z in
  let d := (doy - (153 * mp + 2) / 5 + 1)%Z in
  let m := (if mp <? 10 then mp + 3 else mp - 9)%Z in
  let y := (yoe + era * 400 + (if m <=? 2 then 1 else 0))%Z in
  (y, m, d).

Definition leap (y : Z) : bool :=
  ((y mod 4 =? 0) && negb (y mod 100 =? 0) || (y mod 400 =? 0))%Z.

Definition days_in_month (y m : Z) : Z :=
  if (m =? 2)%Z then (if leap y then 29 else 28)%Z
  else if ((m =? 4) || (m =? 6) || (m =? 9) || (m =? 11))%Z then 30%Z
  else 31%Z.

Definition second : Z := 1000000000.

(** The wall clock reading of a civil date and time, in nanoseconds. *)
Definition civil (y m d hh mm ss : Z) : Z :=
  ((days_from_civil y m d * 86400 + hh * 3600 + mm * 60 + ss) * second)%Z.

Definition is_char (c : ascii) (x : string) : bool :=
  String.eqb (String c EmptyString) x.

(** The zone suffix: none, [Z], or a signed [HH:MM]. *)
Definition zone_of (cs : list ascii) : option (option Z) :=
  match cs with
  | [] => Some None
  | [z] => if is_char z "Z" then Some (Some 0%Z) else None
  | [sg; h1; h2; colon; m1; m2] =>
      match number [h1; h2], number [m1; m2] with
      | Some h, Some m =>
          if is_char colon ":" && (h <? 24)%Z && (m <? 60)%Z then
            if is_char sg "+" then Some (Some ((h * 3600 + m * 60) * second)%Z)
            else if is_char sg "-"
                 then Some (Some (- ((h * 3600 + m * 60) * second))%Z)
                 else None
          else None
      | _, _ => None
      end
  | _ => None
  end.

(** The digits a list of characters starts with, and what follows them. *)
Fixpoint leading_digits (cs : list ascii) : list ascii * list ascii :=
  match cs with
  | c :: cs' =>
      match digit c with
      | Some _ => let (ds, rest) := leading_digits cs' in (c :: ds, rest)
      | None => ([], cs)
      end
  | [] => ([], [])
  end.

(** The decimals of a second, in nanoseconds, and what follows them. *)
Definition fraction_of (cs : list ascii) : option (Z * list ascii) :=
  match cs with
  | c :: cs' =>
      if is_char c "." then
        let (ds, rest) := leading_digits cs' in
        match number ds with
        | Some f =>
            if (List.length ds <=? 9)%nat
            then Some ((f * 10 ^ Z.of_nat (9 - List.length ds))%Z, rest)
            else None
        | None => None
        end
      else Some (0%Z, cs)
  | [] => Some (0%Z, [])
  end.

(** The time of day in nanoseconds, and what follows it. *)
Definition time_of (cs : list ascii) : option (Z * list ascii) :=
  match cs with
  | h1 :: h2 :: c1 :: m1 :: m2 :: rest =>
      match number [h1; h2], number [m1; m2] with
      | Some h, Some m =>
          if is_char c1 ":" && (h <? 24)%Z && (m <? 60)%Z then
            match rest with
            | c2 :: s1 :: s2 :: rest' =>
                if is_char c2 ":" then
                  match number [s1; s2], fraction_of rest' with
                  | Some s, Some (f, rest'') =>
                      if (s <? 60)%Z
                      then Some (((h * 3600 + m * 60 + s) * second + f)%Z,
                                 rest'')
                      else None
                  | _, _ => None
                  end
                else Some (((h * 3600 + m * 60) * second)%Z, rest)
            | _ => Some (((h * 3600 + m * 60) * second)%Z, rest)
            end
          else None
      | _, _ => None
      end
  | _ => None
  end.

Definition date_of (cs : list ascii) : option (Z * list ascii) :=
  match cs with
  | y1 :: y2 :: y3 :: y4 :: c1 :: m1 :: m2 :: c2 :: d1 :: d2 :: rest =>
      match number [y1; y2; y3; y4], number [m1; m2], number [d1; d2] with
      | Some y, Some m, Some d =>
          if is_char c1 "-" && is_char c2 "-" && (1 <=? y)%Z &&
             (1 <=? m)%Z && (m <=? 12)%Z &&
             (1 <=? d)%Z && (d <=? days_in_month y m)%Z
          then Some (days_from_civil y m d, rest)
          else None
      | _, _, _ => None
      end
  | _ => None
  end.

Definition make (days nanos : Z) (zone : option Z) : datetime :=
  {| wall := (days * 86400 * second + nanos)%Z; tzinfo := zone |}.

Definition parse (s : string) : option datetime :=
  match date_of (list_ascii_of_string s) with
  | None => None
  | Some (days, []) => Some (make days 0 None)
  | Some (days, sep :: rest) =>
      if is_char sep "T" || is_char sep " " then
        match time_of rest with
        | Some (nanos, rest') =>
            match zone_of rest' with
            | Some zone => Some (make days nanos zone)
            | None => None
            end
        | None => None
        end
      else None
  end.

(** [dateutil] keeps the microseconds of what it parses. *)
Definition microseconds (d : datetime) : datetime :=
  {| wall := (wall d - wall d mod 1000)%Z; tzinfo := tzinfo d |}.

(** A decimal numeral: an optional sign, digits with an optional point, an
    optional exponent. *)
Definition unsigned (cs : list ascii) : option Q :=
  let (whole, rest) := leading_digits cs in
  let (decimals, rest) :=
    match rest with
    | c :: rest' => if is_char c "." then leading_digits rest' else ([], rest)
    | [] => ([], [])
    end in
  match whole ++ decimals with
  | [] => None
  | ds =>
      match digits ds 0%Z with
      | None => None
      | Some n =>
          let scale := (- Z.of_nat (List.length decimals))%Z in
          let exponent :=
            match rest with
            | [] => Some 0%Z
            | e :: rest' =>
                if is_char e "e" || is_char e "E" then
                  match rest' with
                  | sg :: rest'' =>
                      if is_char sg "-" then option_map Z.opp (number rest'')
                      else if is_char sg "+" then number rest''
                      else number rest'
                  | [] => None
                  end
                else None
            end in
          match exponent with
          | Some x => Some (Qmult (inject_Z n) (Qpower 10 (scale + x)))
          | None => None
          end
      end
  end.

(** Blanks around a numeral are skipped. *)
Definition is_space (c : ascii) : bool :=
  let n := nat_of_ascii c in
  ((9 <=? n)%nat && (n <=? 13)%nat) || (n =? 32)%nat.

Fixpoint skip_spaces (cs : list ascii) : list ascii :=
  match cs with
  | c :: cs' => if is_space c then skip_spaces cs' else cs
  | [] => []
  end.

Definition trimmed (cs : list ascii) : list ascii :=
  rev (skip_spaces (rev (skip_spaces cs))).

Definition numeral (s : string) : option Q :=
  match trimmed (list_ascii_of_string s) with
  | c :: cs =>
      if is_char c "-" then option_map Qopp (unsigned cs)
      else if is_char c "+" then unsigned cs
      else unsigned (c :: cs)
  | [] => None
  end.

(** [n/d / b^e] as a fraction. *)
Definition scaled (b n d e : Z) : Z * Z :=
  if (0 <=? e)%Z then (n, (d * b ^ e)%Z) else ((n * b ^ (- e))%Z, d).

Definition round_half_even (n d : Z) : Z :=
  let q := (n / d)%Z in
  match (2 * (n mod d) ?= d)%Z with
  | Lt => q
  | Gt => (q + 1)%Z
  | Eq => if Z.even q then q else (q + 1)%Z
  end.

(** The float nearest to the positive rational [n/d], as [m * 2^e] with a
    mantissa of 53 bits, or of fewer bits at the least exponent. *)
Definition nearest_float (n d : Z) : Z * Z :=
  let e0 := (Z.log2 n - Z.log2 d - 52)%Z in
  let '(a, b) := scaled 2 n d e0 in
  let e := Z.max (if (a <? b * 2 ^ 52)%Z then e0 - 1 else e0)%Z (-1074) in
  let '(a, b) := scaled 2 n d e in
  let m := round_half_even a b in
  if (m =? 2 ^ 53)%Z then ((2 ^ 52)%Z, (e + 1)%Z) else (m, e).

Definition float_eqb (x y : Z * Z) : bool :=
  ((fst x =? fst y) && (snd x =? snd y))%Z.

(** [10^k <= n/d] *)
Definition pow10_le (k n d : Z) : bool :=
  let '(a, b) := scaled 10 n d k in (b <=? a)%Z.

Fixpoint log10_up (fuel : nat) (k n d : Z) : Z :=
  match fuel with
  | O => k
  | S fuel' =>
      if pow10_le (k + 1) n d then log10_up fuel' (k + 1)%Z n d else k
  end.

(** The exponent of the leading decimal digit of [n/d]. *)
Definition log10_floor (n d : Z) : Z :=
  log10_up 6 ((Z.log2 n - Z.log2 d - 1) * 1233 / 4096 - 2)%Z n d.

(** The two decimals [c * 10^p] of [nd] digits next to [n/d], the nearer
    first. *)
Definition decimals_near (n d nd : Z) : list (Z * Z) :=
  let p := (log10_floor n d - nd + 1)%Z in
  let '(a, b) := scaled 10 n d p in
  let lo := (a / b)%Z in
  match (2 * (a mod b) ?= b)%Z with
  | Lt => [(lo, p); ((lo + 1)%Z, p)]
  | Gt => [((lo + 1)%Z, p); (lo, p)]
  | Eq => if Z.even lo then [(lo, p); ((lo + 1)%Z, p)]
          else [((lo + 1)%Z, p); (lo, p)]
  end.

Definition reads_back (f : Z * Z) (c : Z * Z) : bool :=
  let '(a, b) := scaled 10 (fst c) 1 (- snd c) in
  float_eqb (nearest_float a b) f.

(** The shortest decimal that reads back as the float [f]: seventeen digits
    always do. *)
Fixpoint shortest (fuel : nat) (nd : Z) (f : Z * Z) : Z * Z :=
  let '(n, d) := scaled 2 (fst f) 1 (- snd f) in
  match fuel with
  | O => (fst f, 0%Z)
  | S fuel' =>
      match filter (reads_back f) (decimals_near n d nd) with
      | c :: _ => c
      | [] => shortest fuel' (nd + 1)%Z f
      end
  end.

Fixpoint strip_zeros (fuel : nat) (c p : Z) : Z * Z :=
  match fuel with
  | O => (c, p)
  | S fuel' =>
      if ((c mod 10 =? 0) && negb (c =? 0))%Z
      then strip_zeros fuel' (c / 10)%Z (p + 1)%Z else (c, p)
  end.

Definition digits_of (z : Z) : string :=
  NilZero.string_of_uint (N.to_uint (Z.to_N z)).

Fixpoint zeros (n : nat) : string :=
  match n with
  | O => EmptyString
  | S n' => String "0" (zeros n')
  end.

(** [z] in decimal, with zeros in front up to the width [w]. *)
Definition pad (w : nat) (z : Z) : string :=
  let s := digits_of z in (zeros (w - String.length s) ++ s)%string.

(** [repr] of a positive float from its shortest digits [ds * 10^p]: with an
    exponent when the point is more than sixteen digits to the right of the
    first digit or more than three zeros to its left. *)
Definition float_text (ds : string) (p : Z) : string :=
  let len := Z.of_nat (String.length ds) in
  let decpt := (len + p)%Z in
  if ((decpt <=? -4) || (16 <? decpt))%Z then
    let mantissa :=
      match ds with
      | String c EmptyString => ds
      | String c rest => String c (String "." rest)
      | EmptyString => ds
      end in
    let ex := (decpt - 1)%Z in
    let sign := if (ex <? 0)%Z then "-"%string else "+"%string in
    (mantissa ++ "e" ++ sign ++ pad 2 (Z.abs ex))%string
  else if (decpt <=? 0)%Z then
    ("0." ++ zeros (Z.to_nat (- decpt)) ++ ds)%string
  else if (len <=? decpt)%Z then
    (ds ++ zeros (Z.to_nat (decpt - len)) ++ ".0")%string
  else
    (substring 0 (Z.to_nat decpt) ds ++ "." ++
     substring (Z.to_nat decpt) (String.length ds - Z.to_nat decpt) ds)%string.

Definition positive_text (n d : Z) : string :=
  let f := nearest_float n d in
  if (971 <? snd f)%Z then "inf"%string
  else
    let '(c, p) := shortest 17 1 f in
    let '(c, p) := strip_zeros 400 c p in
    float_text (digits_of c) p.

(** [str] of a number, which is [repr] of the float. *)
Definition text (q : Q) : string :=
  let n := Qnum q in
  let d := Zpos (Qden q) in
  if (n =? 0)%Z then "0.0"%string
  else if (n <? 0)%Z then ("-" ++ positive_text (- n) d)%string
  else positive_text n d.

(** [str] of a timestamp: the date, a blank, the time with the decimals of
    a second it has, six or nine of them, and the offset of the zone. *)
Definition time_text (t : datetime) : string :=
  let secs := (wall t / second)%Z in
  let nanos := (wall t mod second)%Z in
  let '(y, m, d) := civil_from_days (secs / 86400) in
  let sod := (secs mod 86400)%Z in
  let decimals :=
    if (nanos =? 0)%Z then ""%string
    else if (nanos mod 1000 =? 0)%Z then ("." ++ pad 6 (nanos / 1000))%string
    else ("." ++ pad 9 nanos)%string in
  let zone :=
    match tzinfo t with
    | None => ""%string
    | Some off =>
        let s := (Z.abs off / second)%Z in
        let sign := if (off <? 0)%Z then "-"%string else "+"%string in
        let tail := if (s mod 60 =? 0)%Z then ""%string
                    else (":" ++ pad 2 (s mod 60))%string in
        (sign ++ pad 2 (s / 3600) ++ ":" ++ pad 2 (s mod 3600 / 60) ++ tail)%string
    end in
  (pad 4 y ++ "-" ++ pad 2 m ++ "-" ++ pad 2 d ++ " " ++
   pad 2 (sod / 3600) ++ ":" ++ pad 2 (sod mod 3600 / 60) ++ ":" ++
   pad 2 (sod mod 60) ++ decimals ++ zone)%string.

Definition zones : list (string * Z) :=
  [("Asia/Jakarta"%string, (7 * 3600 * second)%Z); ("UTC"%string, 0%Z)].

Fixpoint offset_in (table : list (string * Z)) (zone : string) : Z :=
  match table with
  | [] => 0%Z
  | (z, off) :: table' => if String.eqb z zone then off else offset_in table' zone
  end.

End Iso.

#[export] Instance iso_env : PyEnv := {|
  str_num := fun q => Ok (Iso.text q);
  str_time := fun t => Ok (Iso.time_text t);
  str_title := title;
  str_title_ascii := fun _ _ => eq_refl;
  to_numeric_str := Iso.numeral;
  to_datetime_str := Iso.parse;
  to_datetime_num := fun q => Some (naive (Qfloor q));
  dateutil_parse := fun s => match Iso.parse s with
                             | Some d => Ok (Iso.microseconds d)
                             | None => Raise ParserError
                             end;
  all_timezones := map fst Iso.zones;
  utcoffset := fun zone _ => Iso.offset_in Iso.zones zone
|}.


(* ------------------------------------------------------------------ *)
(** ** The two rules of the validator, as the specification words them *)

Section Rules.
Context {E : PyEnv}.

(** [tx] is not before [ref], as instants: the reading of a timestamp
    without zone is taken as UTC, as the localization takes it. *)
Definition not_before (tx ref : datetime) : Prop := (instant ref <= instant tx)%Z.

(** The text of the field [key] of a record. *)
Definition text_of (row : Series) (key : string) (s : string) : Prop :=
  py_str (get row key (VStr "")) = Ok s.

(** Rule A, rewarded success. *)
Definition Rule_A (row : Series) : Prop :=
  (exists q, get row "reward_value" VNull = VNum q /\ (0 < q)%Q) /\
  (exists s, text_of row "description" s /\ lower s = "berhasil"%string) /\
  get row "transaction_id" VNull <> VNull /\
  (exists s, text_of row "transaction_status" s /\ upper s = "PAID"%string) /\
  (exists s, text_of row "transaction_type" s /\ upper s = "NEW"%string) /\
  (exists tx ref,
      to_datetime (get row "transaction_at" VNull) = Some tx /\
      to_datetime (get row "referral_at" VNull) = Some ref /\
      not_before tx ref) /\
  get row "reward_granted_at" VNull <> VNull.

(** Rule B, pending or failed and unrewarded. *)
Definition Rule_B (row : Series) : Prop :=
  (exists s, text_of row "description" s /\
             (lower s = "menunggu"%string \/ lower s = "tidak berhasil"%string)) /\
  get row "reward_value" VNull = VNull.

End Rules.

(* ------------------------------------------------------------------ *)
(** ** Concrete records and tables *)

(** The record of the Rule A example, with its [transaction_at]. *)
Definition rewarded_record (transaction_at : string) : Series :=
  [("reward_value", VNum 50000); ("description", VStr "Berhasil");
   ("transaction_id", VStr "TX1"); ("transaction_status", VStr "paid");
   ("transaction_type", VStr "new");
   ("referral_at", VStr "2024-01-01T00:00Z");
   ("transaction_at", VStr transaction_at);
   ("reward_granted_at", VStr "2024-01-03T00:00Z")]%string.

(** The record of the Rule B example, with its [reward_value]. *)
Definition pending_record (reward_value : value) : Series :=
  [("description", VStr "Menunggu"); ("reward_value", reward_value)]%string.

(** A user table with one row. *)
Definition one_user : DataFrame :=
  {| columns := ["user_id"; "name"; "phone_number"; "homeclub"]%string;
     rows := [[VNum 7; VStr "john DOE"; VStr "0812"; VStr "jakarta pusat"]]%string |}.

(** A data directory that holds the user table and nothing else. *)
Definition users_only : directory :=
  fun name => if String.eqb name "user_logs.csv" then Some (Ok one_user) else None.

(** Two log rows of referral 1: the earlier says "berhasil", the later has
    no description. *)
Definition two_logs : DataFrame :=
  {| columns := ["user_referral_id"; "created_at"; "description"]%string;
     rows := [[VNum 1; VStr "2024-01-01T00:00:00Z"; VStr "berhasil"];
              [VNum 1; VStr "2024-01-02T00:00:00Z"; VNull]]%string |}.

(** A referral table with one row. *)
Definition one_referral : DataFrame :=
  {| columns := ["referral_id"; "referral_source"; "referral_at";
                 "referrer_id"; "referee_id"; "referral_reward_id";
                 "transaction_id"]%string;
     rows := [[VNum 1; VStr "app"; VStr "2024-01-01T00:00Z"; VNum 7; VNum 8;
               VNum 3; VStr "TX1"]]%string |}.

(** A reward table and a transaction table with one row each; the
    transaction is not the one of the referral. *)
Definition one_reward : DataFrame :=
  {| columns := ["id"; "reward_value"; "reward_granted_at"]%string;
     rows := [[VNum 3; VNum 50000; VStr "2024-01-03T00:00Z"]]%string |}.

Definition other_transaction : DataFrame :=
  {| columns := ["transaction_id"; "transaction_status"; "transaction_type";
                 "transaction_at"; "timezone_transaction"]%string;
     rows := [[VStr "TX9"; VStr "PAID"; VStr "NEW";
               VStr "2024-01-02T00:00Z"; VStr "Asia/Jakarta"]]%string |}.

(** The loaded tables when the referral file is missing and the log file
    is there. *)
Definition no_referrals : Tables :=
  {| paid_transactions := empty_frame;
     referral_rewards := empty_frame;
     user_logs := empty_frame;
     user_referral_logs := two_logs;
     user_referrals := empty_frame |}.

(** The loaded tables of a referral with a reward, a referrer, no log file
    and no matching transaction. *)
Definition unmatched_transaction : Tables :=
  {| paid_transactions := other_transaction;
     referral_rewards := one_reward;
     user_logs := one_user;
     user_referral_logs := empty_frame;
     user_referrals := one_referral |}.

(** A referral table whose one row has no transaction id, and the loaded
    tables of it with a reward, a referrer and a transaction. *)
Definition referral_without_transaction : DataFrame :=
  {| columns := ["referral_id"; "referral_source"; "referral_at";
                 "referrer_id"; "referee_id"; "referral_reward_id";
                 "transaction_id"]%string;
     rows := [[VNum 1; VStr "app"; VStr "2024-01-01T00:00Z"; VNum 7; VNum 8;
               VNum 3; VNull]]%string |}.

Definition null_transaction_id : Tables :=
  {| paid_transactions := other_transaction;
     referral_rewards := one_reward;
     user_logs := one_user;
     user_referral_logs := empty_frame;
     user_referrals := referral_without_transaction |}.

(** The loaded tables of one referral with its two log rows. *)
Definition referral_with_logs : Tables :=
  {| paid_transactions := empty_frame;
     referral_rewards := empty_frame;
     user_logs := empty_frame;
     user_referral_logs := two_logs;
     user_referrals := one_referral |}.

(* ------------------------------------------------------------------ *)
(** ** The profiler *)

(** [df[col]]: the cells under the label [col]. *)
Definition column_of (col : string) (df : DataFrame) : list value :=
  match index_of col (columns df) with
  | Some j => map (fun r => cell r j) (rows df)
  | None => []
  end.

(** [int(df[col].isnull().sum())] *)
Definition null_count (cells : list value) : nat :=
  List.length (filter isnull cells).

(** [int(df[col].nunique(dropna=True))] *)
Definition distinct_count (cells : list value) : nat :=
  List.length (distinct (filter notnull cells)).

Definition count_cell (n : nat) : value := VNum (inject_Z (Z.of_nat n)).

Definition profile_columns : list string :=
  ["table"; "column"; "null_count"; "distinct_count"]%string.

(** The record [profile_df] appends for the column [col]. *)
Definition profile_row (df : DataFrame) (name col : string) : list value :=
  [VStr name; VStr col; count_cell (null_count (column_of col df));
   count_cell (distinct_count (column_of col df))].

(** [profile_df]: a frame built from an empty list of records has no
    column. *)
Definition profile_df (df : DataFrame) (name : string) : DataFrame :=
  match columns df with
  | [] => empty_frame
  | _ :: _ => {| columns := profile_columns;
                 rows := map (profile_row df name) (columns df) |}
  end.

(** [pd.concat(frames, ignore_index=True)] of frames that carry the same
    labels: the rows one after the other. *)
Definition concat_frames (frames : list DataFrame) : DataFrame :=
  {| columns := match frames with
                | [] => []
                | f :: _ => columns f
                end;
     rows := flat_map rows frames |}.

(** The profiling loop: a profile for each table that is not empty. *)
Definition profiles (tables : list (DataFrame * string)) : list DataFrame :=
  map (fun p => profile_df (fst p) (snd p))
      (filter (fun p => negb (df_empty (fst p))) tables).

(** The profiling report; [None] when nothing is written. *)
Definition profiling_report (tables : list (DataFrame * string))
    : option DataFrame :=
  match profiles tables with
  | [] => None
  | ps => Some (concat_frames ps)
  end.

(* ------------------------------------------------------------------ *)
(** ** Validation and the final report *)

Section Report.
Context {E : PyEnv}.

(** [df.apply(check_valid, axis=1)]: the verdicts row by row; the first
    record on which [check_valid] raises ends the run. *)
Fixpoint apply_rows (cols : list string) (rs : list (list value))
    : result (list bool) :=
  match rs with
  | [] => Ok []
  | r :: rs' =>
      b <- check_valid (as_series cols r) ;;
      bs <- apply_rows cols rs' ;;
      Ok (b :: bs)
  end.

Definition apply_check_valid (df : DataFrame) : result (list bool) :=
  apply_rows (columns df) (rows df).

(** The columns of the report other than the verdict, which is always
    there. *)
Definition report_columns : list string :=
  ["referral_id"; "referral_source"; "referral_at"; "referrer_id";
   "referrer_name"; "referee_id"; "description"; "transaction_id";
   "transaction_status"; "transaction_at"; "reward_value";
   "reward_granted_at"]%string.

(** [[c for c in cols if c in df.columns]], the verdict aside. *)
Definition final_columns (df : DataFrame) : list string :=
  filter (fun c => has_column c df) report_columns.

(** The final report: the projected frame, and the verdict column
    [is_business_logic_valid], which is its last column. *)
Definition final_report (df : DataFrame) : result (DataFrame * list bool) :=
  verdicts <- apply_check_valid df ;;
  final <- select (final_columns df) df ;;
  Ok (final, verdicts).

(** The script from the loaded tables to the final report. *)
Definition run (t : Tables) : result (DataFrame * list bool) :=
  df <- reconcile (data_cleaning t) ;;
  final_report df.

(** What the initcap loop over the labels [cs] makes of a row. *)
Fixpoint capitalized_row (cs cols : list string) (r : list value)
    : list value :=
  match cols, r with
  | c :: cols', v :: r' =>
      (if mem c cs && is_name_column c then safe_initcap v else v)
      :: capitalized_row cs cols' r'
  | _, _ => r
  end.

End Report.

(** A cell that is missing or an ASCII text; a frame that holds such cells
    under its name labels. *)
Definition ascii_cell (v : value) : bool :=
  match v with
  | VNull => true
  | VStr s => ascii_text s
  | _ => false
  end.

Definition ascii_names (df : DataFrame) : Prop :=
  forall r j c v,
    In r (rows df) -> nth_error (columns df) j = Some c ->
    is_name_column c = true -> nth_error r j = Some v -> ascii_cell v = true.

(** The two timestamps can be compared: one is missing, or both carry a
    zone, or none does. *)
Definition comparable (a b : option datetime) : Prop :=
  match a, b with
  | Some x, Some y => tzinfo x = None <-> tzinfo y = None
  | _, _ => True
  end.

(** The frame of one record. *)
Definition frame_of (row : Series) : DataFrame :=
  {| columns := map fst row; rows := [map snd row] |}.

(** The number of right rows with the key of the left row [l]. *)
Definition partners (i j : nat) (right_rows : list (list value))
    (l : list value) : nat :=
  List.length (filter (fun r => value_eqb (cell l i) (cell r j)) right_rows).


(* ================================================================== *)
(** * Properties *)

(* ------------------------------------------------------------------ *)
(** ** The validator *)

Lemma and_then_true (a b : result bool) :
  a &> b = Ok true <-> a = Ok true /\ b = Ok true.
Proof.
  destruct a as [[|]|e]; simpl; split; intros H;
    try discriminate; try (destruct H; discriminate); auto; tauto.
Qed.

Lemma Ok_inj {A : Type} (x y : A) : Ok x = Ok y <-> x = y.
Proof. split; [intros H; injection H; auto | intros ->; reflexivity]. Qed.

Lemma notnull_true (v : value) : notnull v = true <-> v <> VNull.
Proof. unfold notnull. destruct v; simpl; split; intros H; congruence. Qed.

Lemma isnull_true (v : value) : isnull v = true <-> v = VNull.
Proof. destruct v; simpl; split; intros H; congruence. Qed.

Lemma gt_zero_true (v : value) :
  gt_zero v = Ok true <-> exists q, v = VNum q /\ (0 < q)%Q.
Proof.
  destruct v as [|q|s|t]; simpl; split; intros H;
    try discriminate; try (destruct H as (q' & Hq & _); discriminate).
  - exists q. split; [reflexivity|].
    apply Ok_inj, negb_true_iff in H.
    apply Qnot_le_lt. intros Hle. apply Qle_bool_iff in Hle. congruence.
  - destruct H as (q' & Hq & Hlt). injection Hq as <-.
    apply Ok_inj, negb_true_iff.
    destruct (Qle_bool q 0) eqn:Hle; [|reflexivity].
    apply Qle_bool_iff in Hle. exfalso. exact (Qlt_not_le _ _ Hlt Hle).
Qed.

Lemma ts_ge_true (a b : datetime) :
  ts_ge a b = Ok true <->
  not_before a b /\ (tzinfo a = None <-> tzinfo b = None).
Proof.
  unfold ts_ge, not_before, instant.
  destruct (tzinfo a), (tzinfo b); rewrite ?Ok_inj, ?Z.leb_le; split;
    try (intros H; split; [exact H|split; congruence]);
    try (intros [H _]; exact H);
    try discriminate;
    intros [_ [H1 H2]]; exfalso;
    first [specialize (H1 eq_refl)|specialize (H2 eq_refl)]; discriminate.
Qed.

Lemma time_ge_true (a b : option datetime) :
  is_some a = true /\ is_some b = true /\ time_ge a b = Ok true <->
  exists x y, a = Some x /\ b = Some y /\ not_before x y /\
              (tzinfo x = None <-> tzinfo y = None).
Proof.
  destruct a as [x|], b as [y|]; simpl; split; intros H;
    try (destruct H as (? & ? & ?); discriminate);
    try (destruct H as (? & ? & ? & ? & ?); discriminate).
  - destruct H as (_ & _ & H). apply ts_ge_true in H. exists x, y. tauto.
  - destruct H as (x' & y' & Hx & Hy & Hn).
    injection Hx as <-. injection Hy as <-.
    split; [reflexivity|]. split; [reflexivity|]. now apply ts_ge_true.
Qed.

Section ValidatorFacts.
Context {E : PyEnv}.

(** The locals, read back from the record. *)
Lemma read_locals_Ok (row : Series) (l : locals) :
  read_locals row = Ok l <->
  exists s ts tt,
    text_of row "description" s /\
    text_of row "transaction_status" ts /\
    text_of row "transaction_type" tt /\
    l = {| reward_val := get row "reward_value" VNull;
           status := lower s; tx_status := upper ts; tx_type := upper tt;
           tx_id := get row "transaction_id" VNull;
           ref_time := to_datetime (get row "referral_at" VNull);
           tx_time := to_datetime (get row "transaction_at" VNull);
           reward_granted := notnull (get row "reward_granted_at" VNull) |}.
Proof.
  unfold read_locals, text_of, bind. split.
  - destruct (py_str (get row "description" _)) as [s|]; [|discriminate].
    destruct (py_str (get row "transaction_status" _)) as [ts|]; [|discriminate].
    destruct (py_str (get row "transaction_type" _)) as [tt|]; [|discriminate].
    intros H. injection H as <-. exists s, ts, tt. repeat split.
  - intros (s & ts & tt & -> & -> & -> & ->). reflexivity.
Qed.

(** The first test holds exactly on the records of Rule A whose two
    timestamps both carry a zone or both carry none. *)
Lemma valid_1_Rule_A (row : Series) :
  (exists l, read_locals row = Ok l /\ valid_1 l = Ok true) <->
  Rule_A row /\
  comparable (to_datetime (get row "transaction_at" VNull))
             (to_datetime (get row "referral_at" VNull)).
Proof.
  unfold Rule_A. split.
  - intros (l & Hl & Hv). apply read_locals_Ok in Hl.
    destruct Hl as (s & ts & tt & Hs & Hts & Htt & ->).
    unfold valid_1 in Hv. cbn [reward_val status tx_status tx_type tx_id
      ref_time tx_time reward_granted] in Hv.
    repeat (apply and_then_true in Hv; destruct Hv as [? Hv]).
    repeat match goal with H : Ok _ = Ok true |- _ => injection H as H end.
    assert (Ht : exists x y,
               to_datetime (get row "transaction_at" VNull) = Some x /\
               to_datetime (get row "referral_at" VNull) = Some y /\
               not_before x y /\ (tzinfo x = None <-> tzinfo y = None))
      by (apply time_ge_true; auto).
    destruct Ht as (x & y & Hx & Hy & Hn & Hz).
    split; [|rewrite Hx, Hy; exact Hz].
    refine (conj _ (conj _ (conj _ (conj _ (conj _ (conj _ _)))))).
    + now apply gt_zero_true.
    + exists s. split; [assumption|]. now apply String.eqb_eq.
    + now apply notnull_true.
    + exists ts. split; [assumption|]. now apply String.eqb_eq.
    + exists tt. split; [assumption|]. now apply String.eqb_eq.
    + exists x, y. auto.
    + now apply notnull_true.
  - intros [(Hr & (s & Hs & Hls) & Hid & (ts & Hts & Huts) & (tt & Htt & Hutt)
             & (x & y & Hx & Hy & Hn) & Hg) Hc].
    rewrite Hx, Hy in Hc. simpl in Hc.
    eexists. split.
    + apply read_locals_Ok. exists s, ts, tt. repeat split; eassumption.
    + unfold valid_1. cbn [reward_val status tx_status tx_type tx_id
        ref_time tx_time reward_granted].
      assert (Htime : is_some (to_datetime (get row "transaction_at" VNull))
                        = true /\
                      is_some (to_datetime (get row "referral_at" VNull))
                        = true /\
                      time_ge (to_datetime (get row "transaction_at" VNull))
                              (to_datetime (get row "referral_at" VNull))
                        = Ok true)
        by (apply time_ge_true; exists x, y; auto).
      destruct Htime as (H1 & H2 & H3).
      pose proof Hr as Hr'. apply gt_zero_true in Hr'.
      destruct Hr as (q & Hq & _).
      repeat (apply and_then_true; split); rewrite ?Ok_inj;
        try assumption.
      * rewrite Hq. reflexivity.
      * now apply String.eqb_eq.
      * now apply notnull_true.
      * now apply String.eqb_eq.
      * now apply String.eqb_eq.
      * now apply notnull_true.
Qed.

(** On a record of Rule A whose two timestamps differ in carrying a zone the
    first test raises at their comparison. *)
Lemma valid_1_zone_mismatch (row : Series) :
  Rule_A row ->
  ~ comparable (to_datetime (get row "transaction_at" VNull))
               (to_datetime (get row "referral_at" VNull)) ->
  check_valid row = Raise TypeError.
Proof.
  intros (Hr & (s & Hs & Hls) & Hid & (ts & Hts & Huts) & (tt & Htt & Hutt)
          & (x & y & Hx & Hy & Hn) & Hg) Hc.
  rewrite Hx, Hy in Hc. simpl in Hc.
  assert (Hl : read_locals row =
               Ok {| reward_val := get row "reward_value" VNull;
                     status := lower s; tx_status := upper ts;
                     tx_type := upper tt;
                     tx_id := get row "transaction_id" VNull;
                     ref_time := to_datetime (get row "referral_at" VNull);
                     tx_time := to_datetime (get row "transaction_at" VNull);
                     reward_granted :=
                       notnull (get row "reward_granted_at" VNull) |}).
  { apply read_locals_Ok. exists s, ts, tt. repeat split; assumption. }
  unfold check_valid. rewrite Hl. cbn [bind]. unfold valid_1.
  cbn [reward_val status tx_status tx_type tx_id ref_time tx_time
       reward_granted].
  destruct Hr as (q & Hq & Hpos).
  assert (Hgt : gt_zero (get row "reward_value" VNull) = Ok true)
    by (apply gt_zero_true; eauto).
  apply notnull_true in Hid. apply String.eqb_eq in Hls, Huts, Hutt.
  rewrite Hq in *. rewrite Hgt, Hls, Hid, Huts, Hutt, Hx, Hy.
  cbn [notnull isnull negb and_then is_some time_ge]. unfold ts_ge.
  destruct (tzinfo x), (tzinfo y); try reflexivity; exfalso; apply Hc;
    split; congruence.
Qed.

(** The second test holds exactly on the records of Rule B. *)
Lemma valid_2_Rule_B (row : Series) (l : locals) :
  read_locals row = Ok l -> (valid_2 l = true <-> Rule_B row).
Proof.
  intros Hl. apply read_locals_Ok in Hl.
  destruct Hl as (s & ts & tt & Hs & Hts & Htt & ->).
  unfold valid_2, Rule_B, mem. cbn [status reward_val existsb].
  rewrite andb_true_iff, !orb_true_iff, !String.eqb_eq, isnull_true.
  split.
  - intros [[H|[H|H]] Hn]; [| |discriminate]; (split; [exists s|]; auto).
  - intros [(s' & Hs' & H) Hn]. unfold text_of in *.
    rewrite Hs in Hs'. injection Hs' as <-. tauto.
Qed.

(** The two tests never hold together. *)
Lemma valid_1_valid_2_exclusive (l : locals) :
  valid_2 l = true -> valid_1 l = Ok false.
Proof.
  unfold valid_2, valid_1. intros H.
  apply andb_true_iff in H. destruct H as [_ H].
  unfold notnull. rewrite H. reflexivity.
Qed.

(** Where the first test is settled and fails, the verdict is the second
    test. *)
Lemma check_valid_second_test (row : Series) (l : locals) :
  read_locals row = Ok l -> valid_1 l = Ok false ->
  check_valid row = Ok (valid_2 l).
Proof.
  intros Hl Hv. unfold check_valid. rewrite Hl. simpl. rewrite Hv. simpl.
  destruct (valid_2 l); reflexivity.
Qed.

End ValidatorFacts.

(** C1. The first test of the validator holds on records of Rule A only,
    and a record of Rule A whose two timestamps both carry a zone, or both
    carry none, is valid: so are the two records of the example judged, the
    second one invalid.  But on a record of Rule A whose two timestamps
    differ in carrying a zone the validator raises instead of returning
    true: the record of the example with its transaction written
    2024-01-02T00:00, a day after the referral, meets every condition of
    Rule A and gets no verdict. *)
Theorem rule_A_zone_mismatch_raises :
  (forall (E : PyEnv) (row : Series),
      (exists l, read_locals row = Ok l /\ valid_1 l = Ok true) -> Rule_A row) /\
  (forall (E : PyEnv) (row : Series),
      Rule_A row ->
      comparable (to_datetime (get row "transaction_at" VNull))
                 (to_datetime (get row "referral_at" VNull)) ->
      check_valid row = Ok true) /\
  (forall (E : PyEnv) (row : Series),
      Rule_A row ->
      ~ comparable (to_datetime (get row "transaction_at" VNull))
                   (to_datetime (get row "referral_at" VNull)) ->
      check_valid row = Raise TypeError) /\
  check_valid (rewarded_record "2024-01-02T00:00Z") = Ok true /\
  check_valid (rewarded_record "2023-12-31T00:00Z") = Ok false /\
  Rule_A (rewarded_record "2024-01-02T00:00") /\
  check_valid (rewarded_record "2024-01-02T00:00") = Raise TypeError.
Proof.
  split; [|split; [|split; [|split; [|split; [|split]]]]].
  - intros E row H. now apply valid_1_Rule_A in H.
  - intros E row HA Hc.
    destruct (proj2 (valid_1_Rule_A row) (conj HA Hc)) as (l & Hl & Hv).
    unfold check_valid. rewrite Hl. simpl. rewrite Hv. reflexivity.
  - intros E row. apply valid_1_zone_mismatch.
  - vm_compute. reflexivity.
  - vm_compute. reflexivity.
  - unfold Rule_A, text_of.
    refine (conj _ (conj _ (conj _ (conj _ (conj _ (conj _ _)))))).
    + exists 50000%Q. split; reflexivity.
    + eexists. split; reflexivity.
    + discriminate.
    + eexists. split; reflexivity.
    + eexists. split; reflexivity.
    + do 2 eexists. split; [reflexivity|]. split; [reflexivity|].
      vm_compute. discriminate.
    + discriminate.
  - vm_compute. reflexivity.
Qed.

(** C10. No record passes both tests of the validator, nor satisfies both
    rules: Rule A wants a reward value above zero and Rule B wants none.
    The validator that tries the second test first returns what the
    validator returns, on every record. *)
Theorem rules_exclusive_order_free :
  (forall (E : PyEnv) (row : Series), ~ (Rule_A row /\ Rule_B row)) /\
  (forall (E : PyEnv) (l : locals), ~ (valid_1 l = Ok true /\ valid_2 l = true)) /\
  (forall (E : PyEnv) (row : Series), check_valid_swapped row = check_valid row).
Proof.
  split; [|split].
  - intros E row [HA HB]. destruct HA as ((q & Hq & _) & _).
    destruct HB as (_ & Hn). congruence.
  - intros E l [H1 H2]. apply valid_1_valid_2_exclusive in H2. congruence.
  - intros E row. unfold check_valid_swapped, check_valid, bind.
    destruct (read_locals row) as [l|e]; [|reflexivity].
    destruct (valid_2 l) eqn:H2.
    + rewrite (valid_1_valid_2_exclusive l H2). reflexivity.
    + destruct (valid_1 l) as [[|]|]; reflexivity.
Qed.

(** Where the locals are read and the first test is settled and fails, the
    validator returns true exactly on the records of Rule B, and false on
    every other record; the pending record without a reward is valid, the
    one with a reward of 100 is not. *)
Lemma rule_B_exact :
  (forall (E : PyEnv) (row : Series) (l : locals),
      read_locals row = Ok l -> valid_1 l = Ok false ->
      (check_valid row = Ok true <-> Rule_B row) /\
      (~ Rule_B row -> check_valid row = Ok false)) /\
  check_valid (pending_record VNull) = Ok true /\
  check_valid (pending_record (VNum 100)) = Ok false.
Proof.
  split; [|split; vm_compute; reflexivity].
  intros E row l Hl Hv.
  rewrite (check_valid_second_test row l Hl Hv).
  pose proof (valid_2_Rule_B row l Hl) as HB.
  destruct (valid_2 l); split.
  - tauto.
  - intros Hn. exfalso. apply Hn, HB. reflexivity.
  - split; [discriminate|]. intros H. apply HB in H. discriminate.
  - reflexivity.
Qed.

(** C4. The record of the Rule A example with its transaction on
    2023-12-31 and written without zone, next to a referral time written
    with one, satisfies neither rule, and the validator raises on it instead
    of returning false. *)
Theorem check_valid_mixed_zones_raises :
  ~ Rule_A (rewarded_record "2023-12-31T00:00") /\
  ~ Rule_B (rewarded_record "2023-12-31T00:00") /\
  check_valid (rewarded_record "2023-12-31T00:00") = Raise TypeError.
Proof.
  split; [|split].
  - intros (_ & _ & _ & _ & _ & (x & y & Hx & Hy & Hn) & _).
    vm_compute in Hx, Hy. injection Hx as <-. injection Hy as <-.
    vm_compute in Hn. now apply Hn.
  - intros (_ & H). vm_compute in H. discriminate.
  - vm_compute. reflexivity.
Qed.

(* ------------------------------------------------------------------ *)
(** ** Timestamp localization *)

Lemma mem_In (x : string) (l : list string) : mem x l = true <-> In x l.
Proof.
  unfold mem. rewrite existsb_exists. split.
  - intros (y & Hy & Heq). apply String.eqb_eq in Heq. now subst.
  - intros H. exists x. split; [assumption|apply String.eqb_refl].
Qed.

Lemma recognized_Some {E : PyEnv} (zone : string) :
  zone <> ""%string -> In zone all_timezones ->
  recognized (VStr zone) = Some zone.
Proof.
  intros Hne Hin. unfold recognized.
  apply String.eqb_neq in Hne. apply mem_In in Hin.
  rewrite Hne, Hin. reflexivity.
Qed.

Lemma recognized_None {E : PyEnv} (tz : value) :
  (forall zone, tz = VStr zone -> ~ In zone all_timezones) ->
  recognized tz = None.
Proof.
  intros H. destruct tz as [| |zone|]; try reflexivity. simpl.
  destruct (mem zone all_timezones) eqn:Hm.
  - apply mem_In in Hm. exfalso. exact (H zone eq_refl Hm).
  - rewrite andb_false_r. reflexivity.
Qed.

(** C6. [utc_to_local] parses the text of the timestamp and takes a result
    without zone as UTC.  With a zone name of the zone list it returns the
    local wall clock of that instant in the zone, without zone, as long as
    the instant and its local time lie in the years 1 to 9999 of [datetime],
    and a missing value when one of them does not; with any other zone name
    it returns the parsed timestamp, whose instant is the parsed one; when
    the text does not parse, or the timestamp is missing, it returns a
    missing value.  It is a total function: it never raises.  10:00 UTC on
    2024-06-01 in Asia/Jakarta is 17:00 without zone.  The derived column
    holds this value for every row of the transactions. *)
Theorem utc_to_local_spec :
  (forall (E : PyEnv) (ts tz : value) (s : string) (dt : datetime),
      ts <> VNull -> py_str ts = Ok s -> dateutil_parse s = Ok dt ->
      (forall zone, tz = VStr zone -> zone <> ""%string ->
                    In zone all_timezones ->
         utc_to_local ts tz =
         if in_range (instant (assume_utc dt)) &&
            in_range (instant (assume_utc dt)
                      + utcoffset zone (instant (assume_utc dt)))
         then VTime (naive (instant (assume_utc dt)
                            + utcoffset zone (instant (assume_utc dt))))
         else VNull) /\
      ((forall zone, tz = VStr zone -> ~ In zone all_timezones) ->
         utc_to_local ts tz = VTime (assume_utc dt))) /\
  (forall (E : PyEnv) (dt : datetime),
      instant (assume_utc dt) =
      (wall dt - match tzinfo dt with Some off => off | None => 0 end)%Z) /\
  (datetime_min = Iso.civil 1 1 1 0 0 0 /\
   datetime_max = (Iso.civil 9999 12 31 23 59 59 + 999999000)%Z) /\
  (forall (E : PyEnv) (ts tz : value),
      (forall s, py_str ts = Ok s -> exists e, dateutil_parse s = Raise e) ->
      utc_to_local ts tz = VNull) /\
  (forall (E : PyEnv) (tz : value), utc_to_local VNull tz = VNull) /\
  utc_to_local (VStr "2024-06-01T10:00:00Z") (VStr "Asia/Jakarta") =
    VTime (naive (Iso.civil 2024 6 1 17 0 0)) /\
  (forall (E : PyEnv) (df : DataFrame),
      has_column "transaction_at" df = true ->
      has_column "timezone_transaction" df = true ->
      index_of "transaction_at_local" (columns df) = None ->
      columns (localize_transactions df) =
        columns df ++ ["transaction_at_local"%string] /\
      rows (localize_transactions df) =
        map (fun r =>
               r ++ [utc_to_local
                       (get (as_series (columns df) r) "transaction_at" VNull)
                       (get (as_series (columns df) r) "timezone_transaction"
                            VNull)])
            (rows df)).
Proof.
  split; [|split; [|split; [|split; [|split; [|split]]]]].
  - intros E ts tz s dt Hts Hs Hdt.
    assert (Hnull : isnull ts = false) by (destruct ts; simpl; congruence).
    split.
    + intros zone -> Hne Hin.
      unfold utc_to_local, utc_to_local_body, astimezone, bind.
      rewrite Hnull, Hs, Hdt, (recognized_Some zone Hne Hin).
      destruct (in_range _ && in_range _); reflexivity.
    + intros Hun. unfold utc_to_local, utc_to_local_body, bind.
      rewrite Hnull, Hs, Hdt, (recognized_None tz Hun). reflexivity.
  - intros E dt. unfold assume_utc, instant.
    destruct dt as [w [off|]]; simpl; lia.
  - split; vm_compute; reflexivity.
  - intros E ts tz H. unfold utc_to_local, utc_to_local_body, bind.
    destruct (isnull ts); [reflexivity|].
    destruct (py_str ts) as [s|]; [|reflexivity].
    destruct (H s eq_refl) as (e & ->). reflexivity.
  - reflexivity.
  - vm_compute. reflexivity.
  - intros E df H1 H2 H3. unfold localize_transactions, assign.
    rewrite H1, H2, H3. simpl. split; reflexivity.
Qed.

(** The example of C6, from its general statement: the text parses to an
    aware timestamp, the zone is on the list, and both readings lie in the
    range of [datetime]. *)
Lemma utc_to_local_spec_witness :
  utc_to_local (VStr "2024-06-01T10:00:00Z") (VStr "Asia/Jakarta") =
  VTime (naive (Iso.civil 2024 6 1 10 0 0 + 7 * 3600 * Iso.second)).
Proof.
  refine (eq_trans
            (proj1 (proj1 utc_to_local_spec iso_env
                      (VStr "2024-06-01T10:00:00Z") (VStr "Asia/Jakarta")
                      "2024-06-01T10:00:00Z"%string
                      {| wall := Iso.civil 2024 6 1 10 0 0;
                         tzinfo := Some 0%Z |}
                      _ eq_refl eq_refl)
                   "Asia/Jakarta"%string eq_refl _ _) _).
  - discriminate.
  - discriminate.
  - left. reflexivity.
  - reflexivity.
Defined.

(** Against C6 as it is worded: 23:00 UTC on the last day of the year 9999
    parses, Asia/Jakarta is a zone of the list, and the local time, 06:00 on
    the first day of the year 10000, is no [datetime]: [astimezone] raises,
    and [utc_to_local] returns a missing value, not the converted instant. *)
Lemma utc_to_local_year_9999 :
  dateutil_parse "9999-12-31T23:00:00Z" =
    Ok {| wall := Iso.civil 9999 12 31 23 0 0; tzinfo := Some 0%Z |} /\
  recognized (VStr "Asia/Jakarta") = Some "Asia/Jakarta"%string /\
  astimezone {| wall := Iso.civil 9999 12 31 23 0 0; tzinfo := Some 0%Z |}
             "Asia/Jakarta" = Raise OverflowError /\
  utc_to_local (VStr "9999-12-31T23:00:00Z") (VStr "Asia/Jakarta") = VNull.
Proof. repeat split; vm_compute; reflexivity. Qed.

(* ------------------------------------------------------------------ *)
(** ** The table loader *)

Section Loader.
Variable data_dir : directory.

Lemma read_csv_missing (name : string) :
  data_dir name = None ->
  read_csv data_dir name = (("⚠️ Missing: " ++ name)%string, Ok empty_frame).
Proof. intros H. unfold read_csv. rewrite H. reflexivity. Qed.

Lemma read_csv_present (name : string) (parsed : result DataFrame) :
  data_dir name = Some parsed ->
  read_csv data_dir name = (("✅ Reading " ++ name)%string, parsed).
Proof. intros H. unfold read_csv. rewrite H. reflexivity. Qed.

(** A load of several tables fails only on a file that is there. *)
Lemma load_tables_Raise (names : list string) (e : exn) :
  snd (load_tables data_dir names) = Raise e ->
  exists name, In name names /\ data_dir name = Some (Raise e).
Proof.
  induction names as [|name names IH]; simpl; [discriminate|].
  unfold read_csv. destruct (data_dir name) as [[df|e']|] eqn:Hd.
  - destruct (load_tables data_dir names) as [lines [dfs|e'']]; simpl in *;
      [discriminate|].
    intros H. destruct (IH H) as (n & Hn & Hr). exists n. auto.
  - simpl. intros H. injection H as ->. exists name. auto.
  - destruct (load_tables data_dir names) as [lines [dfs|e'']]; simpl in *;
      [discriminate|].
    intros H. destruct (IH H) as (n & Hn & Hr). exists n. auto.
Qed.

(** With every file that is there readable, all tables are loaded, one line
    is printed per table, and a table without file is the empty frame. *)
Lemma load_tables_Ok (names : list string) :
  (forall name e, In name names -> data_dir name <> Some (Raise e)) ->
  exists dfs,
    load_tables data_dir names =
      (map (fun n => fst (read_csv data_dir n)) names, Ok dfs) /\
    List.length dfs = List.length names /\
    forall i name, nth_error names i = Some name ->
      nth_error dfs i =
      Some (match data_dir name with
            | Some (Ok df) => df
            | _ => empty_frame
            end).
Proof.
  induction names as [|name names IH]; intros Hok.
  - exists []. repeat split. intros [|i] n H; discriminate.
  - destruct IH as (dfs & Hl & Hlen & Hnth).
    { intros n e Hn. apply Hok. now right. }
    simpl. rewrite Hl. unfold read_csv at 1.
    destruct (data_dir name) as [[df|e]|] eqn:Hd.
    + exists (df :: dfs). rewrite (read_csv_present _ _ Hd).
      repeat split; [simpl; congruence|].
      intros [|i] n H; simpl in *; [injection H as <-; now rewrite Hd|auto].
    + exfalso. apply (Hok name e); [now left|assumption].
    + exists (empty_frame :: dfs). rewrite (read_csv_missing _ Hd).
      repeat split; [simpl; congruence|].
      intros [|i] n H; simpl in *; [injection H as <-; now rewrite Hd|auto].
Qed.

End Loader.

(** C8. For a table name without file, [read_csv] prints the warning and
    returns the empty frame, which has no row and no column; for a name with
    a file it returns what the file holds.  A run of loads is stopped only by
    a file that is there and cannot be read: with readable files every table
    of the list is loaded, a line is printed for each, and the table of a
    name without file is the empty frame. *)
Theorem read_csv_tolerates_absence :
  forall (data_dir : directory),
    (forall name, data_dir name = None ->
       read_csv data_dir name =
         (("⚠️ Missing: " ++ name)%string, Ok empty_frame)) /\
    (rows empty_frame = [] /\ columns empty_frame = []) /\
    (forall name parsed, data_dir name = Some parsed ->
       read_csv data_dir name = (("✅ Reading " ++ name)%string, parsed)) /\
    (forall names e, snd (load_tables data_dir names) = Raise e ->
       exists name, In name names /\ data_dir name = Some (Raise e)) /\
    (forall names,
       (forall name e, In name names -> data_dir name <> Some (Raise e)) ->
       exists dfs,
         load_tables data_dir names =
           (map (fun n => fst (read_csv data_dir n)) names, Ok dfs) /\
         List.length dfs = List.length names /\
         forall i name, nth_error names i = Some name ->
           data_dir name = None -> nth_error dfs i = Some empty_frame).
Proof.
  intros data_dir. split; [|split; [|split; [|split]]].
  - apply read_csv_missing.
  - split; reflexivity.
  - apply read_csv_present.
  - apply load_tables_Raise.
  - intros names Hok. destruct (load_tables_Ok data_dir names Hok)
      as (dfs & Hl & Hlen & Hnth).
    exists dfs. repeat split; try assumption.
    intros i name Hi Hnone. rewrite (Hnth i name Hi), Hnone. reflexivity.
Qed.

(** C8 at a directory that holds one table: the referral table has no file,
    a warning is printed and the empty frame is returned. *)
Lemma read_csv_tolerates_absence_witness :
  read_csv users_only "user_referrals.csv" =
    ("⚠️ Missing: user_referrals.csv"%string, Ok empty_frame).
Proof.
  exact (proj1 (read_csv_tolerates_absence users_only)
               "user_referrals.csv"%string eq_refl).
Defined.

(* ------------------------------------------------------------------ *)
(** ** Data cleaning *)

(** C9. Each of the three cleaning steps rewrites its own tables from
    themselves alone (capitalization the referral and user tables, coercion
    the reward table, localization the transaction table) and leaves the
    tables of the other two as they are; the six orders of the three steps
    give the same tables. *)
Theorem cleaning_order_insensitive :
  forall (E : PyEnv) (t : Tables),
    (user_referrals (clean_names t) = initcap_names (user_referrals t) /\
     user_logs (clean_names t) = initcap_names (user_logs t) /\
     referral_rewards (clean_names t) = referral_rewards t /\
     paid_transactions (clean_names t) = paid_transactions t) /\
    (referral_rewards (clean_rewards t) = coerce_rewards (referral_rewards t) /\
     user_referrals (clean_rewards t) = user_referrals t /\
     user_logs (clean_rewards t) = user_logs t /\
     paid_transactions (clean_rewards t) = paid_transactions t) /\
    (paid_transactions (clean_transactions t) =
       localize_transactions (paid_transactions t) /\
     user_referrals (clean_transactions t) = user_referrals t /\
     user_logs (clean_transactions t) = user_logs t /\
     referral_rewards (clean_transactions t) = referral_rewards t) /\
    clean_transactions (clean_rewards (clean_names t)) = data_cleaning t /\
    clean_rewards (clean_transactions (clean_names t)) = data_cleaning t /\
    clean_transactions (clean_names (clean_rewards t)) = data_cleaning t /\
    clean_names (clean_transactions (clean_rewards t)) = data_cleaning t /\
    clean_rewards (clean_names (clean_transactions t)) = data_cleaning t /\
    clean_names (clean_rewards (clean_transactions t)) = data_cleaning t.
Proof.
  intros E t. repeat split; reflexivity.
Qed.

(* ------------------------------------------------------------------ *)
(** ** Name capitalization *)

Lemma apply_in_row_nth (f : value -> value) (col : string) :
  forall (cols : list string) (r : list value) (j : nat) (c : string) (v : value),
    nth_error cols j = Some c -> nth_error r j = Some v ->
    nth_error (apply_in_row f col cols r) j =
    Some (if String.eqb c col then f v else v).
Proof.
  induction cols as [|c0 cols IH]; intros r j c v Hc Hv.
  - destruct j; discriminate.
  - destruct r as [|v0 r]; [destruct j; discriminate|].
    destruct j as [|j]; simpl in *.
    + injection Hc as <-. injection Hv as <-. reflexivity.
    + now apply IH.
Qed.

Section Initcap.
Context {E : PyEnv}.

Lemma initcap_fold (cs : list string) :
  forall df,
    columns (fold_left initcap_step cs df) = columns df /\
    rows (fold_left initcap_step cs df) =
      map (fun r => fold_left (initcap_row_step (columns df)) cs r) (rows df).
Proof.
  induction cs as [|col cs IH]; intros df; simpl.
  - split; [reflexivity|]. now rewrite map_id.
  - destruct (IH (initcap_step df col)) as [Hc Hr].
    assert (Hcol : columns (initcap_step df col) = columns df).
    { unfold initcap_step. destruct (is_name_column col); reflexivity. }
    assert (Hrow : rows (initcap_step df col) =
                   map (fun r => initcap_row_step (columns df) r col) (rows df)).
    { unfold initcap_step, initcap_row_step.
      destruct (is_name_column col); simpl; [reflexivity|now rewrite map_id]. }
    rewrite Hc, Hr, Hcol, Hrow, map_map. split; reflexivity.
Qed.

Lemma initcap_row_cell (cols : list string) (j : nat) (c : string) :
  nth_error cols j = Some c ->
  forall (cs : list string) (r : list value) (v : value),
    NoDup cs -> nth_error r j = Some v ->
    nth_error (fold_left (initcap_row_step cols) cs r) j =
    Some (if mem c cs && is_name_column c then safe_initcap v else v).
Proof.
  intros Hc. induction cs as [|a cs IH]; intros r v Hnd Hv; simpl.
  - assumption.
  - inversion Hnd as [|? ? Hna Hnd']; subst.
    unfold mem. simpl. fold (mem c cs).
    destruct (String.eqb c a) eqn:Hca.
    + apply String.eqb_eq in Hca. subst a.
      assert (Hm : mem c cs = false).
      { destruct (mem c cs) eqn:Hm; [|reflexivity].
        apply mem_In in Hm. contradiction. }
      unfold initcap_row_step at 2. simpl.
      destruct (is_name_column c) eqn:Hn.
      * rewrite (IH _ (safe_initcap v) Hnd').
        -- now rewrite Hm.
        -- rewrite (apply_in_row_nth _ _ _ _ _ _ _ Hc Hv).
           now rewrite String.eqb_refl.
      * rewrite (IH _ v Hnd' Hv). now rewrite Hm.
    + simpl. apply IH; [assumption|].
      unfold initcap_row_step. destruct (is_name_column a); [|assumption].
      rewrite (apply_in_row_nth _ _ _ _ _ _ _ Hc Hv). now rewrite Hca.
Qed.

Lemma initcap_names_cell (df : DataFrame) (i j : nat) (c : string)
    (r : list value) (v : value) :
  NoDup (columns df) ->
  nth_error (rows df) i = Some r ->
  nth_error (columns df) j = Some c ->
  nth_error r j = Some v ->
  exists r',
    nth_error (rows (initcap_names df)) i = Some r' /\
    nth_error r' j = Some (if is_name_column c then safe_initcap v else v).
Proof.
  intros Hnd Hr Hc Hv. unfold initcap_names.
  destruct (initcap_fold (columns df) df) as [_ Hrows].
  rewrite Hrows. eexists. split.
  - rewrite nth_error_map, Hr. reflexivity.
  - rewrite (initcap_row_cell _ _ _ Hc _ _ _ Hnd Hv).
    assert (Hm : mem c (columns df) = true).
    { apply mem_In. eapply nth_error_In. eassumption. }
    now rewrite Hm.
Qed.

End Initcap.

(** C7. In the referral table and in the user table, under distinct column
    labels, the cell of a column whose label contains "name" and not
    "homeclub" becomes what [safe_initcap] makes of it, and every other cell
    stays as it is; the labels stay as they are.  [safe_initcap] keeps a
    missing cell, turns any other cell into the title case of its string
    form (a text is its own string form; on ASCII text the title case is
    [title]), and keeps a cell whose conversion to a string raises.
    "referrer_name" is such a label and "referrer_homeclub" is not. *)
Theorem name_capitalization :
  (forall (E : PyEnv) (t : Tables),
      user_referrals (clean_names t) = initcap_names (user_referrals t) /\
      user_logs (clean_names t) = initcap_names (user_logs t)) /\
  (forall (E : PyEnv) (df : DataFrame) (i j : nat) (c : string)
          (r : list value) (v : value),
      NoDup (columns df) ->
      nth_error (rows df) i = Some r ->
      nth_error (columns df) j = Some c ->
      nth_error r j = Some v ->
      columns (initcap_names df) = columns df /\
      exists r',
        nth_error (rows (initcap_names df)) i = Some r' /\
        nth_error r' j =
        Some (if contains "name" c && negb (contains "homeclub" c)
              then safe_initcap v else v)) /\
  (forall (E : PyEnv), safe_initcap VNull = VNull) /\
  (forall (E : PyEnv) (v : value),
      v <> VNull ->
      safe_initcap v = match py_str v with
                       | Ok s => VStr (str_title s)
                       | Raise _ => v
                       end) /\
  (forall (E : PyEnv) (s : string),
      py_str (VStr s) = Ok s /\ safe_initcap (VStr s) = VStr (str_title s)) /\
  (forall (E : PyEnv) (s : string),
      ascii_text s = true -> safe_initcap (VStr s) = VStr (title s)) /\
  is_name_column "referrer_name" = true /\
  is_name_column "referrer_homeclub" = false.
Proof.
  split; [|split; [|split; [|split; [|split; [|split; [|split]]]]]].
  - intros E t. split; reflexivity.
  - intros E df i j c r v Hnd Hr Hc Hv. split.
    + unfold initcap_names. apply (initcap_fold (columns df) df).
    + exact (initcap_names_cell df i j c r v Hnd Hr Hc Hv).
  - reflexivity.
  - intros E v Hv. unfold safe_initcap.
    destruct v; simpl; congruence.
  - intros E s. split; reflexivity.
  - intros E s Hs. unfold safe_initcap. simpl. now rewrite str_title_ascii.
  - vm_compute. reflexivity.
  - vm_compute. reflexivity.
Qed.

(** C7 on the user table with one row: the name is title-cased and the home
    club is not. *)
Lemma name_capitalization_witness :
  (exists r',
      nth_error (rows (initcap_names one_user)) 0 = Some r' /\
      nth_error r' 1 = Some (VStr "John Doe")) /\
  (exists r',
      nth_error (rows (initcap_names one_user)) 0 = Some r' /\
      nth_error r' 3 = Some (VStr "jakarta pusat")).
Proof.
  assert (Hnd : NoDup (columns one_user)).
  { repeat constructor; simpl; intuition discriminate. }
  split.
  - exact (proj2 (proj1 (proj2 name_capitalization) iso_env one_user 0%nat
                    1%nat "name"%string _ (VStr "john DOE")
                    Hnd eq_refl eq_refl eq_refl)).
  - exact (proj2 (proj1 (proj2 name_capitalization) iso_env one_user 0%nat
                    3%nat "homeclub"%string _ (VStr "jakarta pusat")
                    Hnd eq_refl eq_refl eq_refl)).
Defined.

(* ------------------------------------------------------------------ *)
(** ** Labels and positions *)

Lemma index_of_app (k : string) (cols more : list string) (i : nat) :
  index_of k cols = Some i -> index_of k (cols ++ more) = Some i.
Proof.
  revert i. induction cols as [|c cols IH]; intros i; simpl; [discriminate|].
  destruct (String.eqb c k); [auto|].
  destruct (index_of k cols) as [i'|]; [|discriminate].
  intros H. now rewrite (IH i' eq_refl).
Qed.

Lemma index_of_Some (k : string) (cols : list string) :
  mem k cols = true <-> exists i, index_of k cols = Some i.
Proof.
  unfold mem. induction cols as [|c cols IH]; simpl.
  - split; [discriminate|intros [i H]; discriminate].
  - rewrite String.eqb_sym. destruct (String.eqb c k); simpl.
    + split; [intros _; now exists 0%nat|reflexivity].
    + rewrite IH. split; intros [i H].
      * rewrite H. now exists (S i).
      * destruct (index_of k cols) as [i'|]; [now exists i'|discriminate].
Qed.

Lemma index_of_lt (k : string) (cols : list string) (i : nat) :
  index_of k cols = Some i -> (i < List.length cols)%nat.
Proof.
  revert i. induction cols as [|c cols IH]; intros i; simpl; [discriminate|].
  destruct (String.eqb c k).
  - intros H. injection H as <-. lia.
  - destruct (index_of k cols) as [i'|]; [|discriminate].
    intros H. injection H as <-. specialize (IH i' eq_refl). lia.
Qed.

Lemma remove_nth_length {A : Type} (l : list A) (i : nat) :
  (i < List.length l)%nat ->
  List.length (remove_nth i l) = (List.length l - 1)%nat.
Proof.
  revert i. induction l as [|y l IH]; intros [|i]; simpl; try lia.
  intros H. rewrite IH by lia. lia.
Qed.

Lemma cell_app (l rest : list value) (i : nat) :
  (i < List.length l)%nat -> cell (l ++ rest) i = cell l i.
Proof. intros H. unfold cell. now apply app_nth1. Qed.

(* ------------------------------------------------------------------ *)
(** ** The left merge *)

Lemma join_row_extends (i j n : nat) (rs : list (list value))
    (l x : list value) :
  In x (join_row i j n rs l) -> exists rest, x = l ++ rest.
Proof.
  unfold join_row.
  destruct (filter _ rs) as [|m ms].
  - intros [<-|[]]. eauto.
  - intros H. apply in_map_iff in H. destruct H as (r & <- & _). eauto.
Qed.

Lemma join_row_inhabited (i j n : nat) (rs : list (list value))
    (l : list value) :
  exists rest, In (l ++ rest) (join_row i j n rs l).
Proof.
  unfold join_row.
  destruct (filter _ rs) as [|m ms].
  - eexists. left. reflexivity.
  - exists (remove_nth j m). left. reflexivity.
Qed.

Lemma join_row_unmatched (i j n : nat) (right : DataFrame) (l : list value) :
  unmatched i j right l ->
  join_row i j n (rows right) l = [l ++ repeat VNull n].
Proof.
  intros H. unfold join_row.
  assert (Hf : filter (fun r => value_eqb (cell l i) (cell r j)) (rows right)
               = []).
  { unfold unmatched in H. induction (rows right) as [|r rs IH]; simpl;
      [reflexivity|].
    rewrite (H r (or_introl eq_refl)). apply IH.
    intros r' Hr'. apply H. now right. }
  now rewrite Hf.
Qed.

(** What a left merge returns, when it returns. *)
Lemma merge_left_Ok (left right out : DataFrame) (on lsuffix rsuffix : string) :
  merge_left left right on lsuffix rsuffix = Ok out ->
  exists i j,
    index_of on (columns left) = Some i /\
    index_of on (columns right) = Some j /\
    key_clash (map (fun l => cell l i) (rows left))
              (map (fun r => cell r j) (rows right)) = false /\
    out = {| columns :=
               map (left_label (remove_nth j (columns right)) on lsuffix)
                   (columns left) ++
               map (right_label (columns left) rsuffix)
                   (remove_nth j (columns right));
             rows :=
               flat_map (join_row i j
                           (List.length (remove_nth j (columns right)))
                           (rows right))
                        (rows left) |}.
Proof.
  unfold merge_left.
  destruct (index_of on (columns left)) as [i|]; [|discriminate].
  destruct (index_of on (columns right)) as [j|]; [|discriminate].
  destruct (key_clash _ _) eqn:Hc; [discriminate|].
  destruct (_ || _); [discriminate|].
  intros H. injection H as <-. exists i, j. auto.
Qed.

(** What a left merge raises, and when. *)
Lemma merge_left_Raise (left right : DataFrame) (on lsuffix rsuffix : string)
    (e : exn) :
  merge_left left right on lsuffix rsuffix = Raise e ->
  (e = KeyError on /\
   (index_of on (columns left) = None \/ index_of on (columns right) = None)) \/
  (e = ValueError /\
   exists i j,
     index_of on (columns left) = Some i /\
     index_of on (columns right) = Some j /\
     key_clash (map (fun l => cell l i) (rows left))
               (map (fun r => cell r j) (rows right)) = true) \/
  e = MergeError.
Proof.
  unfold merge_left.
  destruct (index_of on (columns left)) as [i|].
  2:{ intros H. injection H as <-. auto. }
  destruct (index_of on (columns right)) as [j|].
  2:{ intros H. injection H as <-. auto. }
  destruct (key_clash _ _) eqn:Hc.
  - intros H. injection H as <-. right. left. split; [reflexivity|].
    exists i, j. auto.
  - destruct (_ || _); [|discriminate].
    intros H. injection H as <-. auto.
Qed.

(** A left merge that returns keeps every left row, and gives a left row
    without partner a missing cell for each right column but the key. *)
Lemma merge_left_keeps (left right out : DataFrame)
    (on lsuffix rsuffix : string) :
  merge_left left right on lsuffix rsuffix = Ok out ->
  keeps_rows left out /\
  (forall i j l,
      index_of on (columns left) = Some i ->
      index_of on (columns right) = Some j ->
      In l (rows left) -> unmatched i j right l ->
      In (l ++ repeat VNull (List.length (columns right) - 1)) (rows out)).
Proof.
  intros H. apply merge_left_Ok in H.
  destruct H as (i & j & Hi & Hj & _ & ->). cbn [rows]. split.
  - intros l Hl.
    destruct (join_row_inhabited i j
                (List.length (remove_nth j (columns right))) (rows right) l)
      as (rest & Hrest).
    exists rest. apply in_flat_map. eauto.
  - intros i' j' l Hi' Hj' Hl Hun.
    rewrite Hi in Hi'. injection Hi' as <-.
    rewrite Hj in Hj'. injection Hj' as <-.
    apply in_flat_map. exists l. split; [assumption|].
    rewrite (join_row_unmatched _ _ _ _ _ Hun).
    rewrite (remove_nth_length _ _ (index_of_lt _ _ _ Hj)).
    left. reflexivity.
Qed.

Lemma keeps_rows_refl (df : DataFrame) : keeps_rows df df.
Proof. intros l Hl. exists []. now rewrite app_nil_r. Qed.

Lemma keeps_rows_trans (a b c : DataFrame) :
  keeps_rows a b -> keeps_rows b c -> keeps_rows a c.
Proof.
  intros Hab Hbc l Hl. destruct (Hab l Hl) as (r1 & H1).
  destruct (Hbc _ H1) as (r2 & H2). exists (r1 ++ r2).
  now rewrite app_assoc.
Qed.

Lemma mem_false (k : string) (l : list string) : ~ In k l -> mem k l = false.
Proof.
  intros H. destruct (mem k l) eqn:Hm; [|reflexivity].
  apply mem_In in Hm. contradiction.
Qed.

Lemma has_column_false (k : string) (df : DataFrame) :
  has_column k df = false -> ~ In k (columns df).
Proof.
  unfold has_column. intros H Hin. apply mem_In in Hin. congruence.
Qed.

(** Each of the four joins keeps the rows of the frame joined so far, when
    it returns. *)
Lemma join_logs_keeps (df logs out : DataFrame) :
  join_logs df logs = Ok out -> keeps_rows df out.
Proof.
  unfold join_logs. destruct (joins logs "user_referral_id").
  2:{ intros H. injection H as <-. apply keeps_rows_refl. }
  unfold bind. destruct (latest_logs logs) as [latest|]; [|discriminate].
  intros H. now apply merge_left_keeps in H.
Qed.

Lemma join_rewards_keeps (df rewards out : DataFrame) :
  join_rewards df rewards = Ok out -> keeps_rows df out.
Proof.
  unfold join_rewards. destruct (joins rewards "id").
  2:{ intros H. injection H as <-. apply keeps_rows_refl. }
  intros H. now apply merge_left_keeps in H.
Qed.

Lemma join_transactions_keeps (df transactions out : DataFrame) :
  join_transactions df transactions = Ok out -> keeps_rows df out.
Proof.
  unfold join_transactions. destruct (joins transactions "transaction_id").
  2:{ intros H. injection H as <-. apply keeps_rows_refl. }
  intros H. now apply merge_left_keeps in H.
Qed.

Lemma join_referrer_keeps (df users out : DataFrame) :
  join_referrer df users = Ok out -> keeps_rows df out.
Proof.
  unfold join_referrer. destruct (joins users "user_id").
  2:{ intros H. injection H as <-. apply keeps_rows_refl. }
  unfold bind. destruct (select _ _) as [ref|]; [|discriminate].
  intros H. now apply merge_left_keeps in H.
Qed.

(* ------------------------------------------------------------------ *)
(** ** The reconciler *)

(** Where the join block returns, every referral row is the beginning of
    one of its records. *)
Lemma reconcile_keeps_rows (t : Tables) (out : DataFrame) :
  reconcile t = Ok out -> keeps_rows (user_referrals t) out.
Proof.
  unfold reconcile, bind.
  destruct (join_logs _ _) as [df1|] eqn:E1; [|discriminate].
  destruct (join_rewards _ _) as [df2|] eqn:E2; [|discriminate].
  destruct (join_transactions _ _) as [df3|] eqn:E3; [|discriminate].
  intros E4.
  eapply keeps_rows_trans; [exact (join_logs_keeps _ _ _ E1)|].
  eapply keeps_rows_trans; [exact (join_rewards_keeps _ _ _ E2)|].
  eapply keeps_rows_trans; [exact (join_transactions_keeps _ _ _ E3)|].
  exact (join_referrer_keeps _ _ _ E4).
Qed.

(** The dtype of a column of numbers and of a column of texts. *)
Lemma column_dtype_numbers (cells : list value) :
  numbers cells = true -> column_dtype cells = numeric.
Proof.
  unfold numbers, column_dtype. intros H.
  assert (Hall : forallb is_number cells = true)
    by (destruct cells; [discriminate|exact H]).
  assert (Hd : forallb (dtype_eqb numeric) (flat_map cell_dtype cells) = true).
  { clear H. induction cells as [|v cells IH]; [reflexivity|].
    simpl in Hall. apply andb_true_iff in Hall. destruct Hall as [Hv Hall].
    simpl. rewrite forallb_app, (IH Hall), andb_true_r.
    destruct v; simpl in *; try reflexivity; discriminate. }
  destruct (flat_map cell_dtype cells) as [|d ds]; [reflexivity|].
  simpl in Hd. apply andb_true_iff in Hd. destruct Hd as [Hd Hds].
  destruct d as [|[z|]|]; try discriminate. now rewrite Hds.
Qed.

Lemma column_dtype_texts (cells : list value) :
  texts cells = true -> column_dtype cells = object.
Proof.
  unfold texts, column_dtype. rewrite andb_true_iff. intros [Hall Hex].
  assert (Hd : forallb (dtype_eqb object) (flat_map cell_dtype cells) = true).
  { clear Hex. induction cells as [|v cells IH]; [reflexivity|].
    simpl in Hall. apply andb_true_iff in Hall. destruct Hall as [Hv Hall].
    simpl. rewrite forallb_app, (IH Hall), andb_true_r.
    destruct v; simpl in *; try reflexivity; discriminate. }
  assert (Hne : flat_map cell_dtype cells <> []).
  { apply existsb_exists in Hex. destruct Hex as (v & Hv & Ht).
    intros Hnil.
    assert (Hin : In object (flat_map cell_dtype cells)).
    { apply in_flat_map. exists v. split; [assumption|].
      destruct v; try discriminate. now left. }
    rewrite Hnil in Hin. destruct Hin. }
  destruct (flat_map cell_dtype cells) as [|d ds]; [now elim Hne|].
  simpl in Hd. apply andb_true_iff in Hd. destruct Hd as [Hd Hds].
  destruct d as [|[z|]|]; try discriminate. now rewrite Hds.
Qed.

(** A merge of a key column of numbers with a key column of texts raises,
    whichever side has which. *)
Lemma merge_left_clash (left right : DataFrame) (on lsuffix rsuffix : string)
    (i j : nat) :
  index_of on (columns left) = Some i ->
  index_of on (columns right) = Some j ->
  (numbers (map (fun l => cell l i) (rows left)) = true /\
   texts (map (fun r => cell r j) (rows right)) = true) \/
  (texts (map (fun l => cell l i) (rows left)) = true /\
   numbers (map (fun r => cell r j) (rows right)) = true) ->
  merge_left left right on lsuffix rsuffix = Raise ValueError.
Proof.
  intros Hi Hj H. unfold merge_left. rewrite Hi, Hj.
  assert (Hc : key_clash (map (fun l => cell l i) (rows left))
                         (map (fun r => cell r j) (rows right)) = true).
  { unfold key_clash.
    destruct H as [[Hn Ht]|[Ht Hn]];
      rewrite (column_dtype_numbers _ Hn), (column_dtype_texts _ Ht);
      destruct (map (fun l => cell l i) (rows left)),
               (map (fun r => cell r j) (rows right));
      try reflexivity; discriminate. }
  now rewrite Hc.
Qed.

(** C5. A referral table whose transaction ids are all missing, joined to a
    transaction table whose ids are texts: the tables have their declared
    columns, the one referral has no transaction id and so no partner among
    the transactions, and the transaction join raises [ValueError], since
    the left key column is a column of numbers and the right one a column
    of texts.  The reconciler returns no frame and the script no report,
    where a record with missing transaction cells was due.  So does every
    left merge of a key column of numbers or missing cells with a key column
    of texts. *)
Theorem reconcile_null_transaction_id_raises :
  declared_schema null_transaction_id = true /\
  column_of "transaction_id" (user_referrals null_transaction_id) = [VNull] /\
  column_of "transaction_id" (paid_transactions null_transaction_id)
    = [VStr "TX9"] /\
  (forall l, In l (rows (user_referrals null_transaction_id)) ->
             unmatched 6 0 (paid_transactions null_transaction_id) l) /\
  unique_on "transaction_id" (paid_transactions null_transaction_id) = true /\
  reconcile null_transaction_id = Raise ValueError /\
  reconcile (data_cleaning null_transaction_id) = Raise ValueError /\
  run null_transaction_id = Raise ValueError /\
  (forall (left right : DataFrame) (on lsuffix rsuffix : string) (i j : nat),
      index_of on (columns left) = Some i ->
      index_of on (columns right) = Some j ->
      numbers (map (fun l => cell l i) (rows left)) = true ->
      texts (map (fun r => cell r j) (rows right)) = true ->
      merge_left left right on lsuffix rsuffix = Raise ValueError).
Proof.
  repeat (split; [vm_compute; reflexivity|]). split.
  - intros l [<-|[]] r [<-|[]]. reflexivity.
  - repeat (split; [vm_compute; reflexivity|]).
    intros left right on lsuffix rsuffix i j Hi Hj Hn Ht.
    apply (merge_left_clash left right on lsuffix rsuffix i j Hi Hj). auto.
Qed.

(** C2. With the referral file missing and the log file there, the log join
    looks for the referral key in a frame without columns: the reconciler
    raises and returns no frame, where a frame of no row was due.  The keys
    of the log table are as declared. *)
Theorem reconcile_without_referrals_raises :
  user_referrals no_referrals = empty_frame /\
  rows (user_referrals no_referrals) = [] /\
  joins (user_referral_logs no_referrals) "user_referral_id" = true /\
  reconcile no_referrals = Raise (KeyError "referral_id").
Proof. repeat split; vm_compute; reflexivity. Qed.

(** C3. Of two log rows of one referral, the later without description,
    [latest_logs] returns one row that has the time of the later row and the
    description of the earlier row; it is no row of the log table, and the
    joined record carries it. *)
Theorem latest_logs_mixes_rows :
  latest_logs two_logs =
    Ok {| columns := ["user_referral_id"; "created_at"; "description"]%string;
          rows := [[VNum 1; VStr "2024-01-02T00:00:00Z"; VStr "berhasil"]] |} /\
  ~ In [VNum 1; VStr "2024-01-02T00:00:00Z"; VStr "berhasil"] (rows two_logs) /\
  exists out rec,
    reconcile referral_with_logs = Ok out /\
    rows out = [rec] /\
    get (as_series (columns out) rec) "created_at" VNull =
      VStr "2024-01-02T00:00:00Z" /\
    get (as_series (columns out) rec) "description" VNull = VStr "berhasil".
Proof.
  split; [vm_compute; reflexivity|]. split.
  - simpl. intros [H|[H|[]]]; discriminate.
  - eexists. eexists. split; [vm_compute; reflexivity|].
    split; [reflexivity|]. split; vm_compute; reflexivity.
Qed.

(* ------------------------------------------------------------------ *)
(** ** Row counts *)

Lemma datetime_eqb_eq (a b : datetime) : datetime_eqb a b = true <-> a = b.
Proof.
  destruct a as [wa [oa|]], b as [wb [ob|]]; unfold datetime_eqb; simpl;
    rewrite ?andb_true_iff, ?Z.eqb_eq; split; intros H;
    try (destruct H; discriminate); try discriminate;
    try (destruct H; subst; reflexivity);
    injection H; intros; subst; auto.
Qed.

Lemma value_eqb_sym (a b : value) : value_eqb a b = value_eqb b a.
Proof.
  destruct a, b; simpl; try reflexivity.
  - apply Qeq_bool_comm.
  - apply String.eqb_sym.
  - apply eq_true_iff_eq. rewrite !datetime_eqb_eq. split; congruence.
Qed.

Lemma value_eqb_trans (a b c : value) :
  value_eqb a b = true -> value_eqb b c = true -> value_eqb a c = true.
Proof.
  destruct a, b, c; simpl; try discriminate; try reflexivity.
  - rewrite !Qeq_bool_iff. intros H1 H2. now rewrite H1.
  - rewrite !String.eqb_eq. congruence.
  - rewrite !datetime_eqb_eq. congruence.
Qed.

(** Among pairwise different keys at most one equals a given cell. *)
Lemma all_distinct_one_match (v : value) (l : list value) :
  all_distinct l = true ->
  (List.length (filter (value_eqb v) l) <= 1)%nat.
Proof.
  induction l as [|k l IH]; simpl; [lia|].
  rewrite andb_true_iff. intros [Hk Hl].
  destruct (value_eqb v k) eqn:Hvk; [|auto].
  assert (Hnone : filter (value_eqb v) l = []).
  { clear IH Hl. induction l as [|k' l IH']; simpl in *; [reflexivity|].
    apply andb_true_iff in Hk. destruct Hk as [Hk' Hk].
    destruct (value_eqb v k') eqn:Hvk'; [|auto].
    rewrite value_eqb_sym in Hvk.
    rewrite (value_eqb_trans _ _ _ Hvk Hvk') in Hk'. discriminate. }
  simpl. rewrite Hnone. simpl. lia.
Qed.

Lemma filter_key_length (v : value) (j : nat) (rs : list (list value)) :
  List.length (filter (fun r => value_eqb v (cell r j)) rs) =
  List.length (filter (value_eqb v) (map (fun r => cell r j) rs)).
Proof.
  induction rs as [|r rs IH]; simpl; [reflexivity|].
  destruct (value_eqb v (cell r j)); simpl; now rewrite IH.
Qed.

(** With pairwise different right keys a left row gives one joined row. *)
Lemma join_row_one (i j n : nat) (rs : list (list value)) (l : list value) :
  unique_keys j rs = true -> List.length (join_row i j n rs l) = 1%nat.
Proof.
  intros Hu. unfold join_row.
  pose proof (all_distinct_one_match (cell l i) _ Hu) as Hle.
  rewrite <- filter_key_length in Hle.
  destruct (filter _ rs) as [|m [|m' ms]]; simpl in *; [reflexivity..|lia].
Qed.

Lemma flat_map_one {A B : Type} (f : A -> list B) (l : list A) :
  (forall x, List.length (f x) = 1%nat) ->
  List.length (flat_map f l) = List.length l.
Proof.
  intros H. induction l as [|x l IH]; simpl; [reflexivity|].
  rewrite length_app, H, IH. reflexivity.
Qed.

(** A left merge onto pairwise different right keys keeps the number of
    rows. *)
Lemma merge_left_count (left right out : DataFrame)
    (on lsuffix rsuffix : string) (j : nat) :
  index_of on (columns right) = Some j ->
  unique_keys j (rows right) = true ->
  merge_left left right on lsuffix rsuffix = Ok out ->
  List.length (rows out) = List.length (rows left).
Proof.
  intros Hj Hu Hm. apply merge_left_Ok in Hm.
  destruct Hm as (i & j' & _ & Hj' & _ & ->).
  rewrite Hj in Hj'. injection Hj' as <-. simpl. apply flat_map_one.
  intros l. now apply join_row_one.
Qed.

Lemma forallb_insert_by {A : Type} (p : A -> bool) (key : A -> value)
    (x : A) (l : list A) :
  forallb p (insert_by key x l) = p x && forallb p l.
Proof.
  induction l as [|y l IH]; simpl; [reflexivity|].
  destruct (value_leb (key x) (key y)); simpl; [reflexivity|].
  rewrite IH. destruct (p x), (p y); reflexivity.
Qed.

Lemma forallb_sort_by {A : Type} (p : A -> bool) (key : A -> value)
    (l : list A) :
  forallb p (sort_by key l) = forallb p l.
Proof.
  unfold sort_by. induction l as [|x l IH]; simpl; [reflexivity|].
  now rewrite forallb_insert_by, IH.
Qed.

Lemma forallb_sublist {A : Type} (p q : A -> bool) (l : list A) :
  forallb p l = true -> forallb p (filter q l) = true.
Proof.
  induction l as [|x l IH]; simpl; [reflexivity|].
  rewrite andb_true_iff. intros [Hx Hl].
  destruct (q x); simpl; [rewrite Hx|]; auto.
Qed.

Lemma all_distinct_filter (q : value -> bool) (l : list value) :
  all_distinct l = true -> all_distinct (filter q l) = true.
Proof.
  induction l as [|k l IH]; simpl; [reflexivity|].
  rewrite andb_true_iff. intros [Hk Hl].
  destruct (q k); simpl; [|auto].
  rewrite (forallb_sublist _ q l Hk). auto.
Qed.

Lemma all_distinct_distinct (l : list value) : all_distinct (distinct l) = true.
Proof.
  induction l as [|k l IH]; simpl; [reflexivity|].
  rewrite forallb_filter. now apply all_distinct_filter.
Qed.

Lemma all_distinct_insert (x : value) (l : list value) :
  forallb (fun k' => negb (value_eqb x k')) l = true ->
  all_distinct l = true ->
  all_distinct (insert_by (fun k => k) x l) = true.
Proof.
  induction l as [|y l IH]; simpl; [reflexivity|].
  rewrite !andb_true_iff. intros [Hxy Hxl] [Hyl Hl].
  destruct (value_leb x y); simpl.
  - rewrite Hxy, Hxl, Hyl, Hl. reflexivity.
  - rewrite forallb_insert_by, Hyl, (IH Hxl Hl), value_eqb_sym, Hxy.
    reflexivity.
Qed.

Lemma all_distinct_sort (l : list value) :
  all_distinct l = true -> all_distinct (sort_by (fun k => k) l) = true.
Proof.
  induction l as [|k l IH]; simpl; [reflexivity|].
  rewrite andb_true_iff. intros [Hk Hl].
  apply all_distinct_insert; [|auto].
  fold (sort_by (fun k : value => k) l). now rewrite forallb_sort_by.
Qed.

(** The log join keeps the number of rows: [groupby] leaves one row per
    key. *)
Lemma join_logs_count (df logs out : DataFrame) :
  join_logs df logs = Ok out ->
  List.length (rows out) = List.length (rows df).
Proof.
  unfold join_logs. destruct (joins logs "user_referral_id").
  2:{ intros H. now injection H as <-. }
  unfold latest_logs, sort_values, bind.
  destruct (index_of "created_at" (columns logs)) as [ic|]; [|discriminate].
  unfold groupby_last. cbn [columns rows].
  destruct (index_of "user_referral_id" (columns logs)) as [ik|];
    [|discriminate].
  set (latest := rename _ _).
  apply (merge_left_count df latest out "referral_id" "_x" "_y" 0);
    [reflexivity|].
  subst latest. unfold unique_keys. cbn [rows rename].
  rewrite map_map. cbn [cell nth]. rewrite map_id.
  apply all_distinct_sort, all_distinct_distinct.
Qed.

Lemma index_of_renamed (f : string -> string) (k k' : string)
    (cols : list string) :
  (forall c, In c cols -> String.eqb (f c) k' = String.eqb c k) ->
  index_of k' (map f cols) = index_of k cols.
Proof.
  induction cols as [|c cols IH]; intros H; simpl; [reflexivity|].
  rewrite (H c (or_introl eq_refl)), IH; [reflexivity|].
  intros c' Hc'. apply H. now right.
Qed.

(** The reward join keeps the number of rows when the reward ids are
    pairwise different. *)
Lemma join_rewards_count (df rewards out : DataFrame) :
  has_column "referral_reward_id" rewards = false ->
  unique_on "id" rewards = true ->
  join_rewards df rewards = Ok out ->
  List.length (rows out) = List.length (rows df).
Proof.
  intros Hfree Hu. unfold join_rewards. destruct (joins rewards "id") eqn:Hj.
  2:{ intros H. now injection H as <-. }
  unfold joins in Hj. apply andb_true_iff in Hj. destruct Hj as [_ Hkey].
  apply index_of_Some in Hkey. destruct Hkey as (j & Hj).
  unfold unique_on in Hu. rewrite Hj in Hu.
  apply (merge_left_count df _ out "referral_reward_id" "_x" "_y" j);
    [|exact Hu].
  cbn [columns rename]. rewrite <- Hj. apply index_of_renamed.
  intros c Hc. simpl. destruct (String.eqb c "id") eqn:Hid; [reflexivity|].
  apply String.eqb_neq. intros ->.
  apply has_column_false in Hfree. contradiction.
Qed.

Lemma join_transactions_count (df transactions out : DataFrame) :
  unique_on "transaction_id" transactions = true ->
  join_transactions df transactions = Ok out ->
  List.length (rows out) = List.length (rows df).
Proof.
  intros Hu. unfold join_transactions.
  destruct (joins transactions "transaction_id") eqn:Hj.
  2:{ intros H. now injection H as <-. }
  unfold joins in Hj. apply andb_true_iff in Hj. destruct Hj as [_ Hkey].
  apply index_of_Some in Hkey. destruct Hkey as (j & Hj).
  unfold unique_on in Hu. rewrite Hj in Hu.
  now apply (merge_left_count df _ out "transaction_id" "" "_trans" j).
Qed.

Lemma referrer_key_index (cols : list string) :
  ~ In "referrer_id"%string cols ->
  index_of "referrer_id" (map (rename_label referrer_renames) cols) =
  index_of "user_id" cols.
Proof.
  intros Hfree. apply index_of_renamed. intros c Hc.
  unfold referrer_renames, rename_label.
  destruct (String.eqb c "user_id") eqn:H1; [reflexivity|].
  destruct (String.eqb c "name") eqn:H2; [reflexivity|].
  destruct (String.eqb c "phone_number") eqn:H3; [reflexivity|].
  destruct (String.eqb c "homeclub") eqn:H4; [reflexivity|].
  apply String.eqb_neq. intros ->. contradiction.
Qed.

(** The referrer join keeps the number of rows when the user ids are
    pairwise different. *)
Lemma join_referrer_count (df users out : DataFrame) :
  has_column "referrer_id" users = false ->
  unique_on "user_id" users = true ->
  join_referrer df users = Ok out ->
  List.length (rows out) = List.length (rows df).
Proof.
  intros Hfree Hu. unfold join_referrer.
  destruct (joins users "user_id") eqn:Hj.
  2:{ intros H. now injection H as <-. }
  unfold joins in Hj. apply andb_true_iff in Hj. destruct Hj as [_ Hkey].
  apply index_of_Some in Hkey. destruct Hkey as (n1 & Hn1).
  unfold unique_on in Hu. rewrite Hn1 in Hu.
  unfold select, bind, referrer_columns. cbn [indices_of columns rename].
  rewrite (referrer_key_index _ (has_column_false _ _ Hfree)), Hn1.
  destruct (index_of "referrer_name" _) as [n2|]; [|discriminate].
  destruct (index_of "referrer_phone_number" _) as [n3|]; [|discriminate].
  destruct (index_of "referrer_homeclub" _) as [n4|]; [|discriminate].
  cbn [bind].
  apply (merge_left_count df _ out "referrer_id" "_x" "_y" 0); [reflexivity|].
  unfold unique_keys in *. cbn [rows rename]. rewrite map_map.
  cbn [map cell nth]. exact Hu.
Qed.

(** Where the join block returns and the reward ids, the transaction ids
    and the user ids are pairwise different, it returns one record per
    referral row. *)
Lemma reconcile_row_count (t : Tables) (out : DataFrame) :
  reconcile t = Ok out ->
  has_column "referral_reward_id" (referral_rewards t) = false ->
  has_column "referrer_id" (user_logs t) = false ->
  unique_on "id" (referral_rewards t) = true ->
  unique_on "transaction_id" (paid_transactions t) = true ->
  unique_on "user_id" (user_logs t) = true ->
  List.length (rows out) = List.length (rows (user_referrals t)).
Proof.
  intros Hout Hf2 Hf4 Hu2 Hu3 Hu4. unfold reconcile, bind in Hout.
  destruct (join_logs _ _) as [df1|] eqn:E1; [|discriminate].
  destruct (join_rewards _ _) as [df2|] eqn:E2; [|discriminate].
  destruct (join_transactions _ _) as [df3|] eqn:E3; [|discriminate].
  rewrite (join_referrer_count _ _ _ Hf4 Hu4 Hout),
          (join_transactions_count _ _ _ Hu3 E3),
          (join_rewards_count _ _ _ Hf2 Hu2 E2).
  exact (join_logs_count _ _ _ E1).
Qed.

(* ------------------------------------------------------------------ *)
(** ** The latest log of a referral *)

Lemma value_eqb_refl (v : value) : value_eqb v v = true.
Proof.
  destruct v; simpl; [reflexivity| | |].
  - apply Qeq_bool_iff. reflexivity.
  - apply String.eqb_refl.
  - now apply datetime_eqb_eq.
Qed.

(** Two log rows of one referral, where [r2] wins: it comes second and is
    not earlier than [r1], or it comes first and is later than [r1].
    [latest_logs] returns one row, which holds in each column the cell of
    [r2], or the cell of [r1] where [r2] has none. *)
Lemma latest_of_two (cols : list string) (r1 r2 : list value) (ic ik : nat)
    (input : list (list value)) :
  (input = [r1; r2] /\ value_leb (cell r1 ic) (cell r2 ic) = true) \/
  (input = [r2; r1] /\ value_leb (cell r2 ic) (cell r1 ic) = false) ->
  index_of "created_at" cols = Some ic ->
  index_of "user_referral_id" cols = Some ik ->
  cell r1 ik <> VNull ->
  value_eqb (cell r1 ik) (cell r2 ik) = true ->
  latest_logs {| columns := cols; rows := input |} =
  Ok {| columns := "user_referral_id"%string :: remove_nth ik cols;
        rows := [cell r1 ik ::
                 map (fun j => if isnull (cell r2 j) then cell r1 j
                               else cell r2 j)
                     (remove_nth ik (seq 0 (List.length cols)))] |}.
Proof.
  intros Hin Hic Hik Hk1 Hkeys.
  assert (Hsorted : sort_by (fun r => cell r ic) input = [r1; r2]).
  { destruct Hin as [[-> H] | [-> H]]; unfold sort_by; simpl; now rewrite H. }
  assert (Hk2 : cell r2 ik <> VNull).
  { intros H. rewrite H in Hkeys. destruct (cell r1 ik); simpl in *;
      congruence. }
  unfold latest_logs, sort_values, bind. cbn [columns rows]. rewrite Hic.
  unfold groupby_last. cbn [columns rows]. rewrite Hik, Hsorted.
  cbn [map filter]. apply notnull_true in Hk1, Hk2. rewrite Hk1, Hk2.
  cbn [distinct filter]. rewrite Hkeys. cbn [negb sort_by fold_right insert_by map filter].
  rewrite value_eqb_refl, (value_eqb_sym (cell r2 ik)), Hkeys.
  do 4 f_equal. apply map_ext. intros j. unfold last_valid. simpl.
  destruct (isnull (cell r2 j)); [|reflexivity].
  destruct (cell r1 j); reflexivity.
Qed.

(* ================================================================== *)
(** * Further properties of the pipeline *)

(* ------------------------------------------------------------------ *)
(** ** Sorting *)

Lemma value_leb_total (a b : value) :
  value_leb a b = true \/ value_leb b a = true.
Proof.
  destruct a as [|p|s|t], b as [|q|s'|t']; simpl; auto.
  - destruct (Qle_bool p q) eqn:H; [auto|right].
    apply Qle_bool_iff. apply Qlt_le_weak, Qnot_le_lt.
    intros Hle. apply Qle_bool_iff in Hle. congruence.
  - apply String.leb_total.
  - unfold datetime_leb. rewrite !Z.leb_le. lia.
Qed.

Section SortBy.
Context {A : Type} (key : A -> value).

Definition key_le (x y : A) : Prop := value_leb (key x) (key y) = true.

Lemma insert_by_perm (x : A) (l : list A) :
  Permutation (x :: l) (insert_by key x l).
Proof.
  induction l as [|y l IH]; simpl; [reflexivity|].
  destruct (value_leb (key x) (key y)); [reflexivity|].
  rewrite perm_swap. now apply perm_skip.
Qed.

Lemma sort_by_perm (l : list A) : Permutation l (sort_by key l).
Proof.
  unfold sort_by. induction l as [|x l IH]; simpl; [reflexivity|].
  rewrite <- insert_by_perm. now apply perm_skip.
Qed.

Lemma insert_by_sorted (x : A) (l : list A) :
  Sorted key_le l -> Sorted key_le (insert_by key x l).
Proof.
  induction l as [|y l IH]; intros Hs; simpl.
  - repeat constructor.
  - destruct (value_leb (key x) (key y)) eqn:Hxy.
    + constructor; [assumption|]. constructor. exact Hxy.
    + inversion Hs as [|? ? Hs' Hhd]; subst.
      constructor; [now apply IH|].
      assert (Hyx : key_le y x).
      { destruct (value_leb_total (key x) (key y)); [congruence|assumption]. }
      destruct l as [|z l]; simpl.
      * now constructor.
      * destruct (value_leb (key x) (key z)); constructor; [assumption|].
        now inversion Hhd.
Qed.

Lemma sort_by_sorted (l : list A) : Sorted key_le (sort_by key l).
Proof.
  unfold sort_by. induction l as [|x l IH]; simpl; [constructor|].
  now apply insert_by_sorted.
Qed.

End SortBy.

Lemma value_leb_null (b : value) : value_leb VNull b = true -> b = VNull.
Proof. destruct b; simpl; congruence. Qed.

Lemma sorted_nulls_tail {A : Type} (key : A -> value) (a : A) (rest : list A) :
  Sorted (key_le key) (a :: rest) -> key a = VNull ->
  forall b, In b rest -> key b = VNull.
Proof.
  revert a. induction rest as [|c rest IH]; intros a Hs Ha b Hb; [destruct Hb|].
  inversion Hs as [|? ? Hs' Hhd]; subst.
  inversion Hhd as [|? ? Hac]; subst. unfold key_le in Hac. rewrite Ha in Hac.
  apply value_leb_null in Hac.
  destruct Hb as [<-|Hb]; [assumption|]. now apply (IH c).
Qed.

Lemma sorted_suffix {A : Type} (R : A -> A -> Prop) (pre l : list A) :
  Sorted R (pre ++ l) -> Sorted R l.
Proof.
  induction pre as [|x pre IH]; simpl; [auto|].
  intros H. inversion H; subst. auto.
Qed.

(** X1. [sort_values] raises [KeyError] exactly when the column is missing;
    otherwise it keeps the labels, returns the same rows in another order,
    ordered by the column, with no cell that is present after a missing
    one. *)
Theorem sort_values_sorted (col : string) (df : DataFrame) :
  (index_of col (columns df) = None ->
     sort_values col df = Raise (KeyError col)) /\
  (forall i, index_of col (columns df) = Some i ->
     exists out,
       sort_values col df = Ok out /\
       columns out = columns df /\
       Permutation (rows df) (rows out) /\
       Sorted (fun a b => value_leb (cell a i) (cell b i) = true) (rows out) /\
       (forall before a rest b,
           rows out = before ++ a :: rest -> In b rest ->
           cell a i = VNull -> cell b i = VNull)).
Proof.
  unfold sort_values. split; [intros ->; reflexivity|].
  intros i Hi. rewrite Hi. eexists. split; [reflexivity|]. cbn [columns rows].
  split; [reflexivity|]. split; [apply sort_by_perm|].
  pose proof (sort_by_sorted (fun r => cell r i) (rows df)) as Hs.
  split; [exact Hs|].
  intros before a rest b Hrows Hb Ha. rewrite Hrows in Hs.
  apply sorted_suffix in Hs.
  exact (sorted_nulls_tail (fun r => cell r i) a rest Hs Ha b Hb).
Qed.

(** X1 on the two log rows, sorted by [created_at]. *)
Lemma sort_values_sorted_witness :
  exists out,
    sort_values "created_at" two_logs = Ok out /\
    columns out = columns two_logs /\
    Permutation (rows two_logs) (rows out).
Proof.
  destruct (proj2 (sort_values_sorted "created_at" two_logs) 1%nat eq_refl)
    as (out & H1 & H2 & H3 & _).
  exists out. auto.
Defined.

(* ------------------------------------------------------------------ *)
(** ** Grouping *)

Lemma distinct_In (k : value) (l : list value) : In k (distinct l) -> In k l.
Proof.
  revert k. induction l as [|x l IH]; intros k; simpl; [auto|].
  intros [H|H]; [auto|]. apply filter_In in H. right. apply IH, H.
Qed.

(** Every key of the list is equal to one that [distinct] keeps. *)
Lemma distinct_covers (k : value) (l : list value) :
  In k l -> exists k', In k' (distinct l) /\ value_eqb k' k = true.
Proof.
  induction l as [|x l IH]; simpl; [intros []|].
  intros [->|H].
  - exists k. split; [now left|apply value_eqb_refl].
  - destruct (IH H) as (k' & Hk' & Heq).
    destruct (value_eqb x k') eqn:Hx.
    + exists x. split; [now left|]. exact (value_eqb_trans _ _ _ Hx Heq).
    + exists k'. split; [|assumption]. right. apply filter_In.
      split; [assumption|]. now rewrite Hx.
Qed.

(** The last cell of a column that is not missing, case by case. *)
Lemma last_valid_cases (j : nat) (group : list (list value)) :
  (last_valid j group = VNull <-> forall r, In r group -> cell r j = VNull) /\
  (last_valid j group <> VNull ->
     exists before r after,
       group = before ++ r :: after /\
       cell r j = last_valid j group /\
       forall r', In r' after -> cell r' j = VNull).
Proof.
  induction group as [|r group IH] using rev_ind.
  - split; [split; [intros _ r []|reflexivity]|]. intros H. now elim H.
  - destruct IH as [IHn IHv].
    assert (Hlast : last_valid j (group ++ [r]) =
                    if isnull (cell r j) then last_valid j group
                    else cell r j).
    { unfold last_valid. now rewrite fold_left_app. }
    rewrite Hlast. destruct (cell r j) eqn:Hr; simpl.
    + split.
      * rewrite IHn. split.
        -- intros H r' Hin. apply in_app_or in Hin.
           destruct Hin as [Hin|[<-|[]]]; auto.
        -- intros H r' Hin. apply H, in_or_app. now left.
      * intros Hv. destruct (IHv Hv) as (before & r0 & after & -> & Hc & Ha).
        exists before, r0, (after ++ [r]). split; [now rewrite <- app_assoc|].
        split; [assumption|]. intros r' Hin. apply in_app_or in Hin.
        destruct Hin as [Hin|[<-|[]]]; auto.
    + split.
      * split; [discriminate|]. intros H.
        rewrite <- Hr. apply H, in_or_app. right. now left.
      * intros _. exists group, r, []. repeat split; auto. intros r' [].
    + split.
      * split; [discriminate|]. intros H.
        rewrite <- Hr. apply H, in_or_app. right. now left.
      * intros _. exists group, r, []. repeat split; auto. intros r' [].
    + split.
      * split; [discriminate|]. intros H.
        rewrite <- Hr. apply H, in_or_app. right. now left.
      * intros _. exists group, r, []. repeat split; auto. intros r' [].
Qed.

(** X2. The cell [GroupBy.last] takes from a column of a group is missing
    exactly when every row of the group has none there; otherwise it is the
    cell of a row of the group after which the group has only missing
    cells in that column. *)
Theorem last_valid_spec (j : nat) (group : list (list value)) :
  (last_valid j group = VNull <-> forall r, In r group -> cell r j = VNull) /\
  (last_valid j group <> VNull ->
     exists before r after,
       group = before ++ r :: after /\
       cell r j = last_valid j group /\
       forall r', In r' after -> cell r' j = VNull).
Proof.
  induction group as [|r group IH] using rev_ind.
  - split; [split; [intros _ r []|reflexivity]|]. intros H. now elim H.
  - destruct IH as [IHn IHv].
    assert (Hlast : last_valid j (group ++ [r]) =
                    if isnull (cell r j) then last_valid j group
                    else cell r j).
    { unfold last_valid. now rewrite fold_left_app. }
    rewrite Hlast. destruct (cell r j) eqn:Hr; simpl.
    + split.
      * rewrite IHn. split.
        -- intros H r' Hin. apply in_app_or in Hin.
           destruct Hin as [Hin|[<-|[]]]; auto.
        -- intros H r' Hin. apply H, in_or_app. now left.
      * intros Hv. destruct (IHv Hv) as (before & r0 & after & -> & Hc & Ha).
        exists before, r0, (after ++ [r]). split; [now rewrite <- app_assoc|].
        split; [assumption|]. intros r' Hin. apply in_app_or in Hin.
        destruct Hin as [Hin|[<-|[]]]; auto.
    + split.
      * split; [discriminate|]. intros H.
        rewrite <- Hr. apply H, in_or_app. right. now left.
      * intros _. exists group, r, []. repeat split; auto. intros r' [].
    + split.
      * split; [discriminate|]. intros H.
        rewrite <- Hr. apply H, in_or_app. right. now left.
      * intros _. exists group, r, []. repeat split; auto. intros r' [].
    + split.
      * split; [discriminate|]. intros H.
        rewrite <- Hr. apply H, in_or_app. right. now left.
      * intros _. exists group, r, []. repeat split; auto. intros r' [].
Qed.

(** X2 on the descriptions of the two log rows: the later row has none, and
    the earlier one is taken. *)
Lemma last_valid_spec_witness :
  exists before r after,
    rows two_logs = before ++ r :: after /\
    cell r 2 = last_valid 2 (rows two_logs) /\
    forall r', In r' after -> cell r' 2 = VNull.
Proof.
  apply (proj2 (last_valid_spec 2 (rows two_logs))). discriminate.
Defined.

(** X3. [groupby(key).last().reset_index()] raises [KeyError] exactly when
    the key column is missing.  Otherwise its rows start with pairwise
    different keys that are not missing, each the key of a row of the frame;
    every key of the frame that is not missing is equal to one of them; it
    has no more rows than the frame, and the key label comes first. *)
Theorem groupby_last_keys (key : string) (df : DataFrame) :
  (index_of key (columns df) = None ->
     groupby_last key df = Raise (KeyError key)) /\
  (forall i, index_of key (columns df) = Some i ->
     exists out,
       groupby_last key df = Ok out /\
       columns out = key :: remove_nth i (columns df) /\
       unique_keys 0 (rows out) = true /\
       (forall g, In g (rows out) ->
          cell g 0 <> VNull /\ exists r, In r (rows df) /\ cell r i = cell g 0) /\
       (forall r, In r (rows df) -> cell r i <> VNull ->
          exists g, In g (rows out) /\ value_eqb (cell g 0) (cell r i) = true) /\
       (List.length (rows out) <= List.length (rows df))%nat).
Proof.
  unfold groupby_last. split; [intros ->; reflexivity|].
  intros i Hi. rewrite Hi. eexists. split; [reflexivity|]. cbn [columns rows].
  set (keys := filter notnull (map (fun r => cell r i) (rows df))).
  split; [reflexivity|]. split; [|split; [|split]].
  - unfold unique_keys. rewrite map_map. cbn [cell nth]. rewrite map_id.
    apply all_distinct_sort, all_distinct_distinct.
  - intros g Hg. apply in_map_iff in Hg. destruct Hg as (k & <- & Hk).
    cbn [cell nth].
    apply (Permutation_in _ (Permutation_sym (sort_by_perm _ _))) in Hk.
    apply distinct_In in Hk. apply filter_In in Hk. destruct Hk as [Hk Hn].
    split; [now apply notnull_true|].
    apply in_map_iff in Hk. destruct Hk as (r & Hr & Hin). eauto.
  - intros r Hr Hn.
    assert (Hk : In (cell r i) keys).
    { apply filter_In. split; [|now apply notnull_true].
      exact (in_map (fun r => cell r i) _ _ Hr). }
    destruct (distinct_covers _ _ Hk) as (k' & Hk' & Heq).
    apply (Permutation_in _ (sort_by_perm (fun k => k) _)) in Hk'.
    eexists. split; [apply in_map; exact Hk'|]. exact Heq.
  - rewrite length_map.
    rewrite <- (Permutation_length (sort_by_perm (fun k => k) _)).
    assert (Hd : forall l, (List.length (distinct l) <= List.length l)%nat).
    { induction l as [|x l IH]; simpl; [lia|].
      pose proof (filter_length_le (fun k' => negb (value_eqb x k'))
                                   (distinct l)). lia. }
    pose proof (Hd keys).
    pose proof (filter_length_le notnull (map (fun r => cell r i) (rows df))).
    fold keys in H0. rewrite length_map in H0. lia.
Qed.

(** X3 on the two log rows, grouped by referral. *)
Lemma groupby_last_keys_witness :
  exists out,
    groupby_last "user_referral_id" two_logs = Ok out /\
    unique_keys 0 (rows out) = true /\
    (List.length (rows out) <= 2)%nat.
Proof.
  destruct (proj2 (groupby_last_keys "user_referral_id" two_logs) 0%nat eq_refl)
    as (out & H1 & _ & H2 & _ & _ & H3).
  exists out. auto.
Defined.

(* ------------------------------------------------------------------ *)
(** ** The left merge, further *)

Lemma join_row_length (i j n : nat) (rs : list (list value)) (l : list value) :
  List.length (join_row i j n rs l) = Nat.max 1 (partners i j rs l).
Proof.
  unfold join_row, partners.
  destruct (filter _ rs) as [|m ms]; [reflexivity|].
  rewrite length_map. simpl. reflexivity.
Qed.

(** X4. A left merge raises a [KeyError] of the key when a side lacks it,
    and a [KeyError] it raises is of the key that a side lacks; with the key
    on both sides it raises a [ValueError] when one key column is a column
    of numbers and the other a column of texts.  When it returns, every row
    of the result begins with a left row, every left row begins a row of the
    result, and a left row with [n] partners on the right gives [n] rows,
    or one row when it has none: the result never has fewer rows than the
    left frame. *)
Theorem merge_left_rows (left right : DataFrame) (on lsuffix rsuffix : string) :
  (index_of on (columns left) = None \/ index_of on (columns right) = None ->
     merge_left left right on lsuffix rsuffix = Raise (KeyError on)) /\
  (forall k, merge_left left right on lsuffix rsuffix = Raise (KeyError k) ->
     k = on /\
     (index_of on (columns left) = None \/ index_of on (columns right) = None)) /\
  (forall i j,
     index_of on (columns left) = Some i ->
     index_of on (columns right) = Some j ->
     (numbers (map (fun l => cell l i) (rows left)) = true /\
      texts (map (fun r => cell r j) (rows right)) = true) \/
     (texts (map (fun l => cell l i) (rows left)) = true /\
      numbers (map (fun r => cell r j) (rows right)) = true) ->
     merge_left left right on lsuffix rsuffix = Raise ValueError) /\
  (forall out,
     merge_left left right on lsuffix rsuffix = Ok out ->
     exists i j,
       index_of on (columns left) = Some i /\
       index_of on (columns right) = Some j /\
       (forall x, In x (rows out) ->
          exists l rest, In l (rows left) /\ x = l ++ rest) /\
       (forall l, In l (rows left) -> exists rest, In (l ++ rest) (rows out)) /\
       List.length (rows out) =
         list_sum (map (fun l => Nat.max 1 (partners i j (rows right) l))
                       (rows left)) /\
       (List.length (rows left) <= List.length (rows out))%nat).
Proof.
  split; [|split; [|split]].
  - unfold merge_left. intros [-> | ->]; [reflexivity|].
    destruct (index_of on (columns left)); reflexivity.
  - intros k H. apply merge_left_Raise in H.
    destruct H as [[H Hm]|[[H _]|H]]; try discriminate.
    injection H as ->. auto.
  - intros i j. apply merge_left_clash.
  - intros out H. pose proof (merge_left_keeps _ _ _ _ _ _ H) as [Hkeep _].
    apply merge_left_Ok in H. destruct H as (i & j & Hi & Hj & _ & ->).
    exists i, j. split; [exact Hi|]. split; [exact Hj|]. cbn [rows] in *.
    assert (Hlen : List.length
              (flat_map (join_row i j
                           (List.length (remove_nth j (columns right)))
                           (rows right)) (rows left)) =
            list_sum (map (fun l => Nat.max 1 (partners i j (rows right) l))
                          (rows left))).
    { rewrite length_flat_map. f_equal. apply map_ext. intros l.
      apply join_row_length. }
    split; [|split; [exact Hkeep|split; [exact Hlen|]]].
    + intros x Hx. apply in_flat_map in Hx. destruct Hx as (l & Hl & Hx).
      destruct (join_row_extends _ _ _ _ _ _ Hx) as (rest & ->). eauto.
    + rewrite Hlen. clear Hlen Hkeep.
      induction (rows left) as [|l ls IH]; [simpl; lia|].
      cbn [List.length map list_sum fold_right]. fold (list_sum
        (map (fun l0 => Nat.max 1 (partners i j (rows right) l0)) ls)).
      pose proof (Nat.le_max_l 1 (partners i j (rows right) l)). lia.
Qed.

(** X4 on the referral and the transaction table. *)
Lemma merge_left_rows_witness :
  exists out,
    merge_left one_referral other_transaction "transaction_id" "" "_trans"
      = Ok out /\
    (List.length (rows one_referral) <= List.length (rows out))%nat.
Proof.
  eexists. split; [reflexivity|].
  destruct (proj2 (proj2 (proj2 (merge_left_rows one_referral other_transaction
                                   "transaction_id" "" "_trans")))
                  _ eq_refl) as (i & j & _ & _ & _ & _ & _ & H).
  exact H.
Defined.

Lemma remove_nth_row_length (r : list value) (j n : nat) :
  List.length r = n -> (j < n)%nat ->
  List.length (remove_nth j r) = (n - 1)%nat.
Proof. intros <- H. now apply remove_nth_length. Qed.

(** A left merge of rectangular frames is rectangular. *)
Lemma merge_left_shape (left right out : DataFrame)
    (on lsuffix rsuffix : string) :
  rectangular left -> rectangular right ->
  merge_left left right on lsuffix rsuffix = Ok out ->
  rectangular out.
Proof.
  intros Hl Hr H. apply merge_left_Ok in H.
  destruct H as (i & j & _ & Hj & _ & ->).
  pose proof (index_of_lt _ _ _ Hj) as Hlt.
  assert (Hcols : List.length (remove_nth j (columns right)) =
                  (List.length (columns right) - 1)%nat)
    by now apply remove_nth_length.
  unfold rectangular. cbn [columns rows].
  intros x Hx. apply in_flat_map in Hx. destruct Hx as (l & Hin & Hx).
  rewrite length_app, !length_map, Hcols. unfold join_row in Hx.
  destruct (filter _ (rows right)) as [|m ms] eqn:Hf.
  - destruct Hx as [<-|[]]. rewrite length_app, repeat_length, (Hl l Hin).
    lia.
  - apply in_map_iff in Hx. destruct Hx as (r & <- & Hrin).
    assert (Hr' : In r (rows right)).
    { rewrite <- Hf in Hrin. now apply filter_In in Hrin. }
    rewrite length_app, (Hl l Hin).
    rewrite (remove_nth_row_length r j _ (Hr r Hr') Hlt). reflexivity.
Qed.

(** X5. A left merge of two frames whose rows have one cell per column
    gives a frame whose rows have one cell per column, with the left columns
    followed by the right columns but the key. *)
Theorem merge_left_rectangular (left right out : DataFrame)
    (on lsuffix rsuffix : string) :
  rectangular left -> rectangular right ->
  merge_left left right on lsuffix rsuffix = Ok out ->
  rectangular out /\
  List.length (columns out) =
    (List.length (columns left) + (List.length (columns right) - 1))%nat.
Proof.
  intros Hl Hr H. split; [exact (merge_left_shape _ _ _ _ _ _ Hl Hr H)|].
  apply merge_left_Ok in H. destruct H as (i & j & _ & Hj & _ & ->).
  cbn [columns]. rewrite length_app, !length_map.
  rewrite (remove_nth_length _ _ (index_of_lt _ _ _ Hj)). reflexivity.
Qed.

(** X5 on the referral and the transaction table. *)
Lemma merge_left_rectangular_witness :
  exists out,
    merge_left one_referral other_transaction "transaction_id" "" "_trans"
      = Ok out /\
    rectangular out /\ List.length (columns out) = 11%nat.
Proof.
  eexists. split; [reflexivity|].
  refine (merge_left_rectangular one_referral other_transaction _
            "transaction_id" "" "_trans" _ _ eq_refl).
  - intros r [<-|[]]. reflexivity.
  - intros r [<-|[]]. reflexivity.
Defined.

(* ------------------------------------------------------------------ *)
(** ** Projection *)

Lemma get_as_series (c : string) (d : value) :
  forall (cols : list string) (r : list value) (i : nat),
    index_of c cols = Some i -> List.length r = List.length cols ->
    get (as_series cols r) c d = cell r i.
Proof.
  unfold as_series, cell.
  induction cols as [|c0 cols IH]; intros r i Hi Hlen; [discriminate|].
  destruct r as [|v r]; [discriminate|]. simpl in *.
  destruct (String.eqb c0 c).
  - injection Hi as <-. reflexivity.
  - destruct (index_of c cols) as [i'|] eqn:Hi'; [|discriminate].
    injection Hi as <-. apply IH; [reflexivity|lia].
Qed.

Lemma indices_of_Ok (cols wanted : list string) :
  (forall c, In c wanted -> mem c cols = true) ->
  exists idx,
    indices_of cols wanted = Ok idx /\
    Forall2 (fun c i => index_of c cols = Some i) wanted idx.
Proof.
  induction wanted as [|c wanted IH]; intros H; simpl.
  - exists []. split; [reflexivity|constructor].
  - destruct (proj1 (index_of_Some c cols) (H c (or_introl eq_refl)))
      as (i & Hi).
    destruct IH as (idx & Hidx & Hall); [intros c' Hc'; apply H; now right|].
    exists (i :: idx). rewrite Hi, Hidx. split; [reflexivity|].
    now constructor.
Qed.


(** A projection on labels that are all columns returns. *)
Lemma select_Ok (wanted : list string) (df : DataFrame) :
  (forall c, In c wanted -> has_column c df = true) ->
  exists out,
    select wanted df = Ok out /\
    columns out = wanted /\
    List.length (rows out) = List.length (rows df) /\
    rectangular out /\
    (rectangular df ->
       rows out =
         map (fun r => map (fun c => get (as_series (columns df) r) c VNull)
                           wanted)
             (rows df)).
Proof.
  unfold select, has_column.
  intros H. destruct (indices_of_Ok (columns df) wanted H) as (idx & -> & Hall).
  eexists. split; [reflexivity|]. cbn [bind columns rows].
  split; [reflexivity|]. split; [apply length_map|]. split.
  - intros r Hr. cbn [rows columns] in *. apply in_map_iff in Hr.
    destruct Hr as (r0 & <- & _). rewrite length_map.
    symmetry. exact (Forall2_length Hall).
  - intros Hrect. apply map_ext_in. intros r Hr.
    specialize (Hrect r Hr). clear H Hr.
    induction Hall as [|c i wanted' idx' Hi Hall IH]; [reflexivity|].
    simpl. rewrite IH. f_equal. symmetry. now apply get_as_series.
Qed.




(* ------------------------------------------------------------------ *)
(** ** What the join block can raise *)








(* ------------------------------------------------------------------ *)
(** ** Title case *)

Lemma ascii_case_facts (c : ascii) :
  is_cased (to_upper c) = is_cased c /\
  is_cased (to_lower c) = is_cased c /\
  to_upper (to_upper c) = to_upper c /\
  to_lower (to_lower c) = to_lower c /\
  to_lower (to_upper c) = to_lower c /\
  to_upper (to_lower c) = to_upper c.
Proof.
  destruct c as [[|] [|] [|] [|] [|] [|] [|] [|]]; vm_compute;
    repeat split; reflexivity.
Qed.

Lemma title_from_idem (s : string) :
  forall b, title_from b (title_from b s) = title_from b s.
Proof.
  induction s as [|c s IH]; intros b; simpl; [reflexivity|].
  destruct (ascii_case_facts c) as (Hu & Hl & Huu & Hll & _).
  destruct b; [rewrite Hll, Hl|rewrite Huu, Hu]; now rewrite IH.
Qed.

Lemma title_from_lower (s : string) :
  forall b, lower (title_from b s) = lower s.
Proof.
  induction s as [|c s IH]; intros b; simpl; [reflexivity|].
  destruct (ascii_case_facts c) as (_ & _ & _ & Hll & Hlu & _).
  rewrite IH. destruct b; [now rewrite Hll|now rewrite Hlu].
Qed.

Lemma title_from_length (s : string) :
  forall b, String.length (title_from b s) = String.length s.
Proof.
  induction s as [|c s IH]; intros b; simpl; [reflexivity|]. now rewrite IH.
Qed.

Lemma ascii_case_ascii (c : ascii) :
  is_ascii (to_upper c) = is_ascii c /\ is_ascii (to_lower c) = is_ascii c.
Proof.
  destruct c as [[|] [|] [|] [|] [|] [|] [|] [|]]; vm_compute;
    split; reflexivity.
Qed.

Lemma title_from_ascii (s : string) :
  forall b, ascii_text (title_from b s) = ascii_text s.
Proof.
  induction s as [|c s IH]; intros b; simpl; [reflexivity|].
  destruct (ascii_case_ascii c) as [Hu Hl].
  rewrite IH. destruct b; [now rewrite Hl|now rewrite Hu].
Qed.

Section InitcapMore.
Context {E : PyEnv}.

(** On ASCII text the title case of the runtime is [title], and stays ASCII
    text. *)
Lemma str_title_ascii_text (s : string) :
  ascii_text s = true ->
  str_title s = title s /\ ascii_text (str_title s) = true.
Proof.
  intros Hs. rewrite (str_title_ascii s Hs). split; [reflexivity|].
  unfold title. now rewrite title_from_ascii.
Qed.

Lemma safe_initcap_ascii (v : value) :
  ascii_cell v = true ->
  ascii_cell (safe_initcap v) = true /\
  safe_initcap (safe_initcap v) = safe_initcap v.
Proof.
  destruct v as [|q|s|t]; try discriminate; [split; reflexivity|].
  cbn [ascii_cell]. intros Hs.
  destruct (str_title_ascii_text s Hs) as [Ht Ha].
  unfold safe_initcap. cbn [isnull py_str ascii_cell].
  split; [exact Ha|].
  rewrite (str_title_ascii _ Ha), Ht. unfold title.
  now rewrite title_from_idem.
Qed.

Lemma safe_initcap_null (v : value) : safe_initcap v = VNull <-> v = VNull.
Proof.
  unfold safe_initcap. destruct v; simpl;
    try (split; [reflexivity|reflexivity]).
  - destruct (str_num q); split; discriminate.
  - split; discriminate.
  - destruct (str_time t); split; discriminate.
Qed.

(** The loop over no label leaves the row. *)
Lemma capitalized_row_nil (cols : list string) (r : list value) :
  capitalized_row [] cols r = r.
Proof.
  revert r. induction cols as [|c cols IH]; intros [|v r]; simpl;
    try reflexivity. now rewrite IH.
Qed.

Lemma capitalized_row_step (a : string) (cs : list string) :
  ~ In a cs ->
  forall (cols : list string) (r : list value),
    capitalized_row cs cols (initcap_row_step cols r a) =
    capitalized_row (a :: cs) cols r.
Proof.
  intros Ha. apply mem_false in Ha. unfold initcap_row_step.
  destruct (is_name_column a) eqn:Hna.
  - induction cols as [|c cols IH]; intros [|v r]; simpl; try reflexivity.
    rewrite IH. unfold mem at 2. simpl. fold (mem c cs).
    destruct (String.eqb c a) eqn:Hca; simpl; [|reflexivity].
    apply String.eqb_eq in Hca. subst c. now rewrite Ha, Hna.
  - induction cols as [|c cols IH]; intros [|v r]; simpl; try reflexivity.
    rewrite IH. unfold mem at 2. simpl. fold (mem c cs).
    destruct (String.eqb c a) eqn:Hca; simpl; [|reflexivity].
    apply String.eqb_eq in Hca. subst c. rewrite Hna, andb_false_r.
    reflexivity.
Qed.

Lemma fold_capitalized (cols : list string) :
  forall (cs : list string) (r : list value),
    NoDup cs ->
    fold_left (initcap_row_step cols) cs r = capitalized_row cs cols r.
Proof.
  induction cs as [|a cs IH]; intros r Hnd; simpl.
  - now rewrite capitalized_row_nil.
  - inversion Hnd as [|? ? Ha Hnd']; subst.
    rewrite (IH _ Hnd'). now apply capitalized_row_step.
Qed.

(** A row whose cells under the name labels are ASCII texts or missing is
    capitalized once and for all. *)
Lemma capitalized_row_idem (cs cols : list string) :
  forall r : list value,
    (forall j c v, nth_error cols j = Some c -> is_name_column c = true ->
                   nth_error r j = Some v -> ascii_cell v = true) ->
    capitalized_row cs cols (capitalized_row cs cols r) =
    capitalized_row cs cols r.
Proof.
  induction cols as [|c cols IH]; intros [|v r] H; simpl; try reflexivity.
  rewrite IH by (intros j c' v' Hc Hn Hv; exact (H (S j) c' v' Hc Hn Hv)).
  destruct (mem c cs && is_name_column c) eqn:Hm; [|reflexivity].
  apply andb_true_iff in Hm. destruct Hm as [_ Hn].
  now rewrite (proj2 (safe_initcap_ascii v (H 0%nat c v eq_refl Hn eq_refl))).
Qed.

Lemma capitalized_row_length (cs cols : list string) (r : list value) :
  List.length (capitalized_row cs cols r) = List.length r.
Proof.
  revert r. induction cols as [|c cols IH]; intros [|v r]; simpl;
    try reflexivity. now rewrite IH.
Qed.

Lemma initcap_names_closed (df : DataFrame) :
  NoDup (columns df) ->
  initcap_names df =
  {| columns := columns df;
     rows := map (capitalized_row (columns df) (columns df)) (rows df) |}.
Proof.
  intros Hnd. unfold initcap_names.
  destruct (initcap_fold (columns df) df) as [Hc Hr].
  destruct (fold_left initcap_step (columns df) df) as [c r].
  simpl in *. subst c r. f_equal. apply map_ext. intros r.
  now apply fold_capitalized.
Qed.

End InitcapMore.

(** X8. On ASCII text title-casing changes the case of letters and nothing
    else: the title case is [title], it is ASCII text of the same length
    that lower-cases to the same text, and title-casing it again changes
    nothing, so that [safe_initcap] applied twice to the text is
    [safe_initcap] applied once.  [safe_initcap] returns a missing cell only
    for a missing cell. *)
Theorem title_case_only (E : PyEnv) (s : string) :
  ascii_text s = true ->
  str_title s = title s /\
  ascii_text (str_title s) = true /\
  String.length (str_title s) = String.length s /\
  lower (str_title s) = lower s /\
  str_title (str_title s) = str_title s /\
  safe_initcap (safe_initcap (VStr s)) = safe_initcap (VStr s) /\
  (forall v, safe_initcap v = VNull <-> v = VNull).
Proof.
  intros Hs. destruct (str_title_ascii_text s Hs) as [Ht Ha].
  split; [exact Ht|]. split; [exact Ha|].
  rewrite (str_title_ascii _ Ha), Ht. unfold title.
  split; [apply title_from_length|]. split; [apply title_from_lower|].
  split; [apply title_from_idem|].
  split; [exact (proj2 (safe_initcap_ascii (VStr s) Hs))|].
  apply safe_initcap_null.
Qed.

(** X8 on a name. *)
Lemma title_case_only_witness :
  str_title "john o'neil" = "John O'Neil"%string /\
  str_title (str_title "john o'neil") = str_title "john o'neil".
Proof.
  destruct (title_case_only iso_env "john o'neil" eq_refl)
    as (H1 & _ & _ & _ & H2 & _).
  split; [exact H1|exact H2].
Defined.

(** X9. On a frame with distinct labels the initcap loop keeps the labels
    and the number of rows, and keeps a rectangular frame rectangular; each
    row becomes the row with [safe_initcap] applied under the name labels;
    and where the cells under the name labels are ASCII texts or missing,
    running the loop on its result changes nothing. *)
Theorem initcap_names_idempotent (E : PyEnv) (df : DataFrame) :
  NoDup (columns df) ->
  columns (initcap_names df) = columns df /\
  rows (initcap_names df) =
    map (capitalized_row (columns df) (columns df)) (rows df) /\
  List.length (rows (initcap_names df)) = List.length (rows df) /\
  (rectangular df -> rectangular (initcap_names df)) /\
  (ascii_names df -> initcap_names (initcap_names df) = initcap_names df).
Proof.
  intros Hnd. rewrite (initcap_names_closed df Hnd). cbn [columns rows].
  split; [reflexivity|]. split; [reflexivity|].
  split; [apply length_map|]. split.
  - intros Hrect r Hr. cbn [columns rows] in *. apply in_map_iff in Hr.
    destruct Hr as (r0 & <- & Hr0). rewrite capitalized_row_length. auto.
  - intros Ha. rewrite initcap_names_closed by exact Hnd. cbn [columns rows].
    f_equal. rewrite map_map. apply map_ext_in. intros r Hr.
    apply capitalized_row_idem. intros j c v Hc Hn Hv.
    exact (Ha r j c v Hr Hc Hn Hv).
Qed.

(** X9 on the user table. *)
Lemma initcap_names_idempotent_witness :
  initcap_names (initcap_names one_user) = initcap_names one_user.
Proof.
  refine (proj2 (proj2 (proj2 (proj2
            (initcap_names_idempotent iso_env one_user _)))) _).
  - repeat constructor; simpl; intuition discriminate.
  - intros r j c v [<-|[]] Hc Hn Hv.
    destruct j as [|[|[|[|j]]]]; simpl in Hc, Hv;
      try (injection Hc as <-); try discriminate;
      try (injection Hv as <-); try reflexivity.
    destruct j; discriminate.
Defined.

(* ------------------------------------------------------------------ *)
(** ** Reward values *)

Lemma apply_in_row_length (f : value -> value) (col : string) :
  forall (cols : list string) (r : list value),
    List.length (apply_in_row f col cols r) = List.length r.
Proof.
  induction cols as [|c cols IH]; intros [|v r]; simpl; try reflexivity.
  now rewrite IH.
Qed.

Lemma apply_in_row_idem (f : value -> value) (col : string) :
  (forall v, f (f v) = f v) ->
  forall (cols : list string) (r : list value),
    apply_in_row f col cols (apply_in_row f col cols r) =
    apply_in_row f col cols r.
Proof.
  intros Hf. induction cols as [|c cols IH]; intros [|v r]; simpl;
    try reflexivity.
  rewrite IH. destruct (String.eqb c col); [now rewrite Hf|reflexivity].
Qed.

(** A column other than the one that is rewritten keeps its cells. *)
Lemma apply_in_row_other (f : value -> value) (col k : string) :
  k <> col ->
  forall (cols : list string) (r : list value) (j : nat),
    index_of k cols = Some j ->
    cell (apply_in_row f col cols r) j = cell r j.
Proof.
  intros Hk. unfold cell.
  induction cols as [|c cols IH]; intros r j Hj; [discriminate|].
  destruct r as [|v r]; [reflexivity|]. simpl in *.
  destruct (String.eqb c k) eqn:Hck.
  - injection Hj as <-. apply String.eqb_eq in Hck. subst c.
    apply String.eqb_neq in Hk. now rewrite Hk.
  - destruct (index_of k cols) as [j'|] eqn:Hj'; [|discriminate].
    injection Hj as <-. simpl. now apply IH.
Qed.

(** X10. Coercing a cell to a number gives a number or a missing cell, and
    coercing again changes nothing; on a coerced cell the comparison with
    zero of the validator never raises.  On the reward table the coercion
    keeps the labels and the number of rows, leaves under [reward_value]
    only numbers and missing cells, and is the same applied twice. *)
Theorem coerce_rewards_numeric (E : PyEnv) :
  (forall v, (to_numeric v = VNull \/ exists q, to_numeric v = VNum q) /\
             to_numeric (to_numeric v) = to_numeric v /\
             exists b, gt_zero (to_numeric v) = Ok b) /\
  (forall df,
      columns (coerce_rewards df) = columns df /\
      List.length (rows (coerce_rewards df)) = List.length (rows df) /\
      coerce_rewards (coerce_rewards df) = coerce_rewards df /\
      (forall r j v,
          In r (rows (coerce_rewards df)) ->
          nth_error (columns df) j = Some "reward_value"%string ->
          nth_error r j = Some v ->
          v = VNull \/ exists q, v = VNum q)).
Proof.
  assert (Hshape : forall v, to_numeric v = VNull \/
                             exists q, to_numeric v = VNum q).
  { intros [|q|s|t]; simpl; eauto. destruct (to_numeric_str s); eauto. }
  assert (Hidem : forall v, to_numeric (to_numeric v) = to_numeric v).
  { intros v. destruct (Hshape v) as [->|(q & ->)]; reflexivity. }
  split.
  - intros v. split; [apply Hshape|]. split; [apply Hidem|].
    destruct (Hshape v) as [->|(q & ->)]; simpl; eauto.
  - intros df. unfold coerce_rewards.
    destruct (has_column "reward_value" df) eqn:Hc.
    2:{ rewrite Hc. repeat split; try reflexivity.
        intros r j v _ Hj _. exfalso.
        apply nth_error_In, mem_In in Hj. unfold has_column in Hc.
        congruence. }
    unfold has_column. cbn [columns apply_column]. fold (has_column "reward_value" df).
    rewrite Hc. cbn [columns rows apply_column].
    split; [reflexivity|]. split; [apply length_map|]. split.
    + unfold apply_column. cbn [columns rows]. f_equal. rewrite map_map.
      apply map_ext. intros r. now apply apply_in_row_idem.
    + intros r j v Hr Hj Hv. apply in_map_iff in Hr.
      destruct Hr as (r0 & <- & _).
      destruct (nth_error r0 j) as [v0|] eqn:Hv0.
      * rewrite (apply_in_row_nth _ _ _ _ _ _ _ Hj Hv0) in Hv.
        rewrite String.eqb_refl in Hv. injection Hv as <-. apply Hshape.
      * exfalso. apply nth_error_None in Hv0.
        assert (nth_error (apply_in_row to_numeric "reward_value"
                             (columns df) r0) j <> None) by congruence.
        apply nth_error_Some in H. rewrite apply_in_row_length in H. lia.
Qed.

(** X10 on the reward table: the reward value is a number after the
    coercion. *)
Lemma coerce_rewards_numeric_witness :
  VNum 50000 = VNull \/ exists q, VNum 50000 = VNum q.
Proof.
  refine (proj2 (proj2 (proj2 (proj2 (coerce_rewards_numeric iso_env)
                                  one_reward)))
            [VNum 3; VNum 50000; VStr "2024-01-03T00:00Z"] 1%nat
            (VNum 50000) _ eq_refl eq_refl).
  left. reflexivity.
Defined.

(* ------------------------------------------------------------------ *)
(** ** Local times *)

(** X11. What [utc_to_local] returns is missing or a timestamp.  With a
    zone name of the zone list the timestamp has no zone, and its wall
    clock less the offset of the zone is the instant that was parsed; with
    any other zone name the timestamp has a zone: the derived column holds
    timestamps without zone and timestamps with one side by side when only
    some rows name a known zone. *)
Theorem utc_to_local_result (E : PyEnv) (ts tz : value) :
  utc_to_local ts tz = VNull \/
  exists s dt d,
    py_str ts = Ok s /\ dateutil_parse s = Ok dt /\
    utc_to_local ts tz = VTime d /\
    match recognized tz with
    | Some zone =>
        tzinfo d = None /\
        (wall d - utcoffset zone (instant (assume_utc dt)))%Z =
          instant (assume_utc dt)
    | None => tzinfo d <> None /\ d = assume_utc dt
    end.
Proof.
  unfold utc_to_local, utc_to_local_body, bind.
  destruct (isnull ts); [now left|].
  destruct (py_str ts) as [s|] eqn:Hs; [|now left].
  destruct (dateutil_parse s) as [dt|] eqn:Hdt; [|now left].
  destruct (recognized tz) as [zone|].
  - unfold astimezone. destruct (in_range _ && in_range _); [|now left].
    right. exists s, dt. eexists.
    split; [reflexivity|]. split; [exact Hdt|]. split; [reflexivity|].
    split; [reflexivity|].
    unfold drop_tzinfo, naive. cbn [wall tzinfo]. lia.
  - right. exists s, dt, (assume_utc dt).
    split; [reflexivity|]. split; [exact Hdt|]. split; [reflexivity|].
    split; [|reflexivity]. unfold assume_utc, localize_utc.
    destruct (tzinfo dt) eqn:Hz; simpl; congruence.
Qed.

(* ------------------------------------------------------------------ *)
(** ** When the validator returns *)

Lemma and_then_Ok (a b : result bool) :
  (exists x, a = Ok x) -> (exists y, b = Ok y) -> exists z, a &> b = Ok z.
Proof. intros (x & ->) (y & ->). destruct x; simpl; eauto. Qed.

Lemma and_then_Raise (a b : result bool) (e : exn) :
  a &> b = Raise e -> a = Raise e \/ (a = Ok true /\ b = Raise e).
Proof. destruct a as [[|]|e']; simpl; intros H; auto; discriminate. Qed.

Section ValidatorReturns.
Context {E : PyEnv}.

(** X12. On a record whose three text fields have a string form,
    [check_valid] returns a verdict as soon as the reward value is a number
    or missing and the two timestamps can be compared; and whenever it
    raises on such a record it raises a [TypeError]. *)
Theorem check_valid_returns (row : Series) (l : locals) :
  read_locals row = Ok l ->
  ((reward_val l = VNull \/ exists q, reward_val l = VNum q) ->
   comparable (tx_time l) (ref_time l) ->
   exists b, check_valid row = Ok b) /\
  (forall e, check_valid row = Raise e -> e = TypeError).
Proof.
  intros Hl. unfold check_valid. rewrite Hl. cbn [bind]. split.
  - intros Hr Hc.
    assert (Hg : exists x, gt_zero (reward_val l) = Ok x).
    { destruct Hr as [->|(q & ->)]; simpl; eauto. }
    assert (Ht : exists x, time_ge (tx_time l) (ref_time l) = Ok x).
    { unfold time_ge, comparable, ts_ge in *.
      destruct (tx_time l) as [x|], (ref_time l) as [y|]; eauto.
      destruct (tzinfo x), (tzinfo y); eauto;
        exfalso; destruct Hc as [H1 H2];
        [specialize (H2 eq_refl)|specialize (H1 eq_refl)]; discriminate. }
    assert (Hv : exists b, valid_1 l = Ok b).
    { unfold valid_1.
      repeat (apply and_then_Ok;
              [first [eassumption | eexists; reflexivity]|]).
      eexists; reflexivity. }
    destruct Hv as (b & ->). cbn [bind].
    destruct b; [eauto|]. destruct (valid_2 l); eauto.
  - intros e. destruct (valid_1 l) as [b|e'] eqn:Hv; cbn [bind].
    + destruct b; [discriminate|]. destruct (valid_2 l); discriminate.
    + intros H. injection H as <-. unfold valid_1 in Hv.
      repeat match goal with
             | H : _ &> _ = Raise _ |- _ =>
                 apply and_then_Raise in H; destruct H as [H|[_ H]]
             | H : Ok _ = Raise _ |- _ => discriminate H
             end.
      * destruct (reward_val l); simpl in Hv; congruence.
      * unfold time_ge, ts_ge in Hv.
        destruct (tx_time l) as [x|], (ref_time l) as [y|]; try discriminate.
        destruct (tzinfo x), (tzinfo y); congruence.
Qed.

End ValidatorReturns.

(** X12 on the pending record without reward. *)
Lemma check_valid_returns_witness :
  exists b, check_valid (pending_record VNull) = Ok b.
Proof.
  refine (proj1 (check_valid_returns (pending_record VNull) _ eq_refl) _ _).
  - left. reflexivity.
  - exact I.
Defined.

(* ------------------------------------------------------------------ *)
(** ** Letter case in the validator *)

Lemma upper_lower (s : string) : upper (lower s) = upper s.
Proof.
  induction s as [|c s IH]; simpl; [reflexivity|].
  rewrite IH. now rewrite (proj2 (proj2 (proj2 (proj2 (proj2
                             (ascii_case_facts c)))))).
Qed.

(** X13. The verdict does not depend on the letter case of the
    description, the transaction status and the transaction type: two
    records that hold texts there that agree up to case, and agree in every
    other field, get the same verdict. *)
Theorem check_valid_case_insensitive (E : PyEnv) (row row' : Series) :
  (forall k, In k ["description"; "transaction_status";
                   "transaction_type"]%string ->
     exists s s', get row k (VStr "") = VStr s /\
                  get row' k (VStr "") = VStr s' /\ lower s = lower s') ->
  (forall k, In k ["reward_value"; "transaction_id"; "referral_at";
                   "transaction_at"; "reward_granted_at"]%string ->
     get row k VNull = get row' k VNull) ->
  check_valid row = check_valid row'.
Proof.
  intros Htext Hother.
  destruct (Htext "description"%string) as (s & s' & Hs & Hs' & Hl);
    [simpl; auto|].
  destruct (Htext "transaction_status"%string) as (t & t' & Ht & Ht' & Hlt);
    [simpl; auto|].
  destruct (Htext "transaction_type"%string) as (y & y' & Hy & Hy' & Hly);
    [simpl; auto|].
  assert (Hloc : read_locals row = read_locals row').
  { unfold read_locals. rewrite Hs, Hs', Ht, Ht', Hy, Hy'. cbn [py_str bind].
    rewrite !Hother by (simpl; auto 10).
    rewrite Hl, <- (upper_lower t), <- (upper_lower y), Hlt, Hly,
      !upper_lower. reflexivity. }
  unfold check_valid. now rewrite Hloc.
Qed.

(** X13 on the rewarded record and the same record in capitals. *)
Lemma check_valid_case_insensitive_witness :
  check_valid (rewarded_record "2024-01-02T00:00Z") =
  check_valid
    [("reward_value", VNum 50000); ("description", VStr "BERHASIL");
     ("transaction_id", VStr "TX1"); ("transaction_status", VStr "Paid");
     ("transaction_type", VStr "NEW");
     ("referral_at", VStr "2024-01-01T00:00Z");
     ("transaction_at", VStr "2024-01-02T00:00Z");
     ("reward_granted_at", VStr "2024-01-03T00:00Z")]%string.
Proof.
  apply (check_valid_case_insensitive iso_env).
  - intros k [<-|[<-|[<-|[]]]]; do 2 eexists; repeat split.
  - intros k [<-|[<-|[<-|[<-|[<-|[]]]]]]; reflexivity.
Defined.

(* ------------------------------------------------------------------ *)
(** ** Validation of the frame and the final report *)

Section ReportFacts.
Context {E : PyEnv}.

Lemma apply_rows_Ok (cols : list string) (rs : list (list value))
    (bs : list bool) :
  apply_rows cols rs = Ok bs <->
  Forall2 (fun r b => check_valid (as_series cols r) = Ok b) rs bs.
Proof.
  revert bs. induction rs as [|r rs IH]; intros bs; simpl.
  - split; [intros H; injection H as <-; constructor|].
    intros H. inversion H. reflexivity.
  - unfold bind. split.
    + destruct (check_valid (as_series cols r)) as [b|] eqn:Hb; [|discriminate].
      destruct (apply_rows cols rs) as [bs'|]; [|discriminate].
      intros H. injection H as <-. constructor; [assumption|]. now apply IH.
    + intros H. inversion H as [|? b ? bs' Hb Hrest]; subst.
      rewrite Hb. apply IH in Hrest. now rewrite Hrest.
Qed.

Lemma apply_rows_Raise (cols : list string) (rs : list (list value))
    (e : exn) :
  apply_rows cols rs = Raise e <->
  exists before r after,
    rs = before ++ r :: after /\
    (forall x, In x before -> exists b, check_valid (as_series cols x) = Ok b) /\
    check_valid (as_series cols r) = Raise e.
Proof.
  induction rs as [|r rs IH]; simpl.
  - split; [discriminate|]. intros (before & r & after & H & _).
    destruct before; discriminate.
  - unfold bind. destruct (check_valid (as_series cols r)) as [b|e'] eqn:Hb.
    + split.
      * destruct (apply_rows cols rs) as [bs|e'']; [discriminate|].
        intros H. injection H as <-.
        destruct (proj1 IH eq_refl) as (before & r0 & after & -> & Hok & Hr).
        exists (r :: before), r0, after. split; [reflexivity|].
        split; [|assumption]. intros x [<-|Hx]; eauto.
      * intros (before & r0 & after & Heq & Hok & Hr).
        destruct before as [|x before]; simpl in Heq; injection Heq as <- ->.
        -- congruence.
        -- assert (H : apply_rows cols (before ++ r0 :: after) = Raise e).
           { apply IH. exists before, r0, after. split; [reflexivity|].
             split; [|assumption]. intros y Hy. apply Hok. now right. }
           now rewrite H.
    + split.
      * intros H. injection H as <-. exists [], r, rs. split; [reflexivity|].
        split; [intros x []|assumption].
      * intros (before & r0 & after & Heq & Hok & Hr).
        destruct before as [|x before]; simpl in Heq; injection Heq as <- ->.
        -- congruence.
        -- destruct (Hok r (or_introl eq_refl)) as (b & Hb'). congruence.
Qed.

(** X14. [df.apply(check_valid, axis=1)] returns the verdicts exactly when
    [check_valid] returns on every row, one verdict per row in the order of
    the rows; it raises exactly when [check_valid] raises on some row, and
    then with what the first such row raises: one record that cannot be
    judged leaves the whole frame without verdicts. *)
Theorem apply_check_valid_spec (df : DataFrame) :
  (forall bs,
      apply_check_valid df = Ok bs <->
      Forall2 (fun r b => check_valid (as_series (columns df) r) = Ok b)
              (rows df) bs) /\
  (forall bs, apply_check_valid df = Ok bs ->
      List.length bs = List.length (rows df)) /\
  (forall e,
      apply_check_valid df = Raise e <->
      exists before r after,
        rows df = before ++ r :: after /\
        (forall x, In x before ->
           exists b, check_valid (as_series (columns df) x) = Ok b) /\
        check_valid (as_series (columns df) r) = Raise e).
Proof.
  unfold apply_check_valid. split; [|split].
  - intros bs. apply apply_rows_Ok.
  - intros bs H. apply apply_rows_Ok in H. symmetry.
    exact (Forall2_length H).
  - intros e. apply apply_rows_Raise.
Qed.

Lemma final_columns_select (df : DataFrame) :
  exists final,
    select (final_columns df) df = Ok final /\
    columns final = final_columns df /\
    List.length (rows final) = List.length (rows df) /\
    rectangular final.
Proof.
  destruct (select_Ok (final_columns df) df)
    as (final & H1 & H2 & H3 & H4 & _).
  - intros c Hc. unfold final_columns in Hc. now apply filter_In in Hc.
  - exists final. auto.
Qed.

(** The final report fails exactly when the validation does, and is as
    long as the frame when it is written. *)
Lemma final_report_outcome (df : DataFrame) :
  (forall e, final_report df = Raise e <-> apply_check_valid df = Raise e) /\
  (forall verdicts,
      apply_check_valid df = Ok verdicts ->
      exists final,
        final_report df = Ok (final, verdicts) /\
        columns final = filter (fun c => has_column c df) report_columns /\
        List.length (rows final) = List.length (rows df) /\
        List.length verdicts = List.length (rows df) /\
        rectangular final).
Proof.
  unfold final_report, bind.
  destruct (final_columns_select df) as (final & Hs & Hc & Hn & Hr).
  split.
  - intros e. destruct (apply_check_valid df) as [bs|e'].
    + rewrite Hs. split; discriminate.
    + split; intros H; injection H as <-; reflexivity.
  - intros verdicts Hv. rewrite Hv, Hs. exists final.
    split; [reflexivity|]. split; [exact Hc|]. split; [exact Hn|].
    split; [|exact Hr].
    unfold apply_check_valid in Hv. apply apply_rows_Ok in Hv.
    symmetry. exact (Forall2_length Hv).
Qed.

(** X15. The projection of the final report never raises: the report fails
    exactly when the validation of the frame does, with the same exception.
    A report that is written has the columns of the fixed list that the
    frame has, in the order of the list, one row and one verdict per row of
    the frame, and one cell per column in every row. *)
Theorem final_report_spec (df : DataFrame) :
  (forall e, final_report df = Raise e <-> apply_check_valid df = Raise e) /\
  (forall verdicts,
      apply_check_valid df = Ok verdicts ->
      exists final,
        final_report df = Ok (final, verdicts) /\
        columns final = filter (fun c => has_column c df) report_columns /\
        List.length (rows final) = List.length (rows df) /\
        List.length verdicts = List.length (rows df) /\
        rectangular final) /\
  (forall c, In c (final_columns df) <->
             In c report_columns /\ has_column c df = true).
Proof.
  destruct (final_report_outcome df) as [H1 H2].
  split; [exact H1|]. split; [exact H2|].
  intros c. unfold final_columns. apply filter_In.
Qed.

End ReportFacts.

(** X14 on the frame of the record whose two timestamps cannot be
    compared. *)
Lemma apply_check_valid_spec_witness :
  apply_check_valid (frame_of (rewarded_record "2023-12-31T00:00")) =
  Raise TypeError.
Proof.
  apply (proj2 (proj2 (apply_check_valid_spec
                         (frame_of (rewarded_record "2023-12-31T00:00"))))).
  exists [], (map snd (rewarded_record "2023-12-31T00:00")), [].
  split; [reflexivity|]. split; [intros x []|reflexivity].
Defined.

(** X15 on the frame of the rewarded record. *)
Lemma final_report_spec_witness :
  exists final,
    final_report (frame_of (rewarded_record "2024-01-02T00:00Z")) =
      Ok (final, [true]) /\
    List.length (rows final) = 1%nat.
Proof.
  assert (Hv : apply_check_valid
                 (frame_of (rewarded_record "2024-01-02T00:00Z")) = Ok [true])
    by (vm_compute; reflexivity).
  destruct (proj1 (proj2 (final_report_spec
                            (frame_of (rewarded_record "2024-01-02T00:00Z"))))
                  [true] Hv) as (final & H1 & _ & H2 & _).
  exists final. auto.
Defined.

(* ------------------------------------------------------------------ *)
(** ** The profiler *)

Lemma distinct_length (l : list value) :
  (List.length (distinct l) <= List.length l)%nat.
Proof.
  induction l as [|x l IH]; simpl; [lia|].
  pose proof (filter_length_le (fun k' => negb (value_eqb x k')) (distinct l)).
  lia.
Qed.

Lemma null_notnull_length (cells : list value) :
  (List.length (filter isnull cells) + List.length (filter notnull cells))%nat
  = List.length cells.
Proof.
  induction cells as [|v cells IH]; simpl; [reflexivity|].
  unfold notnull at 1. destruct (isnull v); simpl; lia.
Qed.

(** The two counts of a column: together at most the number of cells, and
    no distinct value exactly when every cell is missing. *)
Lemma counts_bound (cells : list value) :
  (null_count cells + distinct_count cells <= List.length cells)%nat /\
  (distinct_count cells = 0%nat <-> null_count cells = List.length cells).
Proof.
  unfold null_count, distinct_count.
  pose proof (null_notnull_length cells) as Hsum.
  pose proof (distinct_length (filter notnull cells)) as Hd.
  split; [lia|].
  destruct (filter notnull cells) as [|v l] eqn:Hf; simpl in *; [lia|].
  split; intros H; [discriminate|lia].
Qed.

Lemma column_of_length (col : string) (df : DataFrame) :
  In col (columns df) ->
  List.length (column_of col df) = List.length (rows df).
Proof.
  intros Hin. unfold column_of. apply mem_In, index_of_Some in Hin.
  destruct Hin as (j & ->). apply length_map.
Qed.

Lemma profile_df_shape (df : DataFrame) (name : string) :
  columns df <> [] ->
  columns (profile_df df name) = profile_columns /\
  List.length (rows (profile_df df name)) = List.length (columns df) /\
  rectangular (profile_df df name).
Proof.
  unfold profile_df. intros Hne.
  destruct (columns df) as [|c0 cols] eqn:Hcols; [now elim Hne|].
  cbn [columns rows]. split; [reflexivity|]. split; [apply length_map|].
  intros r Hr. cbn [columns rows] in *. apply in_map_iff in Hr.
  destruct Hr as (c & <- & _). reflexivity.
Qed.

(** X16. For a frame that has columns, [profile_df] returns a frame with
    the four profile labels and one record per column, in the order of the
    columns: the table name, the column label, the number of missing cells
    and the number of distinct cells that are not missing.  The two counts
    together are at most the number of rows, and there is no distinct value
    exactly when the whole column is missing.  For a frame without columns
    it returns the frame without columns. *)
Theorem profile_df_spec (df : DataFrame) (name : string) :
  (columns df = [] -> profile_df df name = empty_frame) /\
  (columns df <> [] ->
     columns (profile_df df name) = profile_columns /\
     List.length (rows (profile_df df name)) = List.length (columns df) /\
     rectangular (profile_df df name) /\
     forall j col, nth_error (columns df) j = Some col ->
       exists n d,
         nth_error (rows (profile_df df name)) j =
           Some [VStr name; VStr col; count_cell n; count_cell d] /\
         n = null_count (column_of col df) /\
         d = distinct_count (column_of col df) /\
         (n + d <= List.length (rows df))%nat /\
         (d = 0%nat <-> n = List.length (rows df))).
Proof.
  unfold profile_df. split; [intros ->; reflexivity|].
  intros Hne. destruct (columns df) as [|c0 cols] eqn:Hcols; [now elim Hne|].
  cbn [columns rows]. split; [reflexivity|]. split; [apply length_map|].
  split.
  - intros r Hr. cbn [columns rows] in *. apply in_map_iff in Hr.
    destruct Hr as (c & <- & _). reflexivity.
  - intros j col Hj. do 2 eexists. split.
    + rewrite nth_error_map, Hj. reflexivity.
    + split; [reflexivity|]. split; [reflexivity|].
      assert (Hlen : List.length (column_of col df) = List.length (rows df)).
      { apply column_of_length. rewrite Hcols. eapply nth_error_In, Hj. }
      rewrite <- Hlen. apply counts_bound.
Qed.

(** X16 on the two log rows: the description column has one missing cell
    and one distinct value. *)
Lemma profile_df_spec_witness :
  exists n d,
    nth_error (rows (profile_df two_logs "user_referral_logs")) 2 =
      Some [VStr "user_referral_logs"; VStr "description"; count_cell n;
            count_cell d] /\
    (n + d <= 2)%nat.
Proof.
  destruct (proj2 (profile_df_spec two_logs "user_referral_logs"))
    as (_ & _ & _ & H); [discriminate|].
  destruct (H 2%nat "description"%string eq_refl)
    as (n & d & H1 & _ & _ & H2 & _).
  exists n, d. auto.
Defined.

Lemma profiles_shape (tables : list (DataFrame * string)) :
  Forall (fun p => columns p = profile_columns /\ rectangular p)
         (profiles tables) /\
  List.length (flat_map rows (profiles tables)) =
    list_sum (map (fun p => List.length (columns (fst p)))
                  (filter (fun p => negb (df_empty (fst p))) tables)).
Proof.
  unfold profiles. induction tables as [|[df name] tables [IH1 IH2]]; simpl.
  - split; [constructor|reflexivity].
  - destruct (df_empty df) eqn:He; simpl; [auto|].
    assert (Hne : columns df <> []).
    { unfold df_empty in He. destruct (columns df); [discriminate|].
      discriminate. }
    destruct (profile_df_shape df name Hne) as (Hc & Hn & Hr).
    split; [constructor; auto|].
    rewrite length_app, Hn, IH2. reflexivity.
Qed.

(** X17. The profiling report is written exactly when some table is not
    empty.  It has the four profile labels, one cell per label in every row,
    and one row for each column of each table that is not empty; empty
    tables contribute nothing. *)
Theorem profiling_report_spec (tables : list (DataFrame * string)) :
  (profiling_report tables = None <->
   forall p, In p tables -> df_empty (fst p) = true) /\
  (forall report, profiling_report tables = Some report ->
     columns report = profile_columns /\
     rectangular report /\
     List.length (rows report) =
       list_sum (map (fun p => List.length (columns (fst p)))
                     (filter (fun p => negb (df_empty (fst p))) tables))).
Proof.
  destruct (profiles_shape tables) as [Hshape Hlen].
  unfold profiling_report. split.
  - unfold profiles.
    destruct (filter (fun p => negb (df_empty (fst p))) tables) as [|q qs]
      eqn:Hf; simpl.
    + split; [|reflexivity]. intros _ p Hp.
      destruct (df_empty (fst p)) eqn:He; [reflexivity|].
      assert (Hin : In p (filter (fun p => negb (df_empty (fst p))) tables)).
      { apply filter_In. split; [assumption|]. now rewrite He. }
      rewrite Hf in Hin. destruct Hin.
    + split; [discriminate|]. intros H.
      assert (Hin : In q (filter (fun p => negb (df_empty (fst p))) tables))
        by (rewrite Hf; now left).
      apply filter_In in Hin. destruct Hin as [Hin Hq].
      rewrite (H q Hin) in Hq. discriminate.
  - intros report. destruct (profiles tables) as [|p ps] eqn:Hp; [discriminate|].
    intros H. injection H as <-. unfold concat_frames. cbn [columns rows].
    inversion Hshape as [|? ? [Hc Hr] Hrest]; subst.
    split; [exact Hc|]. split; [|exact Hlen].
    intros r Hr'. cbn [columns rows] in *. rewrite Hc.
    apply in_flat_map in Hr'. destruct Hr' as (f & Hf & Hrf).
    rewrite Forall_forall in Hshape. destruct (Hshape f Hf) as [Hcf Hrf'].
    rewrite <- Hcf. now apply Hrf'.
Qed.

(** X17 on the user table next to an empty table: four rows, one per
    column of the user table. *)
Lemma profiling_report_spec_witness :
  exists report,
    profiling_report [(empty_frame, "lead_log"%string);
                      (one_user, "user_logs"%string)] = Some report /\
    columns report = profile_columns /\
    List.length (rows report) = 4%nat.
Proof.
  eexists. split; [reflexivity|].
  destruct (proj2 (profiling_report_spec
                     [(empty_frame, "lead_log"%string);
                      (one_user, "user_logs"%string)]) _ eq_refl)
    as (H1 & _ & H2).
  split; [exact H1|exact H2].
Defined.

(* ------------------------------------------------------------------ *)
(** ** Cleaning, then joining *)

Lemma same_shape (a b : DataFrame) :
  columns a = columns b -> List.length (rows a) = List.length (rows b) ->
  (forall k, has_column k a = has_column k b) /\
  (forall k, joins a k = joins b k).
Proof.
  intros Hc Hr.
  assert (Hh : forall k, has_column k a = has_column k b)
    by (intros k; unfold has_column; now rewrite Hc).
  split; [exact Hh|]. intros k. unfold joins, df_empty. rewrite Hh, Hc.
  destruct (columns b); [reflexivity|].
  destruct (rows a), (rows b); simpl in *; try reflexivity; discriminate.
Qed.

Lemma index_of_nth (k : string) (cols : list string) (i : nat) :
  index_of k cols = Some i -> nth_error cols i = Some k.
Proof.
  revert i. induction cols as [|c cols IH]; intros i; simpl; [discriminate|].
  destruct (String.eqb c k) eqn:Hck.
  - intros H. injection H as <-. apply String.eqb_eq in Hck. now subst.
  - destruct (index_of k cols) as [i'|]; [|discriminate].
    intros H. injection H as <-. simpl. now apply IH.
Qed.

Lemma cell_replace_nth (r : list value) (i j : nat) (x : value) :
  i <> j -> cell (replace_nth i x r) j = cell r j.
Proof.
  unfold cell. revert i j. induction r as [|v r IH]; intros [|i] [|j] H;
    simpl; try reflexivity; try (now elim H).
  apply IH. congruence.
Qed.

Section CleanThenJoin.
Context {E : PyEnv}.

Lemma initcap_names_shape (df : DataFrame) :
  columns (initcap_names df) = columns df /\
  List.length (rows (initcap_names df)) = List.length (rows df).
Proof.
  unfold initcap_names. destruct (initcap_fold (columns df) df) as [Hc Hr].
  split; [exact Hc|]. rewrite Hr. apply length_map.
Qed.

Lemma initcap_fold_other (cols : list string) (k : string) (j : nat) :
  is_name_column k = false -> index_of k cols = Some j ->
  forall (cs : list string) (r : list value),
    cell (fold_left (initcap_row_step cols) cs r) j = cell r j.
Proof.
  intros Hk Hj. induction cs as [|a cs IH]; intros r; simpl; [reflexivity|].
  rewrite IH. unfold initcap_row_step.
  destruct (is_name_column a) eqn:Ha; [|reflexivity].
  apply (apply_in_row_other safe_initcap a k); [|assumption].
  intros ->. congruence.
Qed.

Lemma initcap_names_unique (key : string) (df : DataFrame) :
  is_name_column key = false ->
  unique_on key (initcap_names df) = unique_on key df.
Proof.
  intros Hk. unfold unique_on, initcap_names.
  destruct (initcap_fold (columns df) df) as [Hc Hr]. rewrite Hc, Hr.
  destruct (index_of key (columns df)) as [j|] eqn:Hj; [|reflexivity].
  unfold unique_keys. rewrite map_map. f_equal. apply map_ext. intros r.
  now apply initcap_fold_other with (k := key).
Qed.

Lemma coerce_rewards_shape (df : DataFrame) :
  columns (coerce_rewards df) = columns df /\
  List.length (rows (coerce_rewards df)) = List.length (rows df).
Proof.
  unfold coerce_rewards. destruct (has_column "reward_value" df); [|auto].
  cbn [columns rows apply_column]. split; [reflexivity|apply length_map].
Qed.

Lemma coerce_rewards_unique (key : string) (df : DataFrame) :
  key <> "reward_value"%string ->
  unique_on key (coerce_rewards df) = unique_on key df.
Proof.
  intros Hk. unfold unique_on, coerce_rewards.
  destruct (has_column "reward_value" df); [|reflexivity].
  cbn [columns rows apply_column].
  destruct (index_of key (columns df)) as [j|] eqn:Hj; [|reflexivity].
  unfold unique_keys. rewrite map_map. f_equal. apply map_ext. intros r.
  now apply apply_in_row_other with (k := key).
Qed.

(** The localization keeps the rows in number and the cells of every column
    but its own. *)
Lemma localize_transactions_unique (key : string) (df : DataFrame) :
  key <> "transaction_at_local"%string -> rectangular df ->
  unique_on key (localize_transactions df) = unique_on key df.
Proof.
  intros Hk Hrect. unfold localize_transactions.
  destruct (has_column "transaction_at" df && _); [|reflexivity].
  unfold unique_on, assign.
  destruct (index_of "transaction_at_local" (columns df)) as [i|] eqn:Hi;
    cbn [columns rows].
  - destruct (index_of key (columns df)) as [j|] eqn:Hj; [|reflexivity].
    unfold unique_keys. rewrite map_map. f_equal. apply map_ext. intros r.
    apply cell_replace_nth. intros ->.
    apply index_of_nth in Hi, Hj. congruence.
  - destruct (index_of key (columns df)) as [j|] eqn:Hj.
    + rewrite (index_of_app _ _ _ _ Hj). unfold unique_keys.
      rewrite map_map. f_equal. apply map_ext_in. intros r Hr.
      apply cell_app. rewrite (Hrect r Hr). eapply index_of_lt, Hj.
    + assert (Hn : index_of key (columns df ++ ["transaction_at_local"%string])
                   = None).
      { destruct (index_of key (columns df ++ _)) as [j|] eqn:Hj';
          [|reflexivity].
        apply index_of_nth, nth_error_In, in_app_or in Hj'.
        destruct Hj' as [Hin|[Heq|[]]]; [|now elim Hk].
        apply mem_In, index_of_Some in Hin. destruct Hin as (j' & Hin).
        congruence. }
      now rewrite Hn.
Qed.

(** X18. Where the data cleaning followed by the join block returns a
    frame, and the reward ids, the transaction ids and the user ids are
    pairwise different, the frame has one row per referral and every
    cleaned referral row begins one of its rows; the script then returns a
    report with one row and one verdict per referral, unless the validation
    of a record raises, which is then the only way it fails. *)
Theorem run_row_count (t : Tables) (df : DataFrame) :
  reconcile (data_cleaning t) = Ok df ->
  rectangular (paid_transactions t) ->
  has_column "referral_reward_id" (referral_rewards t) = false ->
  has_column "referrer_id" (user_logs t) = false ->
  unique_on "id" (referral_rewards t) = true ->
  unique_on "transaction_id" (paid_transactions t) = true ->
  unique_on "user_id" (user_logs t) = true ->
  List.length (rows df) = List.length (rows (user_referrals t)) /\
  keeps_rows (user_referrals (data_cleaning t)) df /\
  (forall e, run t = Raise e <-> apply_check_valid df = Raise e) /\
  (forall verdicts, apply_check_valid df = Ok verdicts ->
     exists final,
       run t = Ok (final, verdicts) /\
       List.length (rows final) = List.length (rows (user_referrals t)) /\
       List.length verdicts = List.length (rows (user_referrals t))).
Proof.
  intros Hdf Hrect Hf2 Hf4 Hu2 Hu3 Hu4.
  assert (Hn : List.length (rows df) = List.length (rows (user_referrals t))).
  { rewrite (reconcile_row_count (data_cleaning t) df Hdf).
    - cbn. apply initcap_names_shape.
    - cbn. destruct (coerce_rewards_shape (referral_rewards t)) as [Hc Hr].
      now rewrite (proj1 (same_shape _ _ Hc Hr)).
    - cbn. destruct (initcap_names_shape (user_logs t)) as [Hc Hr].
      now rewrite (proj1 (same_shape _ _ Hc Hr)).
    - cbn. rewrite coerce_rewards_unique; [assumption|discriminate].
    - cbn. rewrite localize_transactions_unique;
        [assumption|discriminate|assumption].
    - cbn. rewrite initcap_names_unique; [assumption|reflexivity]. }
  split; [exact Hn|]. split; [now apply reconcile_keeps_rows|].
  unfold run. rewrite Hdf. cbn [bind].
  destruct (final_report_outcome df) as (Hraise & Hok).
  split; [exact Hraise|].
  intros verdicts Hv.
  destruct (Hok verdicts Hv) as (final & H1 & _ & H2 & H3 & _).
  exists final. rewrite <- Hn. auto.
Qed.

End CleanThenJoin.

(** X18 on the referral with a reward, a referrer and no matching
    transaction. *)
Lemma run_row_count_witness :
  exists df,
    reconcile (data_cleaning unmatched_transaction) = Ok df /\
    List.length (rows df) = 1%nat.
Proof.
  eexists. split; [vm_compute; reflexivity|].
  refine (proj1 (run_row_count (E:=iso_env) unmatched_transaction _ _ _ _ _
                   _ _ _)); try reflexivity.
  intros r [<-|[]]. reflexivity.
Defined.

(* ------------------------------------------------------------------ *)
(** ** The latest cell of a group *)

Lemma ascii_compare_trans (a b c : ascii) :
  Ascii.compare a b <> Gt -> Ascii.compare b c <> Gt ->
  Ascii.compare a c <> Gt /\
  (Ascii.compare a c = Eq -> Ascii.compare a b = Eq /\ Ascii.compare b c = Eq).
Proof.
  unfold Ascii.compare. intros H1 H2.
  rewrite N.compare_gt_iff in H1, H2 |- *.
  split; [lia|]. rewrite !N.compare_eq_iff. lia.
Qed.

Lemma string_compare_trans (s1 : string) :
  forall s2 s3,
    String.compare s1 s2 <> Gt -> String.compare s2 s3 <> Gt ->
    String.compare s1 s3 <> Gt.
Proof.
  induction s1 as [|c1 s1 IH]; intros [|c2 s2] [|c3 s3]; simpl;
    try congruence.
  intros H1 H2.
  assert (Hc1 : Ascii.compare c1 c2 <> Gt)
    by (destruct (Ascii.compare c1 c2); congruence).
  assert (Hc2 : Ascii.compare c2 c3 <> Gt)
    by (destruct (Ascii.compare c2 c3); congruence).
  destruct (ascii_compare_trans c1 c2 c3 Hc1 Hc2) as [Hc Heq].
  destruct (Ascii.compare c1 c3) eqn:H13; try congruence.
  destruct (Heq eq_refl) as [E1 E2]. rewrite E1 in H1. rewrite E2 in H2.
  now apply (IH s2 s3).
Qed.

Lemma string_leb_trans (s1 s2 s3 : string) :
  String.leb s1 s2 = true -> String.leb s2 s3 = true ->
  String.leb s1 s3 = true.
Proof.
  unfold String.leb. intros H1 H2.
  pose proof (string_compare_trans s1 s2 s3) as H.
  destruct (String.compare s1 s2), (String.compare s2 s3),
    (String.compare s1 s3); try reflexivity; try discriminate;
    exfalso; apply H; congruence.
Qed.

Lemma value_leb_trans (a b c : value) :
  value_leb a b = true -> value_leb b c = true -> value_leb a c = true.
Proof.
  destruct a as [|p|s|t], b as [|q|s'|t'], c as [|r|s''|t'']; simpl;
    try reflexivity; try discriminate.
  - rewrite !Qle_bool_iff. apply Qle_trans.
  - apply string_leb_trans.
  - unfold datetime_leb. rewrite !Z.leb_le. lia.
Qed.

Lemma strongly_sorted_filter {A : Type} (R : A -> A -> Prop)
    (p : A -> bool) (l : list A) :
  StronglySorted R l -> StronglySorted R (filter p l).
Proof.
  induction 1 as [|x l Hs IH Hx]; simpl; [constructor|].
  destruct (p x); [|assumption]. constructor; [assumption|].
  rewrite Forall_forall in *. intros y Hy. apply filter_In in Hy.
  now apply Hx.
Qed.

Lemma strongly_sorted_before {A : Type} (R : A -> A -> Prop)
    (before after : list A) (r : A) :
  StronglySorted R (before ++ r :: after) ->
  forall x, In x before -> R x r.
Proof.
  induction before as [|y before IH]; simpl; [intros _ x []|].
  intros H x [<-|Hx].
  - inversion H as [|? ? _ Hall]; subst. rewrite Forall_forall in Hall.
    apply Hall, in_or_app. right. now left.
  - inversion H; subst. now apply IH.
Qed.

Lemma sort_by_strongly_sorted {A : Type} (key : A -> value) (l : list A) :
  StronglySorted (key_le key) (sort_by key l).
Proof.
  apply Sorted_StronglySorted; [|apply sort_by_sorted].
  intros x y z. unfold key_le. apply value_leb_trans.
Qed.

(** X19. [latest_logs] raises a [KeyError] when the log table lacks
    [created_at] or the referral key, and returns otherwise.  In a row it
    returns for a referral, the cell of a column is missing exactly when
    every log row of that referral has none there; otherwise it is the cell
    of a log row of that referral which no log row of the referral with a
    cell in that column comes after in [created_at].  Column by column, so
    the cells of one returned row can come from different log rows. *)
Theorem latest_logs_latest_cell (logs : DataFrame) :
  (index_of "created_at" (columns logs) = None ->
     latest_logs logs = Raise (KeyError "created_at")) /\
  (forall ic, index_of "created_at" (columns logs) = Some ic ->
     index_of "user_referral_id" (columns logs) = None ->
     latest_logs logs = Raise (KeyError "user_referral_id")) /\
  (forall ic ik,
     index_of "created_at" (columns logs) = Some ic ->
     index_of "user_referral_id" (columns logs) = Some ik ->
     exists out,
       latest_logs logs = Ok out /\
       forall g p j,
         In g (rows out) ->
         nth_error (remove_nth ik (seq 0 (List.length (columns logs)))) p
           = Some j ->
         (cell g (S p) = VNull <->
          forall r, In r (rows logs) ->
                    value_eqb (cell r ik) (cell g 0) = true ->
                    cell r j = VNull) /\
         (cell g (S p) <> VNull ->
          exists r,
            In r (rows logs) /\
            value_eqb (cell r ik) (cell g 0) = true /\
            cell r j = cell g (S p) /\
            forall r', In r' (rows logs) ->
                       value_eqb (cell r' ik) (cell g 0) = true ->
                       cell r' j <> VNull ->
                       value_leb (cell r' ic) (cell r ic) = true)).
Proof.
  unfold latest_logs, sort_values, bind. split; [intros ->; reflexivity|].
  split.
  - intros ic -> Hk. unfold groupby_last. cbn [columns rows]. now rewrite Hk.
  - intros ic ik -> Hk. unfold groupby_last. cbn [columns rows]. rewrite Hk.
    eexists. split; [reflexivity|]. cbn [rows].
    intros g p j Hg Hp. apply in_map_iff in Hg. destruct Hg as (k & <- & _).
    set (sorted := sort_by (fun r => cell r ic) (rows logs)).
    set (group := filter (fun r => value_eqb (cell r ik) k) sorted).
    set (others := map (fun j => last_valid j group)
                       (remove_nth ik (seq 0 (List.length (columns logs))))).
    assert (Hcell : cell (k :: others) (S p) = last_valid j group).
    { unfold cell, others. cbn [nth].
      rewrite (nth_indep _ VNull (last_valid 0%nat group))
        by (rewrite length_map; apply nth_error_Some; congruence).
      rewrite (map_nth (fun j => last_valid j group) _ 0%nat).
      f_equal. now apply nth_error_nth. }
    rewrite Hcell. change (cell (k :: others) 0) with k.
    assert (Hin : forall r, In r group <->
                            In r (rows logs) /\ value_eqb (cell r ik) k = true).
    { intros r. unfold group. rewrite filter_In. unfold sorted.
      split; intros [H1 H2]; (split; [|assumption]).
      - exact (Permutation_in _ (Permutation_sym (sort_by_perm _ _)) H1).
      - exact (Permutation_in _ (sort_by_perm _ _) H1). }
    destruct (last_valid_cases j group) as [Hnull Hval]. split.
    + rewrite Hnull. split.
      * intros H r Hr Hk'. apply H, Hin. auto.
      * intros H r Hr. apply Hin in Hr. destruct Hr. auto.
    + intros Hv. destruct (Hval Hv) as (before & r & after & Hg & Hc & Ha).
      assert (Hr : In r group)
        by (rewrite Hg; apply in_or_app; right; now left).
      exists r. apply Hin in Hr. destruct Hr as [Hr1 Hr2].
      split; [assumption|]. split; [assumption|]. split; [assumption|].
      intros r' Hr' Hk' Hn.
      assert (Hr'g : In r' group) by (apply Hin; auto).
      rewrite Hg in Hr'g. apply in_app_or in Hr'g.
      assert (Hs : StronglySorted (key_le (fun r => cell r ic)) group).
      { unfold group. apply strongly_sorted_filter, sort_by_strongly_sorted. }
      rewrite Hg in Hs.
      destruct Hr'g as [Hb|[<-|Hafter]].
      * exact (strongly_sorted_before _ _ _ _ Hs r' Hb).
      * destruct (value_leb_total (cell r ic) (cell r ic)); assumption.
      * elim Hn. now apply Ha.
Qed.

(** X19 on the two log rows: the description that is returned comes from a
    log row of the referral. *)
Lemma latest_logs_latest_cell_witness :
  exists out,
    latest_logs two_logs = Ok out /\
    forall g, In g (rows out) -> cell g 2 <> VNull ->
      exists r, In r (rows two_logs) /\ cell r 2 = cell g 2.
Proof.
  destruct (proj2 (proj2 (latest_logs_latest_cell two_logs)) 1%nat 0%nat
                  eq_refl eq_refl) as (out & Hout & H).
  exists out. split; [exact Hout|]. intros g Hg Hv.
  destruct (proj2 (H g 1%nat 2%nat Hg eq_refl) Hv) as (r & Hr & _ & Hc & _).
  exists r. auto.
Defined.

(* ------------------------------------------------------------------ *)
(** ** Rectangular frames *)

Lemma replace_nth_length {A : Type} (l : list A) (i : nat) (x : A) :
  List.length (replace_nth i x l) = List.length l.
Proof.
  revert i. induction l as [|y l IH]; intros [|i]; simpl; try reflexivity.
  now rewrite IH.
Qed.

Lemma groupby_last_rectangular (key : string) (df out : DataFrame) :
  groupby_last key df = Ok out -> rectangular out.
Proof.
  unfold groupby_last.
  destruct (index_of key (columns df)) as [i|] eqn:Hi; [|discriminate].
  intros H. injection H as <-. intros g Hg. cbn [columns rows] in *.
  apply in_map_iff in Hg. destruct Hg as (k & <- & _).
  pose proof (index_of_lt _ _ _ Hi) as Hlt.
  cbn [List.length]. rewrite length_map, !remove_nth_length;
    rewrite ?length_seq; auto.
Qed.

Lemma rename_rectangular (renames : list (string * string)) (df : DataFrame) :
  rectangular df -> rectangular (rename renames df).
Proof.
  intros H r Hr. cbn [columns rows rename] in *. rewrite length_map. auto.
Qed.

Section Rectangular.
Context {E : PyEnv}.

Lemma initcap_names_rectangular (df : DataFrame) :
  rectangular df -> rectangular (initcap_names df).
Proof.
  intros H r Hr. unfold initcap_names in *.
  destruct (initcap_fold (columns df) df) as [Hc Hrows].
  rewrite Hc. rewrite Hrows in Hr. apply in_map_iff in Hr.
  destruct Hr as (r0 & <- & Hr0). rewrite <- (H r0 Hr0).
  clear. revert r0. induction (columns df) as [|a cs IH] at 2; intros r0;
    simpl; [reflexivity|].
  rewrite IH. unfold initcap_row_step.
  destruct (is_name_column a); [apply apply_in_row_length|reflexivity].
Qed.

Lemma coerce_rewards_rectangular (df : DataFrame) :
  rectangular df -> rectangular (coerce_rewards df).
Proof.
  intros H r Hr. unfold coerce_rewards in *.
  destruct (has_column "reward_value" df); [|auto].
  cbn [columns rows apply_column] in *. apply in_map_iff in Hr.
  destruct Hr as (r0 & <- & Hr0). rewrite apply_in_row_length. auto.
Qed.

Lemma localize_transactions_rectangular (df : DataFrame) :
  rectangular df -> rectangular (localize_transactions df).
Proof.
  intros H r Hr. unfold localize_transactions, assign in *.
  destruct (has_column "transaction_at" df && _); [|auto].
  destruct (index_of "transaction_at_local" (columns df));
    cbn [columns rows] in *; apply in_map_iff in Hr;
    destruct Hr as (r0 & <- & Hr0).
  - rewrite replace_nth_length. auto.
  - rewrite !length_app, (H r0 Hr0). reflexivity.
Qed.

(** X20. Frames whose rows have one cell per column stay so: each cleaning
    step keeps a table rectangular, and with a rectangular referral, reward
    and transaction table every frame the join block returns is
    rectangular, whatever the log and user tables hold. *)
Theorem pipeline_rectangular (t : Tables) :
  rectangular (user_referrals t) ->
  rectangular (referral_rewards t) ->
  rectangular (paid_transactions t) ->
  (rectangular (user_referrals (data_cleaning t)) /\
   rectangular (referral_rewards (data_cleaning t)) /\
   rectangular (paid_transactions (data_cleaning t))) /\
  (forall out, reconcile t = Ok out -> rectangular out) /\
  (forall out, reconcile (data_cleaning t) = Ok out -> rectangular out).
Proof.
  assert (Hjoin : forall t', rectangular (user_referrals t') ->
                    rectangular (referral_rewards t') ->
                    rectangular (paid_transactions t') ->
                    forall out, reconcile t' = Ok out -> rectangular out).
  { intros t' H1 H2 H3 out. unfold reconcile, bind.
    destruct (join_logs _ _) as [df1|] eqn:E1; [|discriminate].
    destruct (join_rewards _ _) as [df2|] eqn:E2; [|discriminate].
    destruct (join_transactions _ _) as [df3|] eqn:E3; [|discriminate].
    intros E4.
    assert (R1 : rectangular df1).
    { unfold join_logs in E1. destruct (joins _ _).
      2:{ now injection E1 as <-. }
      unfold bind in E1.
      destruct (latest_logs _) as [latest|] eqn:El; [|discriminate].
      unfold latest_logs, bind in El.
      destruct (sort_values _ _) as [sorted|]; [|discriminate].
      apply groupby_last_rectangular in El.
      refine (merge_left_shape _ _ _ _ _ _ H1 _ E1).
      now apply rename_rectangular. }
    assert (R2 : rectangular df2).
    { unfold join_rewards in E2. destruct (joins _ _).
      2:{ now injection E2 as <-. }
      refine (merge_left_shape _ _ _ _ _ _ R1 _ E2).
      now apply rename_rectangular. }
    assert (R3 : rectangular df3).
    { unfold join_transactions in E3. destruct (joins _ _).
      2:{ now injection E3 as <-. }
      exact (merge_left_shape _ _ _ _ _ _ R2 H3 E3). }
    unfold join_referrer in E4. destruct (joins _ _).
    2:{ now injection E4 as <-. }
    unfold bind in E4.
    destruct (select _ _) as [ref|] eqn:Es; [|discriminate].
    refine (merge_left_shape _ _ _ _ _ _ R3 _ E4).
    unfold select, bind in Es.
    destruct (indices_of _ _) as [idx|] eqn:Hidx; [|discriminate].
    injection Es as <-. intros r Hr. cbn [columns rows] in *.
    apply in_map_iff in Hr. destruct Hr as (r0 & <- & _).
    rewrite length_map.
    destruct (indices_of_Ok (columns (rename referrer_renames (user_logs t')))
                referrer_columns) as (idx' & Hi' & Hall).
    - intros c Hc.
      destruct (mem c (columns (rename referrer_renames (user_logs t'))))
        eqn:Hm; [reflexivity|].
      exfalso. clear - Hidx Hc Hm.
      revert idx Hidx. induction referrer_columns as [|c0 cs IH];
        intros idx Hidx; [destruct Hc|].
      simpl in Hidx.
      destruct (index_of c0 _) as [i0|] eqn:Hi0; [|discriminate].
      destruct (indices_of _ cs) as [rest|] eqn:Hrest; [|discriminate].
      destruct Hc as [->|Hc]; [|now apply (IH Hc rest)].
      assert (Hs : mem c (columns (rename referrer_renames (user_logs t')))
                   = true) by (apply index_of_Some; eauto).
      congruence.
    - rewrite Hidx in Hi'. injection Hi' as <-.
      symmetry. exact (Forall2_length Hall). }
  intros H1 H2 H3.
  assert (Hclean : rectangular (user_referrals (data_cleaning t)) /\
                   rectangular (referral_rewards (data_cleaning t)) /\
                   rectangular (paid_transactions (data_cleaning t))).
  { cbn. split; [now apply initcap_names_rectangular|].
    split; [now apply coerce_rewards_rectangular|].
    now apply localize_transactions_rectangular. }
  split; [exact Hclean|]. split; [now apply Hjoin|].
  destruct Hclean as (C1 & C2 & C3). now apply Hjoin.
Qed.

(** X21. A record without reward value is never judged by Rule A and never
    makes the validator raise: where the three text fields have a string
    form, the verdict is whether the description lower-cases to "menunggu"
    or "tidak berhasil".  So when no reward table is joined, no referral is
    valid as rewarded. *)
Theorem check_valid_without_reward (row : Series) (l : locals) :
  read_locals row = Ok l ->
  get row "reward_value" VNull = VNull ->
  check_valid row =
    Ok (mem (status l) ["menunggu"; "tidak berhasil"]%string) /\
  (check_valid row = Ok true <-> Rule_B row).
Proof.
  intros Hl Hr.
  assert (Hrv : reward_val l = VNull).
  { apply read_locals_Ok in Hl. destruct Hl as (s & ts & tt & _ & _ & _ & ->).
    exact Hr. }
  assert (Hv1 : valid_1 l = Ok false).
  { unfold valid_1. rewrite Hrv. reflexivity. }
  pose proof (check_valid_second_test row l Hl Hv1) as Hc.
  split.
  - rewrite Hc. unfold valid_2. rewrite Hrv. simpl. now rewrite andb_true_r.
  - rewrite Hc. rewrite <- (valid_2_Rule_B row l Hl).
    split; [intros H; now injection H|intros ->; reflexivity].
Qed.

End Rectangular.

(** X20 on the tables of one referral. *)
Lemma pipeline_rectangular_witness :
  exists out, reconcile unmatched_transaction = Ok out /\ rectangular out.
Proof.
  eexists. split; [vm_compute; reflexivity|].
  refine (proj1 (proj2 (pipeline_rectangular (E:=iso_env)
                          unmatched_transaction _ _ _)) _ _);
    [intros r [<-|[]]; reflexivity ..|vm_compute; reflexivity].
Defined.

(** X21 on the pending record without reward. *)
Lemma check_valid_without_reward_witness :
  check_valid (pending_record VNull) = Ok true.
Proof.
  exact (proj1 (check_valid_without_reward (E:=iso_env)
                  (pending_record VNull) _ eq_refl eq_refl)).
Defined.
